(** * Expense tracker: the filter and aggregation logic of the expense list

    A shallow embedding of the client-side logic of
    [src/components/ExpenseList.js] (the all-match variant of the list
    component) and of the second copy of that component kept in the
    repository (the any-match variant), with the JavaScript built-ins
    they call:

    - completions: a JavaScript expression either returns a value or
      throws; a method call on [undefined] throws a [TypeError],
      [toISOString] on an invalid [Date] throws a [RangeError];
    - arrays are lists, [every], [some], [filter], [flatMap], [reduce]
      and [includes] follow ECMA-262, callbacks run left to right;
    - a JavaScript number is an IEEE-754 binary64 value: [float];
    - a [Date] holds a time value, an integral number of milliseconds
      since the epoch, or NaN ([None]); the calendar functions are those
      of ECMA-262, section "Time Values and Time Range";
    - the local time zone of the browser is its [LocalTZA], the offset
      of local time from UTC in force at an instant or at a local time,
      which daylight saving makes depend on the time;
    - the list receives its expenses from the document store: a stored
      [Date] comes back as a [Timestamp] object.

    Besides the filter, the category options and the total, the
    development covers the handlers of the list component (the reset
    and "Current Month" buttons, the delete dialog), its number
    formatting, and the category fields of the form in [src/App.js].  *)

From Stdlib Require Import ZArith Lia Floats Ascii String.
From stdpp Require Import base option list.

Local Open Scope Z_scope.

(** ** Completions *)

Inductive JsError : Type := TypeError | RangeError.

Inductive Completion (A : Type) : Type :=
| Normal (v : A)
| Throw (err : JsError).

Arguments Normal {A} v.
Arguments Throw {A} err.

(** Sequencing: an abrupt completion ends the evaluation. *)
Definition andThen {A B : Type} (c : Completion A) (k : A -> Completion B)
  : Completion B :=
  match c with
  | Normal v => k v
  | Throw err => Throw err
  end.

Notation "'let*' x ':=' c 'in' k" := (andThen c (fun x => k))
  (at level 10, x name, c at level 100, k at level 200).

(** ** Array built-ins *)

(** [Array.prototype.every]: the first falsy answer of the callback
    ends the iteration; an exception of the callback propagates. *)
Fixpoint Array_every {A : Type} (callbackfn : A -> Completion bool)
  (arr : list A) : Completion bool :=
  match arr with
  | [] => Normal true
  | kValue :: rest =>
      let* testResult := callbackfn kValue in
      if testResult then Array_every callbackfn rest else Normal false
  end.

(** [Array.prototype.some]: the first truthy answer ends the iteration. *)
Fixpoint Array_some {A : Type} (callbackfn : A -> Completion bool)
  (arr : list A) : Completion bool :=
  match arr with
  | [] => Normal false
  | kValue :: rest =>
      let* testResult := callbackfn kValue in
      if testResult then Normal true else Array_some callbackfn rest
  end.

(** [Array.prototype.filter]: a new array holding, in index order, the
    elements the callback selects. *)
Fixpoint Array_filter {A : Type} (callbackfn : A -> Completion bool)
  (arr : list A) : Completion (list A) :=
  match arr with
  | [] => Normal []
  | kValue :: rest =>
      let* selected := callbackfn kValue in
      let* A' := Array_filter callbackfn rest in
      Normal (if selected then kValue :: A' else A')
  end.

(** [Array.prototype.flatMap] with a callback that returns an array. *)
Definition Array_flatMap {A B : Type} (mapperFunction : A -> list B)
  (arr : list A) : list B :=
  flat_map mapperFunction arr.

(** [Array.prototype.reduce] called with an initial value. *)
Definition Array_reduce {A B : Type} (callbackfn : B -> A -> B)
  (initialValue : B) (arr : list A) : B :=
  fold_left callbackfn arr initialValue.

(** [recv.includes(x)] where [recv] may be [undefined] ([None]): the
    property lookup on [undefined] throws. Labels are strings, on which
    SameValueZero is equality of contents. *)
Definition Array_includes (recv : option (list string)) (searchElement : string)
  : Completion bool :=
  match recv with
  | None => Throw TypeError
  | Some arr => Normal (existsb (String.eqb searchElement) arr)
  end.

(** [new Set(iterable)] followed by the spread [[...set]]: a [Set]
    keeps its elements in insertion order and [add] ignores a value
    that is already present. *)
Definition Set_add (entries : list string) (value : string) : list string :=
  if existsb (String.eqb value) entries then entries else entries ++ [value].

Definition new_Set (iterable : list string) : list string :=
  fold_left Set_add iterable [].

(** ** Time values (ECMA-262) *)

(** A time value: [None] is NaN. *)
Definition TimeValue : Type := option Z.

Definition msPerDay : Z := 86400000.

Definition Day (t : Z) : Z := t / msPerDay.

Definition TimeWithinDay (t : Z) : Z := t mod msPerDay.

Definition DaysInYear (y : Z) : Z :=
  if negb (y mod 4 =? 0) then 365
  else if negb (y mod 100 =? 0) then 366
  else if negb (y mod 400 =? 0) then 365
  else 366.

Definition DayFromYear (y : Z) : Z :=
  365 * (y - 1970) + (y - 1969) / 4 - (y - 1901) / 100 + (y - 1601) / 400.

Definition TimeFromYear (y : Z) : Z := msPerDay * DayFromYear y.

(** The year that holds day number [d]: the largest [y] with
    [DayFromYear y <= d] (lemma [YearFromDay_spec]), computed over the
    400-year cycle counted from 1 January of year 1. *)
Definition YearFromDay (d : Z) : Z :=
  let n := d + 719162 in
  let q400 := n / 146097 in
  let r400 := n mod 146097 in
  let q100 := Z.min (r400 / 36524) 3 in
  let r100 := r400 - q100 * 36524 in
  let q4 := r100 / 1461 in
  let r4 := r100 mod 1461 in
  let q1 := Z.min (r4 / 365) 3 in
  1 + 400 * q400 + 100 * q100 + 4 * q4 + q1.

Definition YearFromTime (t : Z) : Z := YearFromDay (Day t).

Definition InLeapYear_of (y : Z) : Z := if DaysInYear y =? 365 then 0 else 1.

Definition InLeapYear (t : Z) : Z := InLeapYear_of (YearFromTime t).

Definition DayWithinYear (t : Z) : Z := Day t - DayFromYear (YearFromTime t).

(** Day within the year on which month [m] (0 to 11) starts; entry 12
    is the length of the year. *)
Definition monthStart (leap m : Z) : Z :=
  match m with
  | 0 => 0
  | 1 => 31
  | 2 => 59 + leap
  | 3 => 90 + leap
  | 4 => 120 + leap
  | 5 => 151 + leap
  | 6 => 181 + leap
  | 7 => 212 + leap
  | 8 => 243 + leap
  | 9 => 273 + leap
  | 10 => 304 + leap
  | 11 => 334 + leap
  | _ => 365 + leap
  end.

Definition MonthFromDayWithinYear (leap dwy : Z) : Z :=
  if dwy <? 31 then 0
  else if dwy <? 59 + leap then 1
  else if dwy <? 90 + leap then 2
  else if dwy <? 120 + leap then 3
  else if dwy <? 151 + leap then 4
  else if dwy <? 181 + leap then 5
  else if dwy <? 212 + leap then 6
  else if dwy <? 243 + leap then 7
  else if dwy <? 273 + leap then 8
  else if dwy <? 304 + leap then 9
  else if dwy <? 334 + leap then 10
  else 11.

Definition MonthFromTime (t : Z) : Z :=
  MonthFromDayWithinYear (InLeapYear t) (DayWithinYear t).

Definition DateFromTime (t : Z) : Z :=
  DayWithinYear t - monthStart (InLeapYear t) (MonthFromTime t) + 1.

Definition MakeDay (year month date : Z) : Z :=
  let ym := year + month / 12 in
  let mn := month mod 12 in
  DayFromYear ym + monthStart (InLeapYear_of ym) mn + date - 1.

Definition MakeDate (day time : Z) : Z := day * msPerDay + time.

Definition TimeClip (time : Z) : TimeValue :=
  if Z.abs time <=? 8640000000000000 then Some time else None.

Definition LocalTime (tza t : Z) : Z := t + tza.

Definition UTC (tza t : Z) : Z := t - tza.

(** The time zone of the host: [LocalTZA(t, isUTC)], the offset of
    local time from UTC in milliseconds, in force at the instant [t]
    ([isUTC] true) or at the local time value [t] ([isUTC] false). *)
Definition TimeZone : Type := Z -> bool -> Z.

(** A zone without daylight saving. *)
Definition fixedOffset (tza : Z) : TimeZone := fun _ _ => tza.

(** ** Date objects *)

(** The text ['YYYY-MM-DD'], the value of an [<input type="date">] and
    the part of [toISOString()] before the ['T']; [ymd_month] runs from
    1 to 12. *)
Record YMD : Type := mkYMD { ymd_year : Z; ymd_month : Z; ymd_day : Z }.

Definition DaysInMonth (y m : Z) : Z :=
  monthStart (InLeapYear_of y) m - monthStart (InLeapYear_of y) (m - 1).

(** The fields name a day of the calendar. *)
Definition legal_ymd (txt : YMD) : bool :=
  (1 <=? ymd_month txt) && (ymd_month txt <=? 12) &&
  (1 <=? ymd_day txt) &&
  (ymd_day txt <=? DaysInMonth (ymd_year txt) (ymd_month txt)).

(** The element values that the date-only form admits: a month from
    01 to 12 and a day from 01 to 31. *)
Definition inDateFormat (txt : YMD) : bool :=
  (1 <=? ymd_month txt) && (ymd_month txt <=? 12) &&
  (1 <=? ymd_day txt) && (ymd_day txt <=? 31).

(** [new Date(text)] on the date-only form, which is read as midnight
    UTC. Element values outside the form give an invalid date; a day
    from 29 to 31 that its month does not have is within the form, and
    the engine (V8) counts it on into the next month (30 February is
    1 or 2 March), as [MakeDay] does. *)
Definition Date_parse (txt : YMD) : TimeValue :=
  if inDateFormat txt
  then TimeClip (MakeDate (MakeDay (ymd_year txt) (ymd_month txt - 1) (ymd_day txt)) 0)
  else None.

(** [new Date(year, month, date)]: local midnight of the day, turned
    into an instant with the offset in force at that local time; a
    year from 0 to 99 is read as 1900 + year. *)
Definition new_Date_components (tz : TimeZone) (year month date : Z) : TimeValue :=
  let yr := if (0 <=? year) && (year <=? 99) then 1900 + year else year in
  let t := MakeDate (MakeDay yr month date) 0 in
  TimeClip (UTC (tz t false) t).

(** The getters read the local time, with the offset in force at the
    instant. *)
Definition getFullYear (tz : TimeZone) (t : Z) : Z :=
  YearFromTime (LocalTime (tz t true) t).

Definition getMonth (tz : TimeZone) (t : Z) : Z :=
  MonthFromTime (LocalTime (tz t true) t).

(** [d.toISOString().split('T')[0]]: the UTC calendar day of [d]. *)
Definition toISOString_split_T_0 (d : TimeValue) : Completion YMD :=
  match d with
  | None => Throw RangeError
  | Some tv => Normal (mkYMD (YearFromTime tv) (MonthFromTime tv + 1) (DateFromTime tv))
  end.

(** [a < b] on two [Date] objects (or numbers): false when either is NaN. *)
Definition Date_lt (a b : TimeValue) : bool :=
  match a, b with
  | Some x, Some y => x <? y
  | _, _ => false
  end.

Definition Date_gt (a b : TimeValue) : bool := Date_lt b a.

(** ** The stored expense and the filter state *)

(** The [date] of an expense as the list receives it. The form of
    [App.js] writes [date: date || new Date()]: the text of the date
    input or, when the input was left empty, a [Date], the instant of
    submission. The store keeps a [Date] as a timestamp, and
    [doc.data()] (lines 76 to 78 of [App.js]) returns it as a
    [Timestamp] object, here with the instant in milliseconds. *)
Inductive DateField : Type :=
| DateText (txt : YMD)
| DateTimestamp (tv : Z).

(** [new Date(expense.date)]. A [Timestamp] is an object and no
    [Date]: the constructor takes its primitive value, which is a
    string ([valueOf] gives the seconds and nanoseconds in digits) that
    is no date, so the result is an invalid date. *)
Definition new_Date (value : DateField) : TimeValue :=
  match value with
  | DateText txt => Date_parse txt
  | DateTimestamp _ => None
  end.

(** A document of the [expenses] collection. [description] and
    [categories] may be absent ([undefined]). *)
Record Expense : Type := mkExpense {
  id : string;
  uid : string;
  description : option string;
  amount : float;
  date : DateField;
  categories : option (list string)
}.

(** The filter fields of the component state. A text field holds a
    string: [None] is the empty string; a non-empty date text is its
    ['YYYY-MM-DD'] fields, a non-empty amount text is given by the
    number [parseFloat] reads from it (NaN when it reads none). *)
Record FilterState : Type := mkFilterState {
  selectedFilterCategories : list string;
  filterStartDate : option YMD;
  filterEndDate : option YMD;
  filterAmountMin : option float;
  filterAmountMax : option float
}.

(** [expense.categories && expense.categories.includes(cat)], the
    callback both copies of the component hand to [every] or [some]:
    on an absent [categories] the conjunction stops at [undefined]. *)
Definition includesCategory (expense : Expense) (cat : string) : Completion bool :=
  match categories expense with
  | None => Normal false
  | Some _ => Array_includes (categories expense) cat
  end.

(** The date range and amount range filters (lines 77 to 91 of
    [ExpenseList.js], the same text in the second copy): each guard
    that fires returns [false]; [a > b] is [b < a]. *)
Definition rangeFilters (st : FilterState) (expense : Expense) : bool :=
  if match filterStartDate st with
     | Some txt => Date_lt (new_Date (date expense)) (Date_parse txt)
     | None => false
     end
  then false
  else if match filterEndDate st with
          | Some txt => Date_gt (new_Date (date expense)) (Date_parse txt)
          | None => false
          end
  then false
  else if match filterAmountMin st with
          | Some bound => (amount expense <? bound)%float
          | None => false
          end
  then false
  else if match filterAmountMax st with
          | Some bound => (bound <? amount expense)%float
          | None => false
          end
  then false
  else true.

(** [exp => exp.categories || []]. *)
Definition categoriesOrEmpty (exp : Expense) : list string :=
  match categories exp with
  | Some cs => cs
  | None => []
  end.

(** *** [src/components/ExpenseList.js] *)
Module ExpenseList.

(** Initial value of [filterStartDate] (lines 22 to 27); [now] is the
    time value of [new Date()]. *)
Definition filterStartDate_init (tz : TimeZone) (now : Z) : Completion YMD :=
  let firstDayOfMonth :=
    new_Date_components tz (getFullYear tz now) (getMonth tz now) 1 in
  toISOString_split_T_0 firstDayOfMonth.

(** Initial value of [filterEndDate] (lines 28 to 32). *)
Definition filterEndDate_init (now : Z) : Completion YMD :=
  toISOString_split_T_0 (Some now).

(** The filter fields when the component mounts (lines 21 to 34). *)
Definition initialFilterState (tz : TimeZone) (now : Z) : Completion FilterState :=
  let* startDate := filterStartDate_init tz now in
  let* endDate := filterEndDate_init now in
  Normal {| selectedFilterCategories := [];
            filterStartDate := Some startDate;
            filterEndDate := Some endDate;
            filterAmountMin := None;
            filterAmountMax := None |}.

(** Lines 51 to 53. *)
Definition availableCategories (expenses : list Expense) : list string :=
  new_Set (Array_flatMap categoriesOrEmpty expenses).

(** The callback of [expenses.filter] (lines 68 to 94): the category
    filter, then the date range and amount range filters. *)
Definition filterCallback (st : FilterState) (expense : Expense)
  : Completion bool :=
  let* rejected :=
    (if (0 <? length (selectedFilterCategories st))%nat
     then let* hasAllCategories :=
            Array_every (includesCategory expense) (selectedFilterCategories st) in
          Normal (negb hasAllCategories)
     else Normal false) in
  if rejected then Normal false else Normal (rangeFilters st expense).

(** Lines 67 to 95. *)
Definition filteredExpenses (st : FilterState) (expenses : list Expense)
  : Completion (list Expense) :=
  Array_filter (filterCallback st) expenses.

(** Lines 98 to 100. *)
Definition totalAmount (filteredExpenses : list Expense) : float :=
  Array_reduce (fun sum exp => (sum + amount exp)%float) 0%float filteredExpenses.

End ExpenseList.

(** *** The second copy of the component

    Its file name is not known; it differs from [ExpenseList.js] in the
    category filter, which uses [some] where the other uses [every]. *)
Module ExpenseListAnyMatch.

(** Lines 33 to 35. *)
Definition availableCategories (expenses : list Expense) : list string :=
  new_Set (Array_flatMap categoriesOrEmpty expenses).

(** The callback of [expenses.filter] (lines 50 to 76). *)
Definition filterCallback (st : FilterState) (expense : Expense)
  : Completion bool :=
  let* rejected :=
    (if (0 <? length (selectedFilterCategories st))%nat
     then let* hasMatchingCategory :=
            Array_some (includesCategory expense) (selectedFilterCategories st) in
          Normal (negb hasMatchingCategory)
     else Normal false) in
  if rejected then Normal false else Normal (rangeFilters st expense).

Definition filteredExpenses (st : FilterState) (expenses : list Expense)
  : Completion (list Expense) :=
  Array_filter (filterCallback st) expenses.

Definition totalAmount (filteredExpenses : list Expense) : float :=
  Array_reduce (fun sum exp => (sum + amount exp)%float) 0%float filteredExpenses.

End ExpenseListAnyMatch.

(** ** Handlers and derived values of the list component

    Line numbers are those of [ExpenseList.js]; the second copy of the
    component has the same text for each of them. *)

(** A text field used as a condition: the empty string is falsy. *)
Definition truthy {A : Type} (field : option A) : bool :=
  match field with
  | Some _ => true
  | None => false
  end.

(** [hasActiveFilters] (lines 115 to 119), a chain of [||] that the
    component uses as a condition only: its truthiness. *)
Definition hasActiveFilters (st : FilterState) : bool :=
  (0 <? length (selectedFilterCategories st))%nat
  || truthy (filterStartDate st)
  || truthy (filterEndDate st)
  || truthy (filterAmountMin st)
  || truthy (filterAmountMax st).

(** The state setters of the filter fields. *)
Definition setSelectedFilterCategories (value : list string) (st : FilterState)
  : FilterState :=
  {| selectedFilterCategories := value;
     filterStartDate := filterStartDate st;
     filterEndDate := filterEndDate st;
     filterAmountMin := filterAmountMin st;
     filterAmountMax := filterAmountMax st |}.

Definition setFilterStartDate (value : option YMD) (st : FilterState) : FilterState :=
  {| selectedFilterCategories := selectedFilterCategories st;
     filterStartDate := value;
     filterEndDate := filterEndDate st;
     filterAmountMin := filterAmountMin st;
     filterAmountMax := filterAmountMax st |}.

Definition setFilterEndDate (value : option YMD) (st : FilterState) : FilterState :=
  {| selectedFilterCategories := selectedFilterCategories st;
     filterStartDate := filterStartDate st;
     filterEndDate := value;
     filterAmountMin := filterAmountMin st;
     filterAmountMax := filterAmountMax st |}.

Definition setFilterAmountMin (value : option float) (st : FilterState) : FilterState :=
  {| selectedFilterCategories := selectedFilterCategories st;
     filterStartDate := filterStartDate st;
     filterEndDate := filterEndDate st;
     filterAmountMin := value;
     filterAmountMax := filterAmountMax st |}.

Definition setFilterAmountMax (value : option float) (st : FilterState) : FilterState :=
  {| selectedFilterCategories := selectedFilterCategories st;
     filterStartDate := filterStartDate st;
     filterEndDate := filterEndDate st;
     filterAmountMin := filterAmountMin st;
     filterAmountMax := value |}.

(** The object [{ start, end }] that [getCurrentMonthRange] returns. *)
Record MonthRange : Type := mkMonthRange { range_start : YMD; range_end : YMD }.

(** [getCurrentMonthRange] (lines 56 to 64): day 0 of the next month
    stands for the last day of this one. *)
Definition getCurrentMonthRange (tz : TimeZone) (now : Z) : Completion MonthRange :=
  let firstDayOfMonth :=
    new_Date_components tz (getFullYear tz now) (getMonth tz now) 1 in
  let lastDayOfMonth :=
    new_Date_components tz (getFullYear tz now) (getMonth tz now + 1) 0 in
  let* first := toISOString_split_T_0 firstDayOfMonth in
  let* last := toISOString_split_T_0 lastDayOfMonth in
  Normal (mkMonthRange first last).

(** The click handler of the button "Current Month" (lines 237 to 241):
    the filter state it leaves and its completion. *)
Definition onClick_CurrentMonth (tz : TimeZone) (now : Z) (st : FilterState)
  : FilterState * Completion unit :=
  match getCurrentMonthRange tz now with
  | Throw err => (st, Throw err)
  | Normal range =>
      (setFilterEndDate (Some (range_end range))
         (setFilterStartDate (Some (range_start range)) st),
       Normal tt)
  end.

(** [clearFilters] (lines 103 to 112): the filter state that the
    setters called so far leave, and the completion of the handler. *)
Definition clearFilters (tz : TimeZone) (now : Z) (st : FilterState)
  : FilterState * Completion unit :=
  let st1 := setSelectedFilterCategories [] st in
  let firstDayOfMonth :=
    new_Date_components tz (getFullYear tz now) (getMonth tz now) 1 in
  match toISOString_split_T_0 firstDayOfMonth with
  | Throw err => (st1, Throw err)
  | Normal startText =>
      let st2 := setFilterStartDate (Some startText) st1 in
      match toISOString_split_T_0 (Some now) with
      | Throw err => (st2, Throw err)
      | Normal endText =>
          (setFilterAmountMax None
             (setFilterAmountMin None (setFilterEndDate (Some endText) st2)),
           Normal tt)
      end
  end.

(** The state of the delete confirmation dialog. *)
Record DeleteDialog : Type := mkDeleteDialog {
  deleteDialogOpen : bool;
  expenseToDelete : option Expense
}.

(** [handleDeleteClick] (lines 121 to 124). *)
Definition handleDeleteClick (expense : Expense) (st : DeleteDialog) : DeleteDialog :=
  {| deleteDialogOpen := true; expenseToDelete := Some expense |}.

(** [confirmDelete] (lines 126 to 132): the state it leaves and the
    arguments of its calls of [onDelete]. *)
Definition confirmDelete (st : DeleteDialog) : DeleteDialog * list string :=
  match expenseToDelete st with
  | Some expense =>
      ({| deleteDialogOpen := false; expenseToDelete := None |}, [id expense])
  | None => (st, [])
  end.

(** [cancelDelete] (lines 134 to 137). *)
Definition cancelDelete (st : DeleteDialog) : DeleteDialog :=
  {| deleteDialogOpen := false; expenseToDelete := None |}.

(** ** Number formatting

    [formatIndianNumber] (lines 37 to 48 of [ExpenseList.js]). A string
    is the list of its characters. *)

(** The class [\d]. *)
Definition isDigit (c : ascii) : bool :=
  (48 <=? nat_of_ascii c)%nat && (nat_of_ascii c <=? 57)%nat.

(** The class [\w]: letters, digits and the underscore. *)
Definition isWordChar (c : ascii) : bool :=
  isDigit c
  || ((65 <=? nat_of_ascii c)%nat && (nat_of_ascii c <=? 90)%nat)
  || ((97 <=? nat_of_ascii c)%nat && (nat_of_ascii c <=? 122)%nat)
  || (nat_of_ascii c =? 95)%nat.

(** The assertion [\B] between the character [prev] (none at the start
    of the string) and the characters [rest] that follow: both sides
    are word characters or neither is. *)
Definition nonWordBoundary (prev : option ascii) (rest : list ascii) : bool :=
  Bool.eqb
    (match prev with Some c => isWordChar c | None => false end)
    (match rest with c :: _ => isWordChar c | [] => false end).

(** [(?!\d)]. *)
Definition notBeforeDigit (rest : list ascii) : bool :=
  match rest with
  | c :: _ => negb (isDigit c)
  | [] => true
  end.

(** [(\d{3})+(?!\d)] matched at the start of [rest]: some number of
    groups of three digits, at least one, ends where no digit follows
    (the matcher backtracks over the number of groups). *)
Fixpoint digitTriples (rest : list ascii) : bool :=
  match rest with
  | d1 :: d2 :: d3 :: rest' =>
      isDigit d1 && isDigit d2 && isDigit d3
      && (notBeforeDigit rest' || digitTriples rest')
  | _ => false
  end.

(** The pattern [/\B(?=(\d{3})+(?!\d))/] at one position. It matches
    the empty string only. *)
Definition groupingPattern (prev : option ascii) (rest : list ascii) : bool :=
  nonWordBoundary prev rest && digitTriples rest.

(** [s.replace(/\B(?=(\d{3})+(?!\d))/g, ',')]: a comma is inserted at
    every position where the pattern matches, the end of the string
    included. *)
Fixpoint replaceGrouping (prev : option ascii) (rest : list ascii) : list ascii :=
  (if groupingPattern prev rest then [","%char] else [])
  ++ match rest with
     | [] => []
     | c :: rest' => c :: replaceGrouping (Some c) rest'
     end.

(** [s.split(separator)] with a separator of one character. *)
Fixpoint String_split (separator : ascii) (s : list ascii) : list (list ascii) :=
  match s with
  | [] => [[]]
  | c :: rest =>
      if Ascii.eqb c separator then [] :: String_split separator rest
      else match String_split separator rest with
           | piece :: pieces => (c :: piece) :: pieces
           | [] => [[c]]
           end
  end.

Section NumberFormat.

(** [Number.prototype.toString]: the decimal text of a number. *)
Variable Number_toString : float -> list ascii.

(** The argument is [None] when the caller passes [undefined]
    ([expenseToDelete?.amount] with no expense chosen). *)
Definition formatIndianNumber (number : option float) : list ascii :=
  match number with
  | None => ["0"%char]
  | Some x =>
      if is_nan x then ["0"%char]
      else
        let numStr := Number_toString x in
        let pieces := String_split "."%char numStr in
        let wholePart := nth 0 pieces [] in
        let decimalPart := nth_error pieces 1 in
        let formattedWhole := replaceGrouping None wholePart in
        match decimalPart with
        | Some (c :: decimals) => formattedWhole ++ "."%char :: c :: decimals
        | _ => formattedWhole
        end
  end.

End NumberFormat.

(** *** [src/App.js]: the categories of the expense form *)
Module App.

(** The fields of the form that the category handlers read and write. *)
Record CategoryFields : Type := mkCategoryFields {
  selectedCategories : list string;
  categoryInput : string
}.

(** [arr.filter((_, i) => i !== index)]: the callback of [filter]
    receives the element and its index. *)
Fixpoint Array_filter_index {A : Type} (callbackfn : A -> nat -> bool) (k : nat)
  (arr : list A) : list A :=
  match arr with
  | [] => []
  | kValue :: rest =>
      if callbackfn kValue k then kValue :: Array_filter_index callbackfn (S k) rest
      else Array_filter_index callbackfn (S k) rest
  end.

(** Click on the chip of an existing category (lines 317 to 321, and
    lines 491 to 495 in the edit dialog). *)
Definition onClick_existingCategory (category : string) (st : CategoryFields)
  : CategoryFields :=
  if negb (existsb (String.eqb category) (selectedCategories st))
  then {| selectedCategories := selectedCategories st ++ [category];
          categoryInput := categoryInput st |}
  else st.

Section NewCategory.

(** [String.prototype.trim]. *)
Variable String_trim : string -> string.

(** Click on "Add" (lines 363 to 371; the same text in the edit dialog
    and, after the test of the key, in the two [onKeyDown] handlers):
    a non-empty string is truthy. *)
Definition onClick_addCategory (st : CategoryFields) : CategoryFields :=
  if negb (String.eqb (String_trim (categoryInput st)) "")
  then
    let newCategory := String_trim (categoryInput st) in
    {| selectedCategories :=
         if negb (existsb (String.eqb newCategory) (selectedCategories st))
         then selectedCategories st ++ [newCategory]
         else selectedCategories st;
       categoryInput := ""%string |}
  else st.

End NewCategory.

(** [onDelete] of the chip at [index] of the selected categories
    (line 394, and line 568 in the edit dialog). *)
Definition onDelete_selectedCategory (index : nat) (st : CategoryFields)
  : CategoryFields :=
  {| selectedCategories :=
       Array_filter_index (fun _ i => negb (i =? index)%nat) 0 (selectedCategories st);
     categoryInput := categoryInput st |}.

End App.

(** ** The values the callbacks complete with *)

(** The label [cat] is among the categories of [expense]. *)
Definition hasLabel (expense : Expense) (cat : string) : bool :=
  existsb (String.eqb cat) (categoriesOrEmpty expense).

(** The category rule of the all-match component. *)
Definition allMatch (st : FilterState) (expense : Expense) : bool :=
  forallb (hasLabel expense) (selectedFilterCategories st).

(** The category rule of the any-match component. *)
Definition anyMatch (st : FilterState) (expense : Expense) : bool :=
  match selectedFilterCategories st with
  | [] => true
  | _ :: _ => existsb (hasLabel expense) (selectedFilterCategories st)
  end.

(** ** Sample data *)

Definition foodExpense : Expense :=
  mkExpense "e1" "u1" None 100%float (DateText (mkYMD 2024 1 5)) (Some ["food"%string]).

Definition travelExpense : Expense :=
  mkExpense "e2" "u1" (Some "train"%string) 50%float (DateText (mkYMD 2024 1 20))
    (Some ["travel"%string]).

Definition noFilter : FilterState := mkFilterState [] None None None None.

Definition januaryFood : FilterState :=
  mkFilterState ["food"%string] (Some (mkYMD 2024 1 1)) (Some (mkYMD 2024 1 31)) None None.

Definition foodOrTravel : FilterState :=
  mkFilterState ["food"%string; "travel"%string] None None None None.

(** An expense submitted with the date input left empty, at 10:00 UTC
    on 31 January 2024. *)
Definition undatedExpense : Expense :=
  mkExpense "e7" "u1" None 20%float (DateTimestamp 1706695200000) (Some ["food"%string]).

(** An expense whose amount text was not a number. *)
Definition nanExpense : Expense :=
  mkExpense "e8" "u1" None nan (DateText (mkYMD 2024 1 9)) (Some ["food"%string]).

Definition atLeastSixty : FilterState :=
  mkFilterState [] None None (Some 60%float) None.


(** The zone Europe/London during 2024: summer time, an hour ahead of
    UTC, from 31 March 01:00 UTC to 27 October 01:00 UTC; a local time
    that the change skips or repeats is read with the offset before
    the change. *)
Definition europeLondon2024 : TimeZone :=
  fun t isUTC =>
    if isUTC
    then if (1711846800000 <=? t) && (t <? 1729990800000) then 3600000 else 0
    else if (1711850400000 <=? t) && (t <? 1729994400000) then 3600000 else 0.

(** ** Statements about the filter *)

(** The filter [f] completes with a subsequence of its input, the same
    one at every call on the same arguments. *)
Definition subsequenceOfInput
  (f : FilterState -> list Expense -> Completion (list Expense))
  (st : FilterState) (expenses : list Expense) : Prop :=
  exists result,
    f st expenses = Normal result /\
    result `sublist_of` expenses /\
    (forall x, x ∈ result -> x ∈ expenses) /\
    (forall st' expenses', st' = st -> expenses' = expenses ->
       f st' expenses' = Normal result).

(** ** Statements about the category options *)

(** The concatenation of the expenses' category sequences. *)
Definition allLabels (expenses : list Expense) : list string :=
  concat (map categoriesOrEmpty expenses).

(** Position of the first occurrence of [x] in [l]; the length of [l]
    when [x] does not occur. *)
Fixpoint first_index (x : string) (l : list string) : nat :=
  match l with
  | [] => 0
  | y :: rest => if String.eqb x y then 0 else S (first_index x rest)
  end.

(** ** Statements about dates and amounts *)

(** Order of calendar days: by year, then month, then day. *)
Definition ymd_le (a b : YMD) : Prop :=
  ymd_year a < ymd_year b \/
  (ymd_year a = ymd_year b /\
   (ymd_month a < ymd_month b \/
    (ymd_month a = ymd_month b /\ ymd_day a <= ymd_day b))).

Definition ymd_lt (a b : YMD) : Prop :=
  ymd_year a < ymd_year b \/
  (ymd_year a = ymd_year b /\
   (ymd_month a < ymd_month b \/
    (ymd_month a = ymd_month b /\ ymd_day a < ymd_day b))).

(** A date text that names a day of the calendar, as the value of a
    date input and the text of [toISOString] do, and that [new Date]
    reads as a date (not as NaN). *)
Definition validDateText (txt : YMD) : Prop :=
  legal_ymd txt = true /\ Date_parse txt <> None.

(** An expense dated by the date input and whose amount is a number. *)
Definition calendarDated (e : Expense) (day : YMD) : Prop :=
  date e = DateText day /\ validDateText day /\ is_nan (amount e) = false.

(** The non-empty filter fields hold dates and numbers. *)
Definition wellFormedFilter (st : FilterState) : Prop :=
  (forall s, filterStartDate st = Some s -> validDateText s) /\
  (forall s, filterEndDate st = Some s -> validDateText s) /\
  (forall b, filterAmountMin st = Some b -> is_nan b = false) /\
  (forall b, filterAmountMax st = Some b -> is_nan b = false).

(** The calendar day that a clock in the zone [tza] shows at [t]. *)
Definition localDay (tza t : Z) : YMD :=
  mkYMD (YearFromTime (LocalTime tza t)) (MonthFromTime (LocalTime tza t) + 1)
    (DateFromTime (LocalTime tza t)).




(** The first day of the month of [day]. *)
Definition firstOfMonth (day : YMD) : YMD := mkYMD (ymd_year day) (ymd_month day) 1.

(** The initial filter fields run from the first day of the current
    month to the current day, as the clock of the user shows them, with
    no category and no amount bound. *)
Definition startsMonthEndsToday (tza now : Z) : Prop :=
  ExpenseList.initialFilterState (fixedOffset tza) now
  = Normal {| selectedFilterCategories := [];
              filterStartDate := Some (firstOfMonth (localDay tza now));
              filterEndDate := Some (localDay tza now);
              filterAmountMin := None;
              filterAmountMax := None |}.

(** ** Statements about the total *)

(** The value of a finite number, in units of 2^-1074 (every finite
    binary64 number is an integral multiple of that unit); [None] for
    NaN and the infinities. *)
Definition exactUnits (x : float) : option Z :=
  match Prim2SF x with
  | S754_zero _ => Some 0
  | S754_finite s m e => Some (cond_Zopp s (Zpos m) * 2 ^ (e + 1074))
  | S754_infinity _ => None
  | S754_nan => None
  end.

(** The arithmetic sum of the amounts, in the same units. *)
Fixpoint exactSum (expenses : list Expense) : option Z :=
  match expenses with
  | [] => Some 0
  | e :: rest =>
      match exactUnits (amount e), exactSum rest with
      | Some a, Some s => Some (a + s)
      | _, _ => None
      end
  end.

(** The total is the arithmetic sum of the amounts. *)
Definition totalIsExact (expenses : list Expense) : Prop :=
  exactUnits (ExpenseList.totalAmount expenses) = exactSum expenses.

(** One tenth and two tenths, as [parseFloat] reads them. *)
Definition tenthExpense : Expense :=
  mkExpense "e3" "u1" None 0x1.999999999999ap-4%float (DateText (mkYMD 2024 1 5)) None.

Definition fifthExpense : Expense :=
  mkExpense "e4" "u1" None 0x1.999999999999ap-3%float (DateText (mkYMD 2024 1 6)) None.

Definition largeExpense : Expense :=
  mkExpense "e5" "u1" None 10000000000000000%float (DateText (mkYMD 2024 1 7)) None.

Definition unitExpense : Expense :=
  mkExpense "e6" "u1" None 1%float (DateText (mkYMD 2024 1 8)) None.

(** ** Statements about rounded sums *)

(** Rounded quotient of [u] by [2^s], ties to even. *)
Definition roundQuotient (s u : Z) : Z :=
  let q := u / 2 ^ s in
  let r := u mod 2 ^ s in
  match 2 * r ?= 2 ^ s with
  | Lt => q
  | Gt => q + 1
  | Eq => if Z.even q then q else q + 1
  end.

(** The first power of two that no finite binary64 number reaches, in
    units of 2^-1074; it stands for the value of infinity. *)
Definition overflowUnits : Z := 2 ^ 2098.

(** Number of low bits that do not fit in the 53 bits of a mantissa. *)
Definition roundingShift (u : Z) : Z := Z.max 0 (Z.log2 u + 1 - 53).

(** Rounding of a non-negative value, in units of 2^-1074, to the
    nearest binary64 number, ties to even, overflow to infinity. *)
Definition roundUnits (u : Z) : Z :=
  Z.min overflowUnits (roundQuotient (roundingShift u) u * 2 ^ roundingShift u).

(** The value of a non-negative number in units of 2^-1074. *)
Definition unitsOf (x : spec_float) : Z :=
  match x with
  | S754_zero _ => 0
  | S754_infinity _ => overflowUnits
  | S754_nan => 0
  | S754_finite _ m e => Zpos m * 2 ^ (e + 1074)
  end.

(** Zero, a positive number or positive infinity. *)
Definition isNonNegative (x : spec_float) : bool :=
  match x with
  | S754_zero _ => true
  | S754_infinity s => negb s
  | S754_nan => false
  | S754_finite s _ _ => negb s
  end.

(** The second stage of [binary_round_aux]: renormalise a rounded
    mantissa and detect overflow. *)
Definition renormalise (m2 t : Z) : spec_float :=
  let '(mrs'', e'') := shr_fexp prec emax m2 t loc_Exact in
  match shr_m mrs'' with
  | Z0 => S754_zero false
  | Zpos m => if e'' <=? emax - prec then S754_finite false m e'' else S754_infinity false
  | Zneg _ => S754_nan
  end.

(** ** Statements about the handlers *)

(** The number of the day that a date text names, counted from
    1 January 1970. *)
Definition dayNumber (txt : YMD) : Z :=
  MakeDay (ymd_year txt) (ymd_month txt - 1) (ymd_day txt).

(** The last day of the month of [day]. *)
Definition lastOfMonth (day : YMD) : YMD :=
  mkYMD (ymd_year day) (ymd_month day) (DaysInMonth (ymd_year day) (ymd_month day)).

(** Midnight at the start of [day], as a local time value. *)
Definition localMidnight (day : YMD) : Z := MakeDate (dayNumber day) 0.

(** The calendar day that the clock of the user shows at the instant
    [now]. *)
Definition clockDay (tz : TimeZone) (now : Z) : YMD := localDay (tz now true) now.

(** The offset that the zone has in force at local midnight of [day]. *)
Definition offsetAtMidnight (tz : TimeZone) (day : YMD) : Z :=
  tz (localMidnight day) false.

(** The filter fields after a reset or at mount: no category, the two
    date texts, no amount bound. *)
Definition dateRangeOnly (startText endText : YMD) : FilterState :=
  {| selectedFilterCategories := [];
     filterStartDate := Some startText;
     filterEndDate := Some endText;
     filterAmountMin := None;
     filterAmountMax := None |}.

(** What the user does with the delete dialog. *)
Inductive DialogEvent : Type :=
| ClickDelete (expense : Expense)
| ClickConfirm
| ClickCancel.

(** One event: the state of the dialog and the arguments [onDelete]
    has been called with so far. *)
Definition dialogStep (acc : DeleteDialog * list string) (ev : DialogEvent)
  : DeleteDialog * list string :=
  match ev with
  | ClickDelete expense => (handleDeleteClick expense (fst acc), snd acc)
  | ClickConfirm =>
      (fst (confirmDelete (fst acc)), snd acc ++ snd (confirmDelete (fst acc)))
  | ClickCancel => (cancelDelete (fst acc), snd acc)
  end.

(** A sequence of events from the state at mount ([useState(false)],
    [useState(null)]). *)
Definition dialogRun (events : list DialogEvent) : DeleteDialog * list string :=
  fold_left dialogStep events ({| deleteDialogOpen := false; expenseToDelete := None |}, []).

Definition isClickDelete (ev : DialogEvent) : bool :=
  match ev with
  | ClickDelete _ => true
  | _ => false
  end.

Definition isClickConfirm (ev : DialogEvent) : bool :=
  match ev with
  | ClickConfirm => true
  | _ => false
  end.

(** What the user does with the category fields of the form. *)
Inductive CategoryEvent : Type :=
| ClickExisting (category : string)
| TypeCategory (text : string)
| ClickAdd
| DeleteChip (index : nat).

(** One event; typing calls [setCategoryInput] (line 345 of [App.js]). *)
Definition categoryStep (String_trim : string -> string) (st : App.CategoryFields)
  (ev : CategoryEvent) : App.CategoryFields :=
  match ev with
  | ClickExisting category => App.onClick_existingCategory category st
  | TypeCategory text =>
      {| App.selectedCategories := App.selectedCategories st; App.categoryInput := text |}
  | ClickAdd => App.onClick_addCategory String_trim st
  | DeleteChip index => App.onDelete_selectedCategory index st
  end.

(** A string of decimal digits. *)
Definition allDigits (s : list ascii) : bool := forallb isDigit s.

(** The string without its commas. *)
Definition removeCommas (s : list ascii) : list ascii :=
  List.filter (fun c => negb (Ascii.eqb c ","%char)) s.

(** ** Tactics for the month table *)

(** Case analysis on a month number from 1 to 12. *)
Ltac split_month m :=
  let H := fresh in
  assert (H : m = 1 \/ m = 2 \/ m = 3 \/ m = 4 \/ m = 5 \/ m = 6 \/
              m = 7 \/ m = 8 \/ m = 9 \/ m = 10 \/ m = 11 \/ m = 12) by lia;
  repeat (destruct H as [H|H]; [subst m|]); [..|subst m].

(** Evaluation of [monthStart] at the literal months of the goal. *)
Ltac month_table :=
  repeat match goal with
         | |- context [monthStart ?l (?a - 1)] =>
             let v := eval compute in (a - 1) in
             change (monthStart l (a - 1)) with (monthStart l v)
         | |- context [monthStart ?l (?a + 1)] =>
             let v := eval compute in (a + 1) in
             change (monthStart l (a + 1)) with (monthStart l v)
         end;
  cbv [monthStart].

(** ** Properties of the built-ins *)

Section Callbacks.
Context {A : Type}.
Variable callbackfn : A -> Completion bool.
Variable answer : A -> bool.
Hypothesis callbackfn_normal : forall x, callbackfn x = Normal (answer x).

Lemma Array_every_normal (arr : list A) :
  Array_every callbackfn arr = Normal (forallb answer arr).
Proof using callbackfn_normal.
  induction arr as [|x arr IH]; cbn; [reflexivity|].
  rewrite callbackfn_normal; cbn. destruct (answer x); [exact IH|reflexivity].
Qed.

Lemma Array_some_normal (arr : list A) :
  Array_some callbackfn arr = Normal (existsb answer arr).
Proof using callbackfn_normal.
  induction arr as [|x arr IH]; cbn; [reflexivity|].
  rewrite callbackfn_normal; cbn. destruct (answer x); [reflexivity|exact IH].
Qed.

Lemma Array_filter_normal (arr : list A) :
  Array_filter callbackfn arr = Normal (List.filter answer arr).
Proof using callbackfn_normal.
  induction arr as [|x arr IH]; cbn; [reflexivity|].
  rewrite callbackfn_normal, IH; cbn. reflexivity.
Qed.
End Callbacks.

Lemma filter_sublist_of {A : Type} (f : A -> bool) (l : list A) :
  List.filter f l `sublist_of` l.
Proof.
  induction l as [|x l IH]; cbn; [constructor|].
  destruct (f x); constructor; exact IH.
Qed.

Lemma filter_twice {A : Type} (f : A -> bool) (l : list A) :
  List.filter f (List.filter f l) = List.filter f l.
Proof.
  induction l as [|x l IH]; cbn; [reflexivity|].
  destruct (f x) eqn:Hx; cbn; rewrite ?Hx, IH; reflexivity.
Qed.

Lemma filter_all {A : Type} (f : A -> bool) (l : list A) :
  (forall x, f x = true) -> List.filter f l = l.
Proof.
  intros Hf. induction l as [|x l IH]; cbn; [reflexivity|].
  rewrite Hf, IH. reflexivity.
Qed.

(** ** The filter callbacks never throw *)

Lemma includesCategory_normal (expense : Expense) (cat : string) :
  includesCategory expense cat = Normal (hasLabel expense cat).
Proof.
  unfold includesCategory, hasLabel, categoriesOrEmpty.
  destruct (categories expense); reflexivity.
Qed.

Lemma filterCallback_normal (st : FilterState) (expense : Expense) :
  ExpenseList.filterCallback st expense
  = Normal (allMatch st expense && rangeFilters st expense).
Proof.
  unfold ExpenseList.filterCallback, allMatch.
  rewrite (Array_every_normal _ _ (includesCategory_normal expense)).
  destruct (selectedFilterCategories st) as [|c cs]; [reflexivity|].
  cbn [length Nat.ltb Nat.leb andThen].
  destruct (forallb _ _); reflexivity.
Qed.

Lemma filterCallback_anyMatch_normal (st : FilterState) (expense : Expense) :
  ExpenseListAnyMatch.filterCallback st expense
  = Normal (anyMatch st expense && rangeFilters st expense).
Proof.
  unfold ExpenseListAnyMatch.filterCallback, anyMatch.
  rewrite (Array_some_normal _ _ (includesCategory_normal expense)).
  destruct (selectedFilterCategories st) as [|c cs]; [reflexivity|].
  cbn [length Nat.ltb Nat.leb andThen].
  destruct (existsb _ _); reflexivity.
Qed.

Lemma filteredExpenses_normal (st : FilterState) (expenses : list Expense) :
  ExpenseList.filteredExpenses st expenses
  = Normal (List.filter (fun e => allMatch st e && rangeFilters st e) expenses).
Proof.
  apply Array_filter_normal, filterCallback_normal.
Qed.

Lemma filteredExpenses_anyMatch_normal (st : FilterState) (expenses : list Expense) :
  ExpenseListAnyMatch.filteredExpenses st expenses
  = Normal (List.filter (fun e => anyMatch st e && rangeFilters st e) expenses).
Proof.
  apply Array_filter_normal, filterCallback_anyMatch_normal.
Qed.

(** ** Order, identity and idempotence of the filter *)

(** C2: in both copies of the component the filter returns a
    subsequence of its input (elements of the input, in the order of
    the input), and the result is a function of the input sequence and
    the filter fields alone: a second call on the same arguments
    returns the same sequence. The input is a value of the embedding
    and the filter builds a new sequence from it. *)
Theorem filteredExpenses_subsequence (st : FilterState) (expenses : list Expense) :
  subsequenceOfInput ExpenseList.filteredExpenses st expenses /\
  subsequenceOfInput ExpenseListAnyMatch.filteredExpenses st expenses.
Proof.
  split; eexists.
  - split; [apply filteredExpenses_normal|].
    pose proof (filter_sublist_of (fun e => allMatch st e && rangeFilters st e) expenses)
      as Hsub.
    split; [exact Hsub|]. split.
    + intros x Hx. exact (sublist_subseteq _ _ Hsub x Hx).
    + intros st' expenses' -> ->. apply filteredExpenses_normal.
  - split; [apply filteredExpenses_anyMatch_normal|].
    pose proof (filter_sublist_of (fun e => anyMatch st e && rangeFilters st e) expenses)
      as Hsub.
    split; [exact Hsub|]. split.
    + intros x Hx. exact (sublist_subseteq _ _ Hsub x Hx).
    + intros st' expenses' -> ->. apply filteredExpenses_anyMatch_normal.
Qed.

(** C3: with no category selected and the four range fields empty the
    filter returns its input, the same elements in the same order. *)
Theorem filteredExpenses_noFilter (expenses : list Expense) :
  ExpenseList.filteredExpenses noFilter expenses = Normal expenses.
Proof.
  rewrite filteredExpenses_normal. f_equal.
  apply filter_all. intros x. reflexivity.
Qed.

(** C4: filtering the result of the filter again, with the same filter
    fields, returns that result. *)
Theorem filteredExpenses_idempotent (st : FilterState) (expenses : list Expense) :
  exists result,
    ExpenseList.filteredExpenses st expenses = Normal result /\
    ExpenseList.filteredExpenses st result = Normal result.
Proof.
  eexists. split; [apply filteredExpenses_normal|].
  rewrite filteredExpenses_normal, filter_twice. reflexivity.
Qed.

(** C10: when at most one category is selected, the all-match
    component and the any-match component compute the same filtered
    sequence, whatever the expenses and the date and amount fields. *)
Theorem filteredExpenses_variants_agree (st : FilterState) (expenses : list Expense) :
  (length (selectedFilterCategories st) <= 1)%nat ->
  ExpenseList.filteredExpenses st expenses
  = ExpenseListAnyMatch.filteredExpenses st expenses.
Proof.
  intros Hlen.
  rewrite filteredExpenses_normal, filteredExpenses_anyMatch_normal.
  f_equal. apply filter_ext. intros e.
  unfold allMatch, anyMatch.
  destruct (selectedFilterCategories st) as [|c [|c' cs]]; cbn in *; [reflexivity| |lia].
  rewrite andb_true_r, orb_false_r. reflexivity.
Qed.

Lemma filteredExpenses_variants_agree_witness :
  ExpenseList.filteredExpenses januaryFood [foodExpense; travelExpense]
  = ExpenseListAnyMatch.filteredExpenses januaryFood [foodExpense; travelExpense].
Proof.
  apply filteredExpenses_variants_agree. cbn. lia.
Defined.

(** With two categories selected the two components can differ: an
    expense tagged with one of them is dropped by the all-match
    component and kept by the any-match component. *)
Lemma filteredExpenses_variants_differ :
  ExpenseList.filteredExpenses foodOrTravel [foodExpense; travelExpense] = Normal [] /\
  ExpenseListAnyMatch.filteredExpenses foodOrTravel [foodExpense; travelExpense]
  = Normal [foodExpense; travelExpense].
Proof. split; reflexivity. Qed.

(** ** The category options *)

Lemma existsb_eqb_elem_of (x : string) (l : list string) :
  existsb (String.eqb x) l = true <-> x ∈ l.
Proof.
  rewrite existsb_exists, list_elem_of_In. split.
  - intros (y & Hy & Heq). apply String.eqb_eq in Heq. subst. exact Hy.
  - intros Hx. exists x. split; [exact Hx|apply String.eqb_refl].
Qed.

Lemma first_index_lt (x : string) (l : list string) :
  x ∈ l <-> (first_index x l < length l)%nat.
Proof.
  induction l as [|y l IH]; cbn.
  - split; [intros H; inversion H|lia].
  - rewrite elem_of_cons. destruct (String.eqb_spec x y); [intuition lia|].
    rewrite IH. intuition lia.
Qed.

Lemma first_index_app_l (x : string) (l k : list string) :
  x ∈ l -> first_index x (l ++ k) = first_index x l.
Proof.
  induction l as [|y l IH]; cbn; intros Hx; [inversion Hx|].
  destruct (String.eqb_spec x y); [reflexivity|].
  apply elem_of_cons in Hx as [Hx|Hx]; [contradiction|].
  rewrite IH; auto.
Qed.

Lemma first_index_app_r (x : string) (l k : list string) :
  x ∉ l -> first_index x (l ++ k) = (length l + first_index x k)%nat.
Proof.
  induction l as [|y l IH]; cbn; intros Hx; [reflexivity|].
  apply not_elem_of_cons in Hx as [Hne Hx].
  destruct (String.eqb_spec x y); [contradiction|].
  rewrite IH; auto.
Qed.

Lemma new_Set_snoc (l : list string) (x : string) :
  new_Set (l ++ [x]) = Set_add (new_Set l) x.
Proof. unfold new_Set. rewrite fold_left_app. reflexivity. Qed.

(** What [new Set] keeps: every value once, in the order of the first
    occurrences. *)
Lemma new_Set_spec (l : list string) :
  NoDup (new_Set l) /\
  (forall x, x ∈ new_Set l <-> x ∈ l) /\
  (forall i j x y, new_Set l !! i = Some x -> new_Set l !! j = Some y ->
     (i < j)%nat -> (first_index x l < first_index y l)%nat).
Proof.
  induction l as [|z l (Hnd & Hmem & Hord)] using rev_ind.
  - cbn. split; [constructor|]. split; [reflexivity|].
    intros i j x y Hi. inversion Hi.
  - rewrite new_Set_snoc. unfold Set_add.
    destruct (existsb (String.eqb z) (new_Set l)) eqn:Hz.
    + apply existsb_eqb_elem_of in Hz.
      split; [exact Hnd|]. split.
      * intros x. rewrite elem_of_app, list_elem_of_singleton, Hmem.
        split; [auto|]. intros [Hx| ->]; [exact Hx|]. apply Hmem, Hz.
      * intros i j x y Hi Hj Hij.
        rewrite !first_index_app_l.
        -- eapply Hord; eauto.
        -- apply Hmem. eapply list_elem_of_lookup_2; eauto.
        -- apply Hmem. eapply list_elem_of_lookup_2; eauto.
    + assert (Hznot : z ∉ new_Set l).
      { intros Hin. apply existsb_eqb_elem_of in Hin. congruence. }
      split; [|split].
      * apply NoDup_app. split; [exact Hnd|]. split; [|apply NoDup_singleton].
        intros x Hx Hx'. apply list_elem_of_singleton in Hx'. subst. contradiction.
      * intros x. rewrite !elem_of_app, Hmem. reflexivity.
      * intros i j x y Hi Hj Hij.
        assert (Hi' : new_Set l !! i = Some x).
        { rewrite lookup_app_l in Hi; [exact Hi|].
          apply lookup_lt_Some in Hj. rewrite length_app in Hj. cbn in Hj. lia. }
        assert (Hxl : x ∈ l) by (apply Hmem; eapply list_elem_of_lookup_2; eauto).
        rewrite (first_index_app_l x) by exact Hxl.
        destruct (decide (j < length (new_Set l))%nat) as [Hjl|Hjl].
        -- rewrite lookup_app_l in Hj by exact Hjl.
           rewrite (first_index_app_l y).
           ++ eapply Hord; eauto.
           ++ apply Hmem. eapply list_elem_of_lookup_2; eauto.
        -- rewrite lookup_app_r in Hj by lia.
           apply list_lookup_singleton_Some in Hj as [_ <-].
           rewrite first_index_app_r by (rewrite <- Hmem; exact Hznot).
           apply first_index_lt in Hxl. lia.
Qed.

Lemma elem_of_allLabels (expenses : list Expense) (c : string) :
  c ∈ allLabels expenses <->
  exists exp cs, exp ∈ expenses /\ categories exp = Some cs /\ c ∈ cs.
Proof.
  unfold allLabels. induction expenses as [|e es IH]; cbn.
  - split; [intros H; inversion H|]. intros (exp & cs & H & _). inversion H.
  - rewrite elem_of_app, IH. unfold categoriesOrEmpty at 1. split.
    + intros [Hc|(exp & cs & Hin & Hcs & Hc)].
      * destruct (categories e) as [cs|] eqn:He; [|inversion Hc].
        exists e, cs. split; [left|]; auto.
      * exists exp, cs. split; [right|]; auto.
    + intros (exp & cs & Hin & Hcs & Hc).
      apply elem_of_cons in Hin as [->|Hin].
      * left. rewrite Hcs. exact Hc.
      * right. eauto.
Qed.

Lemma flatMap_allLabels (expenses : list Expense) :
  Array_flatMap categoriesOrEmpty expenses = allLabels expenses.
Proof. unfold Array_flatMap, allLabels. apply flat_map_concat_map. Qed.

(** C5: the category options hold no label twice, hold exactly the
    labels that occur in the categories of some expense, and list them
    in the order of their first occurrences in the concatenation of the
    expenses' category sequences; without expenses there is no option;
    both copies of the component compute the same options. *)
Theorem availableCategories_distinct_first_seen (expenses : list Expense) :
  NoDup (ExpenseList.availableCategories expenses) /\
  (forall c, c ∈ ExpenseList.availableCategories expenses <->
     exists exp cs, exp ∈ expenses /\ categories exp = Some cs /\ c ∈ cs) /\
  (forall i j ci cj,
     ExpenseList.availableCategories expenses !! i = Some ci ->
     ExpenseList.availableCategories expenses !! j = Some cj ->
     (i < j)%nat ->
     (first_index ci (allLabels expenses) < first_index cj (allLabels expenses))%nat) /\
  ExpenseList.availableCategories [] = [] /\
  ExpenseListAnyMatch.availableCategories expenses
  = ExpenseList.availableCategories expenses.
Proof.
  unfold ExpenseList.availableCategories. rewrite flatMap_allLabels.
  destruct (new_Set_spec (allLabels expenses)) as (Hnd & Hmem & Hord).
  split; [exact Hnd|]. split; [|split; [exact Hord|split; [reflexivity|]]].
  - intros c. rewrite Hmem. apply elem_of_allLabels.
  - unfold ExpenseListAnyMatch.availableCategories. rewrite flatMap_allLabels. reflexivity.
Qed.

(** ** The calendar *)

Lemma mod100_mod4 (y : Z) : y mod 100 = 0 -> y mod 4 = 0.
Proof.
  intros H. change 100 with (4 * 25) in H. rewrite Z.rem_mul_r in H by lia.
  pose proof (Z.mod_pos_bound y 4 ltac:(lia)).
  pose proof (Z.mod_pos_bound (y / 4) 25 ltac:(lia)). lia.
Qed.

Lemma mod400_mod100 (y : Z) : y mod 400 = 0 -> y mod 100 = 0.
Proof.
  intros H. change 400 with (100 * 4) in H. rewrite Z.rem_mul_r in H by lia.
  pose proof (Z.mod_pos_bound y 100 ltac:(lia)).
  pose proof (Z.mod_pos_bound (y / 100) 4 ltac:(lia)). lia.
Qed.

(** One more year: the floor of the shifted year grows by one exactly
    when the year is a multiple of the divisor. *)
Lemma step4 (y : Z) :
  (y + 1 - 1969) / 4 = (y - 1969) / 4 + (if y mod 4 =? 0 then 1 else 0).
Proof. destruct (Z.eqb_spec (y mod 4) 0); Z.div_mod_to_equations; lia. Qed.

Lemma step100 (y : Z) :
  (y + 1 - 1901) / 100 = (y - 1901) / 100 + (if y mod 100 =? 0 then 1 else 0).
Proof. destruct (Z.eqb_spec (y mod 100) 0); Z.div_mod_to_equations; lia. Qed.

Lemma step400 (y : Z) :
  (y + 1 - 1601) / 400 = (y - 1601) / 400 + (if y mod 400 =? 0 then 1 else 0).
Proof. destruct (Z.eqb_spec (y mod 400) 0); Z.div_mod_to_equations; lia. Qed.

Lemma DayFromYear_succ (y : Z) : DayFromYear (y + 1) = DayFromYear y + DaysInYear y.
Proof.
  unfold DayFromYear, DaysInYear.
  rewrite step4, step100, step400.
  pose proof (mod400_mod100 y). pose proof (mod100_mod4 y).
  destruct (Z.eqb_spec (y mod 4) 0), (Z.eqb_spec (y mod 100) 0),
    (Z.eqb_spec (y mod 400) 0); cbn [negb]; lia.
Qed.

Lemma DaysInYear_cases (y : Z) : DaysInYear y = 365 + InLeapYear_of y /\ 0 <= InLeapYear_of y <= 1.
Proof.
  unfold InLeapYear_of, DaysInYear.
  repeat match goal with
         | |- context [ negb (?a =? ?b) ] => destruct (Z.eqb_spec a b); cbn [negb]
         end; cbn; lia.
Qed.

Lemma DayFromYear_add (y k : Z) :
  0 <= k -> DayFromYear y + 365 * k <= DayFromYear (y + k).
Proof.
  intros Hk. pattern k. apply natlike_ind; [| |exact Hk]; cbv beta.
  - replace (y + 0) with y by lia. lia.
  - intros x Hx IH. replace (y + Z.succ x) with (y + x + 1) by lia.
    rewrite DayFromYear_succ. pose proof (DaysInYear_cases (y + x)). lia.
Qed.

Lemma DayFromYear_lt (y1 y2 : Z) :
  y1 < y2 -> DayFromYear (y1 + 1) <= DayFromYear y2.
Proof.
  intros H. pose proof (DayFromYear_add (y1 + 1) (y2 - y1 - 1) ltac:(lia)) as Hadd.
  replace (y1 + 1 + (y2 - y1 - 1)) with y2 in Hadd by lia. lia.
Qed.

(** [YearFromDay] meets its definition in ECMA-262: the year of a day
    is the largest year that starts on or before it. *)
Lemma YearFromDay_spec (d : Z) :
  DayFromYear (YearFromDay d) <= d < DayFromYear (YearFromDay d + 1).
Proof.
  unfold YearFromDay, DayFromYear. Z.div_mod_to_equations. lia.
Qed.

Lemma YearFromDay_unique (d y : Z) :
  DayFromYear y <= d < DayFromYear (y + 1) -> YearFromDay d = y.
Proof.
  intros Hy. pose proof (YearFromDay_spec d) as Hs.
  destruct (Z.lt_trichotomy (YearFromDay d) y) as [Hlt|[Heq|Hgt]]; [|exact Heq|].
  - pose proof (DayFromYear_lt _ _ Hlt). lia.
  - pose proof (DayFromYear_lt _ _ Hgt). lia.
Qed.

Lemma YearFromTime_largest (t y : Z) :
  TimeFromYear y <= t <-> y <= YearFromTime t.
Proof.
  unfold TimeFromYear, YearFromTime, Day, msPerDay.
  pose proof (YearFromDay_spec (t / 86400000)) as Hs.
  split; intros H.
  - destruct (Z_le_gt_dec y (YearFromDay (t / 86400000))) as [Hle|Hgt]; [exact Hle|].
    pose proof (DayFromYear_lt (YearFromDay (t / 86400000)) y ltac:(lia)).
    Z.div_mod_to_equations. lia.
  - destruct (Z.eq_dec y (YearFromDay (t / 86400000))) as [->|Hne].
    + Z.div_mod_to_equations. lia.
    + pose proof (DayFromYear_lt y (YearFromDay (t / 86400000)) ltac:(lia)).
      pose proof (DaysInYear_cases y). rewrite DayFromYear_succ in *.
      Z.div_mod_to_equations. lia.
Qed.

(** The months of a legal date. *)
Lemma legal_ymd_cases (txt : YMD) :
  legal_ymd txt = true ->
  (1 <= ymd_month txt <= 12) /\
  1 <= ymd_day txt <= DaysInMonth (ymd_year txt) (ymd_month txt).
Proof.
  unfold legal_ymd. rewrite !andb_true_iff, !Z.leb_le. lia.
Qed.

(** A legal date lies inside its year. *)
Lemma MakeDay_within_year (y m d : Z) :
  1 <= m <= 12 -> 1 <= d <= DaysInMonth y m ->
  MakeDay y (m - 1) d = DayFromYear y + (monthStart (InLeapYear_of y) (m - 1) + d - 1) /\
  0 <= monthStart (InLeapYear_of y) (m - 1) + d - 1 < DaysInYear y.
Proof.
  intros Hm Hd. unfold MakeDay. cbv zeta.
  replace ((m - 1) / 12) with 0 by (Z.div_mod_to_equations; lia).
  replace ((m - 1) mod 12) with (m - 1) by (Z.div_mod_to_equations; lia).
  rewrite Z.add_0_r. split; [lia|].
  destruct (DaysInYear_cases y) as [-> Hleap].
  unfold DaysInMonth in Hd. revert Hd. generalize (InLeapYear_of y) Hleap. intros leap Hl.
  split_month m; month_table; lia.
Qed.

Lemma monthStart_order (leap m1 d1 m2 d2 : Z) :
  0 <= leap <= 1 ->
  1 <= m1 <= 12 -> 1 <= m2 <= 12 ->
  1 <= d1 <= monthStart leap m1 - monthStart leap (m1 - 1) ->
  1 <= d2 <= monthStart leap m2 - monthStart leap (m2 - 1) ->
  (monthStart leap (m1 - 1) + d1 < monthStart leap (m2 - 1) + d2
   <-> m1 < m2 \/ (m1 = m2 /\ d1 < d2)).
Proof.
  intros Hl Hm1 Hm2. split_month m1; split_month m2; month_table; lia.
Qed.

(** Day numbers order legal dates as the calendar does. *)
Lemma MakeDay_order (a b : YMD) :
  legal_ymd a = true -> legal_ymd b = true ->
  (MakeDay (ymd_year a) (ymd_month a - 1) (ymd_day a)
   < MakeDay (ymd_year b) (ymd_month b - 1) (ymd_day b)
   <-> ymd_lt a b).
Proof.
  intros Ha Hb.
  destruct (legal_ymd_cases _ Ha) as [Hma Hda], (legal_ymd_cases _ Hb) as [Hmb Hdb].
  destruct (MakeDay_within_year _ _ _ Hma Hda) as [-> Hwa].
  destruct (MakeDay_within_year _ _ _ Hmb Hdb) as [-> Hwb].
  unfold ymd_lt.
  destruct (Z.lt_trichotomy (ymd_year a) (ymd_year b)) as [Hlt|[Heq|Hgt]].
  - pose proof (DayFromYear_lt _ _ Hlt). rewrite DayFromYear_succ in *. lia.
  - unfold DaysInMonth in Hda, Hdb. rewrite Heq in *.
    pose proof (monthStart_order (InLeapYear_of (ymd_year b)) _ _ _ _
                  (proj2 (DaysInYear_cases _)) Hma Hmb Hda Hdb). lia.
  - pose proof (DayFromYear_lt _ _ Hgt). rewrite DayFromYear_succ in *. lia.
Qed.

(** A day of the calendar is within the date-only form. *)
Lemma legal_inDateFormat (txt : YMD) : legal_ymd txt = true -> inDateFormat txt = true.
Proof.
  intros H. apply legal_ymd_cases in H. destruct H as [Hm Hd].
  assert (Hday : ymd_day txt <= 31).
  { unfold DaysInMonth in Hd.
    pose proof (proj2 (DaysInYear_cases (ymd_year txt))) as Hl.
    revert Hd Hl. generalize (InLeapYear_of (ymd_year txt)). intros leap.
    revert Hm. generalize (ymd_month txt). intros m Hm.
    split_month m; month_table; lia. }
  unfold inDateFormat.
  repeat (apply andb_true_iff; split); apply Z.leb_le; lia.
Qed.

Lemma Date_parse_valid (txt : YMD) :
  validDateText txt ->
  legal_ymd txt = true /\
  Date_parse txt
  = Some (MakeDay (ymd_year txt) (ymd_month txt - 1) (ymd_day txt) * msPerDay).
Proof.
  intros [Hlegal Hparse]. split; [exact Hlegal|].
  unfold Date_parse, TimeClip, MakeDate in *.
  rewrite (legal_inDateFormat txt Hlegal) in *.
  destruct (Z.abs _ <=? _); [|congruence].
  f_equal. lia.
Qed.

(** A day that its month does not have is counted on into the next
    month: 30 February 2024 is read as 1 March 2024. Such a text is no
    valid date text. *)
Lemma Date_parse_rolls_over :
  Date_parse (mkYMD 2024 2 30) = Date_parse (mkYMD 2024 3 1) /\
  Date_parse (mkYMD 2024 2 30) = Some 1709251200000 /\
  Date_parse (mkYMD 2024 2 32) = None /\
  ~ validDateText (mkYMD 2024 2 30).
Proof.
  repeat split; try (vm_compute; reflexivity).
  intros [Hlegal _]. vm_compute in Hlegal. discriminate.
Qed.

Lemma ymd_le_not_lt (a b : YMD) : ymd_le a b <-> ~ ymd_lt b a.
Proof. unfold ymd_le, ymd_lt. lia. Qed.

Lemma Date_lt_parse (a b : YMD) :
  validDateText a -> validDateText b ->
  (Date_lt (Date_parse a) (Date_parse b) = false <-> ymd_le b a).
Proof.
  intros Ha Hb.
  destruct (Date_parse_valid a Ha) as [Hla ->], (Date_parse_valid b Hb) as [Hlb ->].
  pose proof (MakeDay_order a b Hla Hlb) as Horder.
  unfold Date_lt, msPerDay.
  destruct (Z.ltb_spec (MakeDay (ymd_year a) (ymd_month a - 1) (ymd_day a) * 86400000)
              (MakeDay (ymd_year b) (ymd_month b - 1) (ymd_day b) * 86400000)) as [Hlt|Hge].
  - split; [discriminate|]. intros H. apply ymd_le_not_lt in H.
    exfalso. apply H, Horder. lia.
  - split; [|reflexivity]. intros _. apply ymd_le_not_lt.
    intros Hlt. apply Horder in Hlt. lia.
Qed.

(** ** Comparison of numbers *)

Lemma SFcompare_antisym (x y : spec_float) :
  SFcompare y x = option_map CompOpp (SFcompare x y).
Proof.
  destruct x as [sx|sx| |sx mx ex], y as [sy|sy| |sy my ey]; cbn;
    try reflexivity;
    try (destruct sx; reflexivity); try (destruct sy; reflexivity);
    try (destruct sx, sy; reflexivity).
  destruct sx, sy; cbn; try reflexivity;
    rewrite (Z.compare_antisym ex ey);
    destruct (ex ?= ey)%Z; cbn; try reflexivity;
    change (Pos.compare_cont Eq) with Pos.compare;
    rewrite (Pos.compare_antisym mx my);
    destruct (mx ?= my)%positive; reflexivity.
Qed.

Lemma Prim2SF_not_nan (x : float) : is_nan x = false -> Prim2SF x <> S754_nan.
Proof.
  unfold is_nan. rewrite FloatAxioms.eqb_spec. unfold SFeqb.
  intros H Hnan. rewrite Hnan in H. cbn in H. discriminate.
Qed.

Lemma SFcompare_defined (x y : spec_float) :
  x <> S754_nan -> y <> S754_nan -> exists c, SFcompare x y = Some c.
Proof. destruct x, y; cbn; intros; try congruence; eauto. Qed.

(** On numbers, [a < b] is false exactly when [b <= a] is true. *)
Lemma float_ltb_false (a b : float) :
  is_nan a = false -> is_nan b = false ->
  ((a <? b)%float = false <-> (b <=? a)%float = true).
Proof.
  intros Ha Hb. rewrite FloatAxioms.ltb_spec, FloatAxioms.leb_spec. unfold SFltb, SFleb.
  rewrite (SFcompare_antisym (Prim2SF a) (Prim2SF b)).
  destruct (SFcompare_defined _ _ (Prim2SF_not_nan _ Ha) (Prim2SF_not_nan _ Hb)) as [c ->].
  destruct c; cbn; intuition congruence.
Qed.

(** ** The date and amount bounds *)

Lemma guard_false {A : Type} (field : option A) (fires : A -> bool) :
  match field with Some x => fires x | None => false end = false
  <-> forall x, field = Some x -> fires x = false.
Proof.
  destruct field as [x|]; split; intros H.
  - intros y [= <-]. exact H.
  - apply H. reflexivity.
  - intros y [=].
  - reflexivity.
Qed.

Lemma rangeFilters_guards (st : FilterState) (e : Expense) :
  rangeFilters st e = true <->
  (forall s, filterStartDate st = Some s ->
     Date_lt (new_Date (date e)) (Date_parse s) = false) /\
  (forall s, filterEndDate st = Some s ->
     Date_gt (new_Date (date e)) (Date_parse s) = false) /\
  (forall b, filterAmountMin st = Some b -> (amount e <? b)%float = false) /\
  (forall b, filterAmountMax st = Some b -> (b <? amount e)%float = false).
Proof.
  rewrite <- !guard_false. unfold rangeFilters.
  repeat match goal with
         | |- context [ if ?g then false else _ ] => destruct g
         end; intuition congruence.
Qed.

Lemma rangeFilters_bounds (st : FilterState) (e : Expense) (day : YMD) :
  calendarDated e day -> wellFormedFilter st ->
  (rangeFilters st e = true <->
   (forall s, filterStartDate st = Some s -> ymd_le s day) /\
   (forall s, filterEndDate st = Some s -> ymd_le day s) /\
   (forall b, filterAmountMin st = Some b -> (b <=? amount e)%float = true) /\
   (forall b, filterAmountMax st = Some b -> (amount e <=? b)%float = true)).
Proof.
  intros (Hdate & Hday & Hamount) (Hstart & Hend & Hmin & Hmax).
  rewrite rangeFilters_guards, Hdate. cbn [new_Date]. unfold Date_gt.
  split; intros (H1 & H2 & H3 & H4); (split; [|split; [|split]]).
  - intros s Hs. apply Date_lt_parse; auto.
  - intros s Hs. apply Date_lt_parse; auto.
  - intros b Hb. apply float_ltb_false; auto.
  - intros b Hb. apply float_ltb_false; auto.
  - intros s Hs. apply Date_lt_parse; auto.
  - intros s Hs. apply Date_lt_parse; auto.
  - intros b Hb. apply float_ltb_false; auto.
  - intros b Hb. apply float_ltb_false; auto.
Qed.

Lemma elem_of_List_filter {A : Type} (f : A -> bool) (l : list A) (x : A) :
  x ∈ List.filter f l <-> x ∈ l /\ f x = true.
Proof. rewrite !list_elem_of_In. apply filter_In. Qed.



Lemma ymd_le_refl (day : YMD) : ymd_le day day.
Proof. unfold ymd_le. lia. Qed.

(** An expense dated on the start date, or on the end date, passes the
    guard of that date. *)
Lemma boundary_dates_pass (day : YMD) :
  validDateText day ->
  Date_lt (Date_parse day) (Date_parse day) = false /\
  Date_gt (Date_parse day) (Date_parse day) = false.
Proof.
  intros Hday. unfold Date_gt.
  split; apply (Date_lt_parse day day Hday Hday), ymd_le_refl.
Qed.


(** No comparison with NaN holds: an expense whose amount is NaN
    passes the amount guards whatever the bounds. *)
Lemma nan_amount_kept :
  ExpenseList.filteredExpenses atLeastSixty [nanExpense] = Normal [nanExpense].
Proof. reflexivity. Qed.

(** The category rule applies before the date and amount guards: the
    travel expense lies within the dates of the filter and is dropped. *)
Lemma other_category_dropped :
  rangeFilters januaryFood travelExpense = true /\
  ExpenseList.filteredExpenses januaryFood [foodExpense; travelExpense]
  = Normal [foodExpense].
Proof. split; vm_compute; reflexivity. Qed.

(** ** Completion of the operations *)

(** C8: on every sequence of expenses, whether or not an expense has a
    description or categories, and on every state of the filter fields,
    the filter of either component completes normally; the category
    options and the total are total functions of their input. *)
Theorem operations_complete (st : FilterState) (expenses : list Expense) :
  (exists cs, ExpenseList.availableCategories expenses = cs) /\
  (exists result total,
     ExpenseList.filteredExpenses st expenses = Normal result /\
     ExpenseList.totalAmount result = total) /\
  (exists result total,
     ExpenseListAnyMatch.filteredExpenses st expenses = Normal result /\
     ExpenseListAnyMatch.totalAmount result = total) /\
  (forall e cat, exists b, includesCategory e cat = Normal b).
Proof.
  split; [eexists; reflexivity|]. split; [|split].
  - do 2 eexists. split; [apply filteredExpenses_normal|reflexivity].
  - do 2 eexists. split; [apply filteredExpenses_anyMatch_normal|reflexivity].
  - intros e cat. eexists. apply includesCategory_normal.
Qed.

(** An expense without categories does not throw when categories are
    selected: the filter drops it. *)
Lemma absent_categories_dropped (e : Expense) (c : string) (cs : list string)
  (st : FilterState) :
  categories e = None -> selectedFilterCategories st = c :: cs ->
  ExpenseList.filterCallback st e = Normal false.
Proof.
  intros He Hst. rewrite filterCallback_normal. unfold allMatch, hasLabel, categoriesOrEmpty.
  rewrite He, Hst. reflexivity.
Qed.

(** ** The initial date range *)

Lemma Day_MakeDate (day time : Z) :
  0 <= time < msPerDay -> Day (MakeDate day time) = day.
Proof.
  unfold Day, MakeDate, msPerDay. intros H.
  symmetry. apply Z.div_unique with (r := time); [left; exact H|lia].
Qed.

Lemma MonthFromDayWithinYear_start (leap m d : Z) :
  0 <= leap <= 1 -> 0 <= m <= 11 ->
  1 <= d <= monthStart leap (m + 1) - monthStart leap m ->
  MonthFromDayWithinYear leap (monthStart leap m + d - 1) = m.
Proof.
  intros Hl Hm.
  assert (H : m = 0 \/ m = 1 \/ m = 2 \/ m = 3 \/ m = 4 \/ m = 5 \/
              m = 6 \/ m = 7 \/ m = 8 \/ m = 9 \/ m = 10 \/ m = 11) by lia.
  repeat (destruct H as [H|H]; [subst m|]); [..|subst m];
    month_table; intros Hd; unfold MonthFromDayWithinYear;
    repeat match goal with
           | |- context [ ?a <? ?b ] => destruct (Z.ltb_spec a b); try lia
           end; reflexivity.
Qed.

(** The calendar fields of an instant on day [MakeDay y m d]. *)
Lemma fields_of_MakeDay (y m d time : Z) :
  0 <= m <= 11 -> 1 <= d <= DaysInMonth y (m + 1) -> 0 <= time < msPerDay ->
  let t := MakeDate (MakeDay y m d) time in
  YearFromTime t = y /\ MonthFromTime t = m /\ DateFromTime t = d.
Proof.
  intros Hm Hd Htime t.
  destruct (MakeDay_within_year y (m + 1) d ltac:(lia) Hd) as [Hday Hwithin].
  replace (m + 1 - 1) with m in * by lia.
  assert (HDay : Day t = MakeDay y m d) by (apply Day_MakeDate; exact Htime).
  assert (Hyear : YearFromTime t = y).
  { unfold YearFromTime. rewrite HDay, Hday. apply YearFromDay_unique.
    rewrite DayFromYear_succ. lia. }
  assert (Hdwy : DayWithinYear t = monthStart (InLeapYear_of y) m + d - 1).
  { unfold DayWithinYear. rewrite Hyear, HDay, Hday. lia. }
  assert (Hmonth : MonthFromTime t = m).
  { unfold MonthFromTime, InLeapYear. rewrite Hyear, Hdwy.
    apply MonthFromDayWithinYear_start; [apply DaysInYear_cases|exact Hm|].
    unfold DaysInMonth in Hd. replace (m + 1 - 1) with m in Hd by lia. exact Hd. }
  split; [exact Hyear|]. split; [exact Hmonth|].
  unfold DateFromTime, InLeapYear. rewrite Hmonth, Hyear, Hdwy. lia.
Qed.

Lemma DayWithinYear_bounds (t : Z) :
  0 <= DayWithinYear t < DaysInYear (YearFromTime t).
Proof.
  unfold DayWithinYear, YearFromTime.
  pose proof (YearFromDay_spec (Day t)) as H. rewrite DayFromYear_succ in H. lia.
Qed.

Lemma MonthFromTime_bounds (t : Z) : 0 <= MonthFromTime t <= 11.
Proof.
  unfold MonthFromTime, MonthFromDayWithinYear.
  repeat match goal with
         | |- context [ ?a <? ?b ] => destruct (Z.ltb_spec a b); try lia
         end.
Qed.

Lemma DaysInMonth_first (y m : Z) : 0 <= m <= 11 -> 1 <= DaysInMonth y (m + 1).
Proof.
  intros Hm. unfold DaysInMonth. replace (m + 1 - 1) with m by lia.
  pose proof (proj2 (DaysInYear_cases y)) as Hl. revert Hl.
  generalize (InLeapYear_of y). intros leap Hl.
  assert (H : m = 0 \/ m = 1 \/ m = 2 \/ m = 3 \/ m = 4 \/ m = 5 \/
              m = 6 \/ m = 7 \/ m = 8 \/ m = 9 \/ m = 10 \/ m = 11) by lia.
  repeat (destruct H as [H|H]; [subst m|]); [..|subst m]; month_table; lia.
Qed.

(** The day number of the first of the month of an instant. *)
Lemma MakeDay_first_le (t : Z) :
  DayFromYear (YearFromTime t) <= MakeDay (YearFromTime t) (MonthFromTime t) 1 <= Day t.
Proof.
  pose proof (MonthFromTime_bounds t) as Hm.
  destruct (MakeDay_within_year (YearFromTime t) (MonthFromTime t + 1) 1 ltac:(lia)
              ltac:(pose proof (DaysInMonth_first (YearFromTime t) _ Hm); lia))
    as [Hday Hwithin].
  replace (MonthFromTime t + 1 - 1) with (MonthFromTime t) in * by lia.
  rewrite Hday. split; [lia|].
  pose proof (DayWithinYear_bounds t) as Hdwy.
  assert (Hstart : monthStart (InLeapYear t) (MonthFromTime t) <= DayWithinYear t).
  { unfold MonthFromTime, MonthFromDayWithinYear.
    repeat match goal with
           | |- context [ ?a <? ?b ] => destruct (Z.ltb_spec a b)
           end; cbv [monthStart]; lia. }
  unfold InLeapYear in Hstart. unfold DayWithinYear in Hstart. lia.
Qed.

(** C9: at noon of 15 March 2024 on a clock five and a half hours
    east of Greenwich, the initial start date is 29 February 2024, the
    day before the first day of the current month: the initial range
    does not start on the first day of the current month. *)
Theorem initialFilterState_east_of_Greenwich :
  localDay 19800000 1710484200000 = mkYMD 2024 3 15 /\
  ExpenseList.initialFilterState (fixedOffset 19800000) 1710484200000
  = Normal {| selectedFilterCategories := [];
              filterStartDate := Some (mkYMD 2024 2 29);
              filterEndDate := Some (mkYMD 2024 3 15);
              filterAmountMin := None;
              filterAmountMax := None |} /\
  ~ startsMonthEndsToday 19800000 1710484200000.
Proof.
  split; [vm_compute; reflexivity|]. split; [vm_compute; reflexivity|].
  unfold startsMonthEndsToday. vm_compute. discriminate.
Qed.

(** Before half past five in the morning on that clock the initial end
    date is the day before the current day. *)
Lemma initialFilterState_early_morning :
  localDay 19800000 1710455400000 = mkYMD 2024 3 15 /\
  ExpenseList.filterEndDate_init 1710455400000 = Normal (mkYMD 2024 3 14) /\
  ~ startsMonthEndsToday 19800000 1710455400000.
Proof.
  split; [vm_compute; reflexivity|]. split; [vm_compute; reflexivity|].
  unfold startsMonthEndsToday. vm_compute. discriminate.
Qed.

(** ** Rounding of sums *)

Lemma pow2_pos (k : Z) : 0 <= k -> 0 < 2 ^ k.
Proof. intros. apply Z.pow_pos_nonneg; lia. Qed.

Lemma roundQuotient_bounds (s u : Z) : 0 <= s -> u / 2 ^ s <= roundQuotient s u <= u / 2 ^ s + 1.
Proof.
  intros Hs. unfold roundQuotient. cbv zeta.
  destruct (2 * (u mod 2 ^ s) ?= 2 ^ s); [destruct (Z.even _)| |]; lia.
Qed.

Lemma roundQuotient_exact (s u : Z) : 0 <= s -> u mod 2 ^ s = 0 -> roundQuotient s u = u / 2 ^ s.
Proof.
  intros Hs Hr. unfold roundQuotient. cbv zeta. rewrite Hr.
  pose proof (pow2_pos s Hs).
  destruct (Z.compare_spec (2 * 0) (2 ^ s)); lia.
Qed.

Lemma roundQuotient_mono (s u1 u2 : Z) : 0 <= s -> u1 <= u2 -> roundQuotient s u1 <= roundQuotient s u2.
Proof.
  intros Hs Hu. pose proof (pow2_pos s Hs) as Hp.
  assert (Hq : u1 / 2 ^ s <= u2 / 2 ^ s) by (apply Z.div_le_mono; lia).
  destruct (Z.eq_dec (u1 / 2 ^ s) (u2 / 2 ^ s)) as [Heq|Hne].
  - assert (Hr : u1 mod 2 ^ s <= u2 mod 2 ^ s).
    { pose proof (Z.div_mod u1 (2 ^ s) ltac:(lia)). pose proof (Z.div_mod u2 (2 ^ s) ltac:(lia)).
      rewrite Heq in *. lia. }
    unfold roundQuotient. cbv zeta. rewrite Heq.
    destruct (Z.compare_spec (2 * (u1 mod 2 ^ s)) (2 ^ s)),
      (Z.compare_spec (2 * (u2 mod 2 ^ s)) (2 ^ s)); destruct (Z.even (u2 / 2 ^ s)); lia.
  - pose proof (roundQuotient_bounds s u1 Hs). pose proof (roundQuotient_bounds s u2 Hs). lia.
Qed.

Lemma mul_compare_r (a b c : Z) : 0 < c -> (a * c ?= b * c) = (a ?= b).
Proof.
  intros Hc. destruct (Z.compare_spec a b), (Z.compare_spec (a * c) (b * c));
    try reflexivity; nia.
Qed.

Lemma roundQuotient_scale (n k M : Z) :
  0 <= n -> 0 <= k -> roundQuotient (n + k) (M * 2 ^ k) = roundQuotient n M.
Proof.
  intros Hn Hk. unfold roundQuotient. cbv zeta.
  pose proof (pow2_pos k Hk) as Hpk. pose proof (pow2_pos n Hn) as Hpn.
  rewrite Z.pow_add_r by lia.
  replace (M * 2 ^ k / (2 ^ n * 2 ^ k)) with (M / 2 ^ n)
    by (symmetry; apply Z.div_mul_cancel_r; lia).
  replace ((M * 2 ^ k) mod (2 ^ n * 2 ^ k)) with ((M mod 2 ^ n) * 2 ^ k)
    by (symmetry; apply Z.mul_mod_distr_r; lia).
  replace (2 * (M mod 2 ^ n * 2 ^ k) ?= 2 ^ n * 2 ^ k) with (2 * (M mod 2 ^ n) ?= 2 ^ n).
  - reflexivity.
  - replace (2 * (M mod 2 ^ n * 2 ^ k)) with (2 * (M mod 2 ^ n) * 2 ^ k) by lia.
    symmetry. apply mul_compare_r. lia.
Qed.

(** Number of binary digits. *)
Lemma digits2_pos_log2 (p : positive) : Zpos (digits2_pos p) = Z.log2 (Zpos p) + 1.
Proof.
  assert (Hsize : forall q, digits2_pos q = Pos.size q).
  { induction q; cbn; congruence. }
  destruct p; cbn; rewrite ?Hsize; lia.
Qed.

Lemma log2_bounds (u : Z) : 0 < u -> 2 ^ Z.log2 u <= u < 2 ^ (Z.log2 u + 1).
Proof. intros H. pose proof (Z.log2_spec u H). unfold Z.succ in *. lia. Qed.

Lemma roundingShift_nonneg (u : Z) : 0 <= roundingShift u.
Proof. unfold roundingShift. lia. Qed.

Lemma roundingShift_mono (u1 u2 : Z) : u1 <= u2 -> roundingShift u1 <= roundingShift u2.
Proof. intros H. unfold roundingShift. pose proof (Z.log2_le_mono u1 u2 H). lia. Qed.

Lemma roundingShift_upper (u : Z) : 0 <= u -> u < 2 ^ (53 + roundingShift u).
Proof.
  intros Hu. destruct (Z.eq_dec u 0) as [->|Hne].
  - apply pow2_pos. pose proof (roundingShift_nonneg 0). lia.
  - pose proof (log2_bounds u ltac:(lia)) as [_ H].
    eapply Z.lt_le_trans; [exact H|].
    apply Z.pow_le_mono_r; [lia|]. unfold roundingShift. lia.
Qed.

Lemma roundingShift_lower (u : Z) : 0 < roundingShift u -> 2 ^ (52 + roundingShift u) <= u.
Proof.
  intros Hs. unfold roundingShift in *.
  assert (Hu : 0 < u).
  { destruct (Z_lt_le_dec 0 u) as [H|H]; [exact H|].
    rewrite (Z.log2_nonpos u H) in Hs. lia. }
  pose proof (log2_bounds u Hu) as [H _].
  replace (52 + Z.max 0 (Z.log2 u + 1 - 53)) with (Z.log2 u) by lia. exact H.
Qed.

Lemma roundUnits_mono (u1 u2 : Z) : 0 <= u1 <= u2 -> roundUnits u1 <= roundUnits u2.
Proof.
  intros [H1 H12]. unfold roundUnits. apply Z.min_le_compat_l.
  pose proof (roundingShift_mono u1 u2 H12) as Hs.
  pose proof (roundingShift_nonneg u1) as Hs1.
  destruct (Z.eq_dec (roundingShift u1) (roundingShift u2)) as [Heq|Hne].
  - rewrite Heq. apply Z.mul_le_mono_nonneg_r; [apply Z.lt_le_incl, pow2_pos; lia|].
    apply roundQuotient_mono; lia.
  - (* strictly larger shift *)
    set (s1 := roundingShift u1) in *. set (s2 := roundingShift u2) in *.
    transitivity (2 ^ (53 + s1)).
    + pose proof (roundingShift_upper u1 H1) as Hup. fold s1 in Hup.
      pose proof (roundQuotient_bounds s1 u1 Hs1) as [_ Hb].
      assert (Hq : u1 / 2 ^ s1 < 2 ^ 53).
      { apply Z.div_lt_upper_bound; [apply pow2_pos; lia|].
        rewrite <- Z.pow_add_r by lia. replace (s1 + 53) with (53 + s1) by lia. exact Hup. }
      rewrite (Z.pow_add_r 2 53 s1) by lia.
      apply Z.mul_le_mono_nonneg_r; [apply Z.lt_le_incl, pow2_pos; lia|]. lia.
    + transitivity (2 ^ (52 + s2)); [apply Z.pow_le_mono_r; lia|].
      pose proof (roundingShift_lower u2 ltac:(fold s2; lia)) as Hlow. fold s2 in Hlow.
      pose proof (roundQuotient_bounds s2 u2 ltac:(lia)) as [Hb _].
      assert (Hq : 2 ^ 52 <= u2 / 2 ^ s2).
      { apply Z.div_le_lower_bound; [apply pow2_pos; lia|].
        rewrite <- Z.pow_add_r by lia. replace (s2 + 52) with (52 + s2) by lia. exact Hlow. }
      rewrite (Z.pow_add_r 2 52 s2) by lia.
      apply Z.mul_le_mono_nonneg_r; [apply Z.lt_le_incl, pow2_pos; lia|]. lia.
Qed.

Lemma roundUnits_exact (m k : Z) :
  0 < m < 2 ^ 53 -> 0 <= k -> m * 2 ^ k < overflowUnits -> roundUnits (m * 2 ^ k) = m * 2 ^ k.
Proof.
  intros Hm Hk Hinf. unfold roundUnits.
  assert (Hs : roundingShift (m * 2 ^ k) <= k).
  { unfold roundingShift. rewrite Z.log2_mul_pow2 by lia.
    assert (Z.log2 m < 53) by (apply Z.log2_lt_pow2; lia). lia. }
  pose proof (roundingShift_nonneg (m * 2 ^ k)) as Hs0.
  set (s := roundingShift (m * 2 ^ k)) in *.
  assert (Hsplit : m * 2 ^ k = m * 2 ^ (k - s) * 2 ^ s).
  { rewrite <- Z.mul_assoc, <- Z.pow_add_r by lia. do 2 f_equal. lia. }
  pose proof (pow2_pos s Hs0) as Hp.
  rewrite roundQuotient_exact by (try lia; rewrite Hsplit; apply Z.mod_mul; lia).
  rewrite Hsplit at 1. rewrite Z.div_mul by lia. rewrite <- Hsplit. lia.
Qed.

Lemma roundUnits_zero : roundUnits 0 = 0.
Proof. reflexivity. Qed.

(** ** The right shift of the specification *)

Lemma iter_pos_nat {A : Type} (f : A -> A) (p : positive) (x : A) :
  SpecFloat.iter_pos f p x = Nat.iter (Pos.to_nat p) f x.
Proof.
  revert x. induction p as [p IH|p IH|]; intros x; cbn [SpecFloat.iter_pos].
  - rewrite !IH.
    replace (Pos.to_nat p~1) with (Pos.to_nat p + (Pos.to_nat p + 1))%nat by lia.
    rewrite !Nat.iter_add. reflexivity.
  - rewrite !IH.
    replace (Pos.to_nat p~0) with (Pos.to_nat p + Pos.to_nat p)%nat by lia.
    rewrite Nat.iter_add. reflexivity.
  - reflexivity.
Qed.

Lemma shr_1_nonneg (m : Z) (r s : bool) :
  0 <= m ->
  shr_1 (Build_shr_record m r s) = Build_shr_record (m / 2) (Z.odd m) (r || s).
Proof.
  intros Hm. destruct m as [|p|p]; [reflexivity| |lia].
  destruct p as [p|p|]; cbn [shr_1].
  - replace (Z.pos p~1 / 2) with (Z.pos p); [reflexivity|].
    apply Z.div_unique with (r := 1); lia.
  - replace (Z.pos p~0 / 2) with (Z.pos p); [reflexivity|].
    apply Z.div_unique with (r := 0); lia.
  - reflexivity.
Qed.

Lemma div_pow_succ (M k : Z) : 0 <= k -> M / 2 ^ k / 2 = M / 2 ^ (k + 1).
Proof.
  intros Hk. pose proof (pow2_pos k Hk).
  rewrite Z.div_div by lia. rewrite Z.pow_add_r by lia. reflexivity.
Qed.

Lemma sticky_step (M k : Z) :
  0 <= k ->
  Z.odd (M / 2 ^ k) || negb (M mod 2 ^ k =? 0) = negb (M mod 2 ^ (k + 1) =? 0).
Proof.
  intros Hk. pose proof (pow2_pos k Hk) as Hp.
  rewrite (Z.pow_add_r 2 k 1) by lia. change (2 ^ 1) with 2.
  rewrite Z.rem_mul_r by lia.
  pose proof (Z.mod_pos_bound M (2 ^ k) Hp) as Hlo.
  rewrite (Zmod_odd (M / 2 ^ k)).
  destruct (Z.odd (M / 2 ^ k)); cbn [orb].
  - symmetry. apply negb_true_iff, Z.eqb_neq. lia.
  - f_equal. rewrite Z.mul_0_r, Z.add_0_r. reflexivity.
Qed.

(** After [k + 1] steps: the quotient, the last shifted-out bit and
    whether a lower bit was set. *)
Lemma shr_iter (k : nat) (M : Z) :
  0 <= M ->
  Nat.iter (S k) shr_1 (Build_shr_record M false false)
  = Build_shr_record (M / 2 ^ (Z.of_nat k + 1))
      (Z.odd (M / 2 ^ Z.of_nat k))
      (negb (M mod 2 ^ Z.of_nat k =? 0)).
Proof.
  intros HM. induction k as [|k IH].
  - cbn [Nat.iter]. rewrite shr_1_nonneg by exact HM.
    cbn [Z.of_nat]. rewrite Z.pow_0_r, Z.div_1_r, Z.mod_1_r. reflexivity.
  - rewrite Nat.iter_succ, IH.
    rewrite shr_1_nonneg by (apply Z.div_pos; [lia|apply pow2_pos; lia]).
    replace (Z.of_nat (S k)) with (Z.of_nat k + 1) by lia.
    rewrite div_pow_succ, sticky_step by lia. reflexivity.
Qed.

Lemma round_flags (M n : Z) :
  0 <= M -> 0 < n ->
  round_nearest_even (M / 2 ^ n)
    (loc_of_shr_record
       (Build_shr_record (M / 2 ^ n) (Z.odd (M / 2 ^ (n - 1)))
          (negb (M mod 2 ^ (n - 1) =? 0))))
  = roundQuotient n M.
Proof.
  intros HM Hn. unfold roundQuotient. cbv zeta.
  pose proof (pow2_pos (n - 1) ltac:(lia)) as Hp.
  assert (Hpow : 2 ^ n = 2 ^ (n - 1) * 2).
  { replace (2 ^ n) with (2 ^ ((n - 1) + 1)) by (f_equal; lia).
    rewrite Z.pow_add_r by lia. reflexivity. }
  assert (Hrem : M mod 2 ^ n
                 = M mod 2 ^ (n - 1)
                   + 2 ^ (n - 1) * (if Z.odd (M / 2 ^ (n - 1)) then 1 else 0)).
  { rewrite Hpow, Z.rem_mul_r by lia. rewrite (Zmod_odd (M / 2 ^ (n - 1))). reflexivity. }
  pose proof (Z.mod_pos_bound M (2 ^ (n - 1)) Hp) as Hlo.
  revert Hrem. generalize (M mod 2 ^ n) as rem. intros rem Hrem.
  destruct (Z.odd (M / 2 ^ (n - 1))); cbn [loc_of_shr_record];
    destruct (Z.eqb_spec (M mod 2 ^ (n - 1)) 0) as [Hz|Hz];
    cbn [negb round_nearest_even loc_of_shr_record];
    destruct (Z.compare_spec (2 * rem) (2 ^ n)); try lia; reflexivity.
Qed.

Lemma shr_spec (M e : Z) (p : positive) :
  0 <= M ->
  shr (Build_shr_record M false false) e (Zpos p)
  = (Build_shr_record (M / 2 ^ Zpos p) (Z.odd (M / 2 ^ (Zpos p - 1)))
       (negb (M mod 2 ^ (Zpos p - 1) =? 0)),
     e + Zpos p).
Proof.
  intros HM. unfold shr. f_equal. rewrite iter_pos_nat.
  destruct (Pos2Nat.is_succ p) as [k Hk]. rewrite Hk, shr_iter by exact HM.
  assert (Hz : Z.of_nat k = Zpos p - 1).
  { pose proof (positive_nat_Z p) as Hp. rewrite Hk in Hp. lia. }
  rewrite Hz. replace (Z.pos p - 1 + 1) with (Z.pos p) by lia. reflexivity.
Qed.

(** ** Non-negative numbers in units of 2^-1074 *)

Lemma fexp64 (x : Z) : fexp prec emax x = Z.max (x - 53) (-1074).
Proof. reflexivity. Qed.

Lemma digits_bounds (p : positive) :
  2 ^ (Zpos (digits2_pos p) - 1) <= Zpos p < 2 ^ Zpos (digits2_pos p).
Proof.
  rewrite digits2_pos_log2. replace (Z.log2 (Z.pos p) + 1 - 1) with (Z.log2 (Z.pos p)) by lia.
  apply log2_bounds. lia.
Qed.

Lemma digits_unique (p : positive) (d : Z) :
  2 ^ (d - 1) <= Zpos p < 2 ^ d -> 0 < d -> Zpos (digits2_pos p) = d.
Proof.
  intros H Hd. rewrite digits2_pos_log2.
  rewrite (Z.log2_unique (Zpos p) (d - 1)); [lia|lia|].
  replace (Z.succ (d - 1)) with d by lia. exact H.
Qed.

Lemma finite_below_overflowUnits (m e : Z) :
  0 < m < 2 ^ 53 -> -1074 <= e <= 971 -> m * 2 ^ (e + 1074) < overflowUnits.
Proof.
  intros Hm He. unfold overflowUnits.
  replace 2098 with (53 + 2045) by lia. rewrite (Z.pow_add_r 2 53 2045) by lia.
  assert (2 ^ (e + 1074) <= 2 ^ 2045) by (apply Z.pow_le_mono_r; lia).
  pose proof (pow2_pos (e + 1074) ltac:(lia)).
  apply Z.lt_le_trans with (2 ^ 53 * 2 ^ (e + 1074)).
  - apply Z.mul_lt_mono_pos_r; lia.
  - apply Z.mul_le_mono_nonneg_l; lia.
Qed.

Lemma binary_round_aux_exact (M : positive) (e : Z) :
  fexp prec emax (Zpos (digits2_pos M) + e) = e -> e <= 971 ->
  binary_round_aux prec emax false (Zpos M) e loc_Exact = S754_finite false M e.
Proof.
  intros Ht He. unfold binary_round_aux, shr_fexp.
  cbn [Zdigits2 shr_record_of_loc]. rewrite Ht, Z.sub_diag. cbn [shr shr_m loc_of_shr_record round_nearest_even].
  cbn [Zdigits2]. rewrite Ht, Z.sub_diag. cbn [shr shr_m].
  replace (e <=? emax - prec) with true; [reflexivity|].
  symmetry. apply Z.leb_le. unfold emax, prec. lia.
Qed.

Lemma binary_round_aux_renormalise (mx ex : Z) :
  binary_round_aux prec emax false mx ex loc_Exact
  = let '(mrs', e') := shr_fexp prec emax mx ex loc_Exact in
    renormalise (round_nearest_even (shr_m mrs') (loc_of_shr_record mrs')) e'.
Proof. unfold binary_round_aux, renormalise. destruct (shr_fexp prec emax mx ex loc_Exact). reflexivity. Qed.

Lemma above_overflowUnits (m t : Z) :
  2 ^ 52 <= m -> 971 < t -> overflowUnits <= m * 2 ^ (t + 1074).
Proof.
  intros Hm Ht. unfold overflowUnits. replace 2098 with (52 + 2046) by lia.
  rewrite (Z.pow_add_r 2 52 2046) by lia.
  assert (2 ^ 2046 <= 2 ^ (t + 1074)) by (apply Z.pow_le_mono_r; lia).
  apply Z.mul_le_mono_nonneg; lia.
Qed.

Lemma renormalise_spec (m2 t : Z) :
  2 ^ 52 <= m2 <= 2 ^ 53 -> -1074 < t ->
  isNonNegative (renormalise m2 t) = true /\ unitsOf (renormalise m2 t) = Z.min overflowUnits (m2 * 2 ^ (t + 1074)).
Proof.
  intros Hm Ht. unfold renormalise, shr_fexp.
  destruct m2 as [|q|q]; try lia. cbn [Zdigits2 shr_record_of_loc]. rewrite fexp64.
  destruct (Z.eq_dec (Zpos q) (2 ^ 53)) as [Heq|Hne].
  - assert (Hd : Zpos (digits2_pos q) = 54).
    { apply digits_unique; [|lia]. rewrite Heq. cbn. lia. }
    rewrite Hd. replace (Z.max (54 + t - 53) (-1074) - t) with 1 by lia.
    rewrite shr_spec by lia. cbn [shr_m].
    rewrite Heq. change (2 ^ 53 / 2 ^ 1) with (Zpos (2 ^ 52)).
    assert (Hval : 2 ^ 53 * 2 ^ (t + 1074) = Zpos (2 ^ 52) * 2 ^ (t + 1 + 1074)).
    { replace (t + 1 + 1074) with (1 + (t + 1074)) by lia.
      rewrite (Z.pow_add_r 2 1 (t + 1074)) by lia. lia. }
    rewrite Hval.
    destruct (Z.leb_spec (t + 1) (emax - prec)) as [Hle|Hgt]; unfold emax, prec in *.
    + split; [reflexivity|]. cbn [unitsOf].
      pose proof (finite_below_overflowUnits (Zpos (2 ^ 52)) (t + 1) ltac:(cbn; lia) ltac:(lia)). lia.
    + split; [reflexivity|]. cbn [unitsOf].
      pose proof (above_overflowUnits (Zpos (2 ^ 52)) (t + 1) ltac:(cbn; lia) ltac:(lia)). lia.
  - assert (Hd : Zpos (digits2_pos q) = 53).
    { apply digits_unique; [|lia]. change (53 - 1) with 52. lia. }
    rewrite Hd. replace (Z.max (53 + t - 53) (-1074) - t) with 0 by lia.
    cbn [shr shr_m].
    destruct (Z.leb_spec t (emax - prec)) as [Hle|Hgt]; unfold emax, prec in *.
    + split; [reflexivity|]. cbn [unitsOf].
      pose proof (finite_below_overflowUnits (Zpos q) t ltac:(lia) ltac:(lia)). lia.
    + split; [reflexivity|]. cbn [unitsOf].
      pose proof (above_overflowUnits (Zpos q) t ltac:(lia) ltac:(lia)). lia.
Qed.

Lemma binary_round_aux_shift (M : positive) (e : Z) :
  53 < Zpos (digits2_pos M) -> -1074 <= e ->
  isNonNegative (binary_round_aux prec emax false (Zpos M) e loc_Exact) = true /\
  unitsOf (binary_round_aux prec emax false (Zpos M) e loc_Exact) = roundUnits (Zpos M * 2 ^ (e + 1074)).
Proof.
  intros Hd He. rewrite binary_round_aux_renormalise. unfold shr_fexp.
  cbn [Zdigits2 shr_record_of_loc]. rewrite fexp64.
  pose proof (digits_bounds M) as HM.
  set (d := Zpos (digits2_pos M)) in *.
  replace (Z.max (d + e - 53) (-1074) - e) with (d - 53) by lia.
  destruct (d - 53) as [|p|p] eqn:Hn; try lia.
  rewrite shr_spec by lia. cbn [shr_m].
  rewrite round_flags by lia.
  assert (Hq : 2 ^ 52 <= Zpos M / 2 ^ Zpos p < 2 ^ 53).
  { replace (d - 1) with (52 + Zpos p) in HM by lia.
    replace d with (53 + Zpos p) in HM by lia.
    rewrite !Z.pow_add_r in HM by lia.
    pose proof (pow2_pos (Zpos p) ltac:(lia)).
    split; [apply Z.div_le_lower_bound; lia|apply Z.div_lt_upper_bound; lia]. }
  pose proof (roundQuotient_bounds (Zpos p) (Zpos M) ltac:(lia)) as Hb.
  destruct (renormalise_spec (roundQuotient (Zpos p) (Zpos M)) (e + Zpos p) ltac:(lia) ltac:(lia))
    as [Hnn HU].
  split; [exact Hnn|]. rewrite HU. unfold roundUnits.
  assert (Hs : roundingShift (Zpos M * 2 ^ (e + 1074)) = Zpos p + (e + 1074)).
  { unfold roundingShift. rewrite Z.log2_mul_pow2 by lia.
    pose proof (digits2_pos_log2 M) as Hl. fold d in Hl. lia. }
  rewrite Hs, roundQuotient_scale by lia.
  replace (e + Zpos p + 1074) with (Zpos p + (e + 1074)) by lia. reflexivity.
Qed.

Lemma shl_iter (M dd : positive) : Zpos (Pos.iter xO M dd) = Zpos M * 2 ^ Zpos dd.
Proof.
  induction dd as [|dd IH] using Pos.peano_ind.
  - cbn. lia.
  - rewrite Pos.iter_succ, Pos2Z.inj_xO, IH, Pos2Z.inj_succ, Z.pow_succ_r by lia. lia.
Qed.

Lemma digits_shl (M dd : positive) :
  Zpos (digits2_pos (Pos.iter xO M dd)) = Zpos (digits2_pos M) + Zpos dd.
Proof.
  pose proof (digits_bounds M) as HM.
  apply digits_unique; [|lia]. rewrite shl_iter.
  replace (Zpos (digits2_pos M) + Zpos dd - 1) with (Zpos (digits2_pos M) - 1 + Zpos dd) by lia.
  rewrite !Z.pow_add_r by lia.
  pose proof (pow2_pos (Zpos dd) ltac:(lia)). nia.
Qed.

(** Rounding a positive integer mantissa: the result is the rounding
    of its value in units. *)
Lemma binary_round_units (M : positive) (e : Z) :
  -1074 <= e <= 971 ->
  isNonNegative (binary_round prec emax false M e) = true /\
  unitsOf (binary_round prec emax false M e) = roundUnits (Zpos M * 2 ^ (e + 1074)).
Proof.
  intros He. unfold binary_round, shl_align. rewrite fexp64.
  pose proof (digits_bounds M) as HM.
  set (d := Zpos (digits2_pos M)) in *.
  set (t := Z.max (d + e - 53) (-1074)).
  destruct (t - e) as [|p|dd] eqn:Hte.
  - (* already at the target exponent *)
    rewrite binary_round_aux_exact by (try rewrite fexp64; fold d; lia).
    split; [reflexivity|]. cbn [unitsOf]. symmetry. apply roundUnits_exact; [|lia|].
    + split; [lia|]. eapply Z.lt_le_trans; [apply HM|]. apply Z.pow_le_mono_r; lia.
    + apply finite_below_overflowUnits; [|lia].
      split; [lia|]. eapply Z.lt_le_trans; [apply HM|]. apply Z.pow_le_mono_r; lia.
  - (* too many digits: shift right and round *)
    apply binary_round_aux_shift; fold d; lia.
  - (* room left: shift left, exactly *)
    assert (Hdd : Zpos dd = e - t) by lia.
    assert (Hdig : Zpos (digits2_pos (Pos.iter xO M dd)) = d + Zpos dd) by apply digits_shl.
    rewrite binary_round_aux_exact by (try rewrite fexp64; rewrite ?Hdig; lia).
    assert (Hval : Zpos (Pos.iter xO M dd) * 2 ^ (t + 1074) = Zpos M * 2 ^ (e + 1074)).
    { rewrite shl_iter, <- Z.mul_assoc, <- Z.pow_add_r by lia. do 2 f_equal. lia. }
    split; [reflexivity|]. cbn [unitsOf]. rewrite <- Hval. symmetry.
    pose proof (digits_bounds (Pos.iter xO M dd)) as HM'. rewrite Hdig in HM'.
    assert (Hlt : Zpos (Pos.iter xO M dd) < 2 ^ 53).
    { eapply Z.lt_le_trans; [apply HM'|]. apply Z.pow_le_mono_r; lia. }
    apply roundUnits_exact; [lia|lia|]. apply finite_below_overflowUnits; lia.
Qed.

Lemma roundUnits_top (u : Z) : overflowUnits <= u -> roundUnits u = overflowUnits.
Proof.
  intros Hu. unfold roundUnits. apply Z.min_l.
  pose proof (roundingShift_nonneg u) as Hs0.
  set (s := roundingShift u) in *.
  pose proof (pow2_pos s Hs0) as Hp.
  pose proof (roundQuotient_bounds s u Hs0) as [Hb _].
  transitivity (u / 2 ^ s * 2 ^ s); [|apply Z.mul_le_mono_nonneg_r; lia].
  destruct (Z_le_gt_dec s 2098) as [Hle|Hgt].
  - unfold overflowUnits in *. replace 2098 with (2098 - s + s) at 1 by lia.
    rewrite Z.pow_add_r by lia.
    apply Z.mul_le_mono_nonneg_r; [lia|].
    apply Z.div_le_lower_bound; [lia|].
    rewrite Z.mul_comm, <- Z.pow_add_r by lia.
    replace (2098 - s + s) with 2098 by lia. exact Hu.
  - pose proof (roundingShift_lower u ltac:(fold s; lia)) as Hlow. fold s in Hlow.
    transitivity (2 ^ 52 * 2 ^ s).
    + unfold overflowUnits. rewrite <- Z.pow_add_r by lia. apply Z.pow_le_mono_r; lia.
    + apply Z.mul_le_mono_nonneg_r; [lia|].
      apply Z.div_le_lower_bound; [lia|].
      rewrite Z.mul_comm, <- Z.pow_add_r by lia. exact Hlow.
Qed.

Lemma valid_finite (s : bool) (m : positive) (e : Z) :
  valid_binary (S754_finite s m e) = true ->
  -1074 <= e <= 971 /\ Zpos m < 2 ^ 53 /\ (e = -1074 \/ 2 ^ 52 <= Zpos m).
Proof.
  cbn [SpecFloat.valid_binary]. unfold bounded, canonical_mantissa.
  rewrite andb_true_iff, Z.eqb_eq, Z.leb_le, fexp64. unfold emax, prec.
  intros [Hc He]. pose proof (digits_bounds m) as Hm.
  set (d := Zpos (digits2_pos m)) in *.
  split; [lia|]. split.
  - eapply Z.lt_le_trans; [apply Hm|]. apply Z.pow_le_mono_r; lia.
  - destruct (Z.eq_dec e (-1074)) as [->|Hne]; [left; reflexivity|right].
    replace 52 with (d - 1) by lia. apply Hm.
Qed.

Lemma unitsOf_finite (s : bool) (m : positive) (e : Z) :
  valid_binary (S754_finite s m e) = true ->
  roundUnits (Zpos m * 2 ^ (e + 1074)) = Zpos m * 2 ^ (e + 1074) /\
  0 < Zpos m * 2 ^ (e + 1074) < overflowUnits.
Proof.
  intros Hv. destruct (valid_finite s m e Hv) as (He & Hm & _).
  pose proof (finite_below_overflowUnits (Zpos m) e ltac:(lia) He) as Hinf.
  pose proof (pow2_pos (e + 1074) ltac:(lia)).
  split; [apply roundUnits_exact; lia|]. split; [lia|exact Hinf].
Qed.

Lemma unitsOf_nonneg (x : spec_float) : 0 <= unitsOf x.
Proof.
  destruct x as [s|s| |s m e]; cbn [unitsOf].
  - lia.
  - apply Z.lt_le_incl, pow2_pos. lia.
  - lia.
  - apply Z.mul_nonneg_nonneg; [lia|]. apply Z.pow_nonneg. lia.
Qed.

Lemma shl_align_value (m : positive) (e ez : Z) :
  ez <= e ->
  Zpos (fst (shl_align m e ez)) * 2 ^ (ez + 1074) = Zpos m * 2 ^ (e + 1074) \/ ez + 1074 < 0.
Proof.
  intros Hle. destruct (Z_lt_le_dec (ez + 1074) 0) as [Hneg|Hpos]; [right; exact Hneg|left].
  unfold shl_align. destruct (ez - e) as [|p|dd] eqn:Hd; cbn [fst].
  - replace ez with e by lia. reflexivity.
  - lia.
  - rewrite shl_iter, <- Z.mul_assoc, <- Z.pow_add_r by lia. do 2 f_equal. lia.
Qed.

(** Addition of non-negative numbers: the rounded sum of the units. *)
Lemma SFadd_units (x y : spec_float) :
  valid_binary x = true -> valid_binary y = true ->
  isNonNegative x = true -> isNonNegative y = true ->
  isNonNegative (SF64add x y) = true /\ unitsOf (SF64add x y) = roundUnits (unitsOf x + unitsOf y).
Proof.
  intros Hvx Hvy Hx Hy. unfold SF64add.
  destruct x as [sx|sx| |sx mx ex], y as [sy|sy| |sy my ey]; cbn [isNonNegative] in Hx, Hy;
    try discriminate;
    try (apply negb_true_iff in Hx; subst sx);
    try (apply negb_true_iff in Hy; subst sy).
  - (* zero, zero *)
    split; [destruct sx, sy; reflexivity|]. destruct sx, sy; reflexivity.
  - (* zero, infinity *)
    split; [reflexivity|]. cbn [SFadd unitsOf]. rewrite roundUnits_top; [reflexivity|lia].
  - (* zero, finite *)
    split; [reflexivity|]. cbn [SFadd unitsOf]. rewrite Z.add_0_l.
    symmetry. apply (unitsOf_finite false my ey Hvy).
  - (* infinity, zero *)
    split; [reflexivity|]. cbn [SFadd unitsOf]. rewrite roundUnits_top; [reflexivity|lia].
  - (* infinity, infinity *)
    split; [reflexivity|]. cbn [SFadd unitsOf]. rewrite roundUnits_top; [reflexivity|].
    pose proof (unitsOf_nonneg (S754_infinity false)). cbn [unitsOf] in *. lia.
  - (* infinity, finite *)
    split; [reflexivity|]. cbn [SFadd unitsOf]. rewrite roundUnits_top; [reflexivity|].
    pose proof (unitsOf_nonneg (S754_finite false my ey)). cbn [unitsOf] in *. lia.
  - (* finite, zero *)
    split; [reflexivity|]. cbn [SFadd unitsOf]. rewrite Z.add_0_r.
    symmetry. apply (unitsOf_finite false mx ex Hvx).
  - (* finite, infinity *)
    split; [reflexivity|]. cbn [SFadd unitsOf]. rewrite roundUnits_top; [reflexivity|].
    pose proof (unitsOf_nonneg (S754_finite false mx ex)). cbn [unitsOf] in *. lia.
  - (* finite, finite *)
    destruct (valid_finite _ _ _ Hvx) as (Hex & _ & _).
    destruct (valid_finite _ _ _ Hvy) as (Hey & _ & _).
    cbn [SFadd cond_Zopp unitsOf]. cbv zeta.
    destruct (shl_align_value mx ex (Z.min ex ey) ltac:(lia)) as [Hax|Hax]; [|lia].
    destruct (shl_align_value my ey (Z.min ex ey) ltac:(lia)) as [Hay|Hay]; [|lia].
    rewrite <- Hax, <- Hay, <- Z.mul_add_distr_r.
    cbn [Z.add binary_normalize].
    apply binary_round_units. lia.
Qed.

(** ** The order of non-negative numbers *)

Lemma unitsOf_lt_exponent (s1 s2 : bool) (m1 m2 : positive) (e1 e2 : Z) :
  valid_binary (S754_finite s1 m1 e1) = true ->
  valid_binary (S754_finite s2 m2 e2) = true ->
  e1 < e2 -> Zpos m1 * 2 ^ (e1 + 1074) < Zpos m2 * 2 ^ (e2 + 1074).
Proof.
  intros H1 H2 He.
  destruct (valid_finite _ _ _ H1) as (He1 & Hm1 & _).
  destruct (valid_finite _ _ _ H2) as (He2 & _ & [Hmin|Hm2]); [lia|].
  pose proof (pow2_pos (e1 + 1074) ltac:(lia)) as Hp1.
  apply Z.lt_le_trans with (2 ^ 53 * 2 ^ (e1 + 1074)).
  - apply Z.mul_lt_mono_pos_r; lia.
  - apply Z.le_trans with (2 ^ 52 * 2 ^ (e2 + 1074)).
    + replace (2 ^ 53) with (2 ^ 52 * 2 ^ 1) by reflexivity.
      rewrite <- Z.mul_assoc, <- (Z.pow_add_r 2 1) by lia.
      apply Z.mul_le_mono_nonneg_l; [lia|]. apply Z.pow_le_mono_r; lia.
    + apply Z.mul_le_mono_nonneg_r; [|lia]. apply Z.pow_nonneg. lia.
Qed.

Lemma SFcompare_units (x y : spec_float) :
  valid_binary x = true -> valid_binary y = true ->
  isNonNegative x = true -> isNonNegative y = true ->
  SFcompare x y = Some (unitsOf x ?= unitsOf y).
Proof.
  intros Hvx Hvy Hx Hy.
  destruct x as [sx|sx| |sx mx ex], y as [sy|sy| |sy my ey]; cbn [isNonNegative] in Hx, Hy;
    try discriminate;
    try (apply negb_true_iff in Hx; subst sx);
    try (apply negb_true_iff in Hy; subst sy);
    cbn [SFcompare unitsOf].
  - reflexivity.
  - apply (f_equal Some). symmetry. apply Z.compare_lt_iff. apply pow2_pos. lia.
  - apply (f_equal Some). symmetry. apply Z.compare_lt_iff. apply (unitsOf_finite false my ey Hvy).
  - apply (f_equal Some). symmetry. apply Z.compare_gt_iff. apply pow2_pos. lia.
  - rewrite Z.compare_refl. reflexivity.
  - apply (f_equal Some). symmetry. apply Z.compare_gt_iff. apply (unitsOf_finite false my ey Hvy).
  - apply (f_equal Some). symmetry. apply Z.compare_gt_iff. apply (unitsOf_finite false mx ex Hvx).
  - apply (f_equal Some). symmetry. apply Z.compare_lt_iff. apply (unitsOf_finite false mx ex Hvx).
  - apply (f_equal Some). destruct (Z.compare_spec ex ey) as [Heq|Hlt|Hgt].
    + subst ey. change (Pos.compare_cont Eq mx my) with (Zpos mx ?= Zpos my).
      destruct (valid_finite _ _ _ Hvx) as (Hex & _ & _).
      symmetry. apply mul_compare_r. apply pow2_pos. lia.
    + symmetry. apply Z.compare_lt_iff. eapply unitsOf_lt_exponent; eauto.
    + symmetry. apply Z.compare_gt_iff. eapply unitsOf_lt_exponent; eauto.
Qed.

Lemma SFleb_units (x y : spec_float) :
  valid_binary x = true -> valid_binary y = true ->
  isNonNegative x = true -> isNonNegative y = true ->
  SFleb x y = (unitsOf x <=? unitsOf y).
Proof.
  intros Hvx Hvy Hx Hy. unfold SFleb. rewrite (SFcompare_units x y Hvx Hvy Hx Hy).
  unfold Z.leb. destruct (unitsOf x ?= unitsOf y); reflexivity.
Qed.

(** ** Numbers of the program *)

Lemma float_nonneg (x : float) :
  (0 <=? x)%float = true -> isNonNegative (Prim2SF x) = true.
Proof.
  rewrite FloatAxioms.leb_spec. change (Prim2SF 0) with (S754_zero false).
  unfold SFleb. destruct (Prim2SF x) as [s|s| |s m e]; cbn; try reflexivity;
    try discriminate; destruct s; cbn; congruence.
Qed.

Lemma float_add_units (a b : float) :
  (0 <=? a)%float = true -> (0 <=? b)%float = true ->
  (0 <=? a + b)%float = true /\
  unitsOf (Prim2SF (a + b)) = roundUnits (unitsOf (Prim2SF a) + unitsOf (Prim2SF b)).
Proof.
  intros Ha Hb.
  destruct (SFadd_units (Prim2SF a) (Prim2SF b) (Prim2SF_valid a) (Prim2SF_valid b)
              (float_nonneg a Ha) (float_nonneg b Hb)) as [Hnn HU].
  rewrite <- add_spec in Hnn, HU. split; [|exact HU].
  rewrite FloatAxioms.leb_spec. change (Prim2SF 0) with (S754_zero false).
  rewrite SFleb_units; [|reflexivity|apply Prim2SF_valid|reflexivity|exact Hnn].
  apply Z.leb_le. apply unitsOf_nonneg.
Qed.

Lemma float_leb_units (a b : float) :
  (0 <=? a)%float = true -> (0 <=? b)%float = true ->
  (a <=? b)%float = (unitsOf (Prim2SF a) <=? unitsOf (Prim2SF b)).
Proof.
  intros Ha Hb. rewrite FloatAxioms.leb_spec.
  apply SFleb_units; auto using Prim2SF_valid, float_nonneg.
Qed.

(** Adding non-negative numbers left to right: the sum over a
    selection never exceeds the sum over the whole list. *)
Lemma fold_add_selection {A : Type} (amountOf : A -> float) (keep : A -> bool)
  (l : list A) (s' s : float) :
  Forall (fun x => (0 <=? amountOf x)%float = true) l ->
  (0 <=? s')%float = true -> (0 <=? s)%float = true -> (s' <=? s)%float = true ->
  (fold_left (fun sum x => sum + amountOf x) (List.filter keep l) s'
   <=? fold_left (fun sum x => sum + amountOf x) l s)%float = true.
Proof.
  intros Hl. revert s' s. induction Hl as [|x l Hx Hl IH]; intros s' s Hs' Hs Hle.
  - exact Hle.
  - destruct (float_add_units s (amountOf x) Hs Hx) as [Hsx HUsx].
    assert (Hmono : unitsOf (Prim2SF s) <= unitsOf (Prim2SF (s + amountOf x))).
    { rewrite HUsx. pose proof (unitsOf_nonneg (Prim2SF (amountOf x))) as Hxpos.
      pose proof (unitsOf_nonneg (Prim2SF s)) as Hspos.
      destruct (Prim2SF s) as [z|z| |z m e] eqn:Hps.
      - cbn [unitsOf]. transitivity (roundUnits 0); [rewrite roundUnits_zero; lia|].
        apply roundUnits_mono. lia.
      - cbn [unitsOf] in *. rewrite roundUnits_top; lia.
      - cbn [unitsOf]. transitivity (roundUnits 0); [rewrite roundUnits_zero; lia|].
        apply roundUnits_mono. lia.
      - pose proof (Prim2SF_valid s) as Hv. rewrite Hps in Hv.
        destruct (unitsOf_finite z m e Hv) as [Hex Hpos]. cbn [unitsOf] in *.
        rewrite <- Hex at 1. apply roundUnits_mono. lia. }
    rewrite (float_leb_units s' s Hs' Hs) in Hle. apply Z.leb_le in Hle.
    cbn [List.filter]. destruct (keep x); cbn [fold_left].
    + destruct (float_add_units s' (amountOf x) Hs' Hx) as [Hs'x HUs'x].
      apply IH; auto.
      rewrite (float_leb_units _ _ Hs'x Hsx). apply Z.leb_le.
      rewrite HUs'x, HUsx. apply roundUnits_mono.
      pose proof (unitsOf_nonneg (Prim2SF s')). pose proof (unitsOf_nonneg (Prim2SF (amountOf x))). lia.
    + apply IH; auto.
      rewrite (float_leb_units _ _ Hs' Hsx). apply Z.leb_le. lia.
Qed.


(** C7: when every amount of the input is non-negative, the total of
    the filtered expenses is less than or equal to the total of the
    input, as numbers of the program compare. *)
Theorem totalAmount_filtered_le (st : FilterState) (expenses : list Expense) :
  (forall e, e ∈ expenses -> (0 <=? amount e)%float = true) ->
  exists result,
    ExpenseList.filteredExpenses st expenses = Normal result /\
    (ExpenseList.totalAmount result <=? ExpenseList.totalAmount expenses)%float = true.
Proof.
  intros Hpos. eexists. split; [apply filteredExpenses_normal|].
  unfold ExpenseList.totalAmount, Array_reduce.
  apply fold_add_selection; try reflexivity.
  apply Forall_forall. exact Hpos.
Qed.

Lemma totalAmount_filtered_le_witness :
  (forall e, e ∈ [foodExpense; travelExpense] -> (0 <=? amount e)%float = true) /\
  exists result,
    ExpenseList.filteredExpenses januaryFood [foodExpense; travelExpense] = Normal result /\
    (ExpenseList.totalAmount result
     <=? ExpenseList.totalAmount [foodExpense; travelExpense])%float = true.
Proof.
  assert (Hpos : forall e, e ∈ [foodExpense; travelExpense] ->
                           (0 <=? amount e)%float = true).
  { intros e He. apply elem_of_cons in He as [->|He]; [reflexivity|].
    apply list_elem_of_singleton in He as ->. reflexivity. }
  split; [exact Hpos|].
  apply (totalAmount_filtered_le januaryFood [foodExpense; travelExpense] Hpos).
Defined.

(** ** The total *)

(** C6, as claimed, fails: the total of 0.1 and 0.2 is the binary64
    number 0.30000000000000004, which is neither their arithmetic sum
    nor the number nearest to 0.3; and adding 1 to ten to the sixteenth
    leaves the total unchanged, a whole unit short of the sum. *)
Lemma totalAmount_not_exact :
  ~ totalIsExact [tenthExpense; fifthExpense] /\
  ~ totalIsExact [largeExpense; unitExpense] /\
  ExpenseList.totalAmount [tenthExpense; fifthExpense] = 0x1.3333333333334p-2%float /\
  (0x1.3333333333334p-2 =? 0x1.3333333333333p-2)%float = false /\
  ExpenseList.totalAmount [largeExpense; unitExpense] = amount largeExpense.
Proof.
  split; [|split; [|repeat split]].
  - unfold totalIsExact. vm_compute. discriminate.
  - unfold totalIsExact. vm_compute. discriminate.
Qed.

(** The total of non-negative amounts is non-negative. *)
Lemma totalAmount_nonneg (expenses : list Expense) :
  (forall e, e ∈ expenses -> (0 <=? amount e)%float = true) ->
  (0 <=? ExpenseList.totalAmount expenses)%float = true.
Proof.
  induction expenses as [|e expenses IH] using rev_ind; intros Hpos; [reflexivity|].
  unfold ExpenseList.totalAmount, Array_reduce in *. rewrite fold_left_app. cbn [fold_left].
  apply float_add_units.
  - apply IH. intros x Hx. apply Hpos, elem_of_app. left. exact Hx.
  - apply Hpos, elem_of_app. right. apply list_elem_of_singleton. reflexivity.
Qed.

(** C6, amended: the total is the left-to-right sum of the amounts in
    binary64 arithmetic, starting from zero; the total of no expense is
    zero; on non-negative amounts each addition yields the number
    nearest to the exact sum of the running total and the next amount
    (ties to even, infinity on overflow); both copies of the component
    compute the same total. *)
Theorem totalAmount_left_to_right :
  ExpenseList.totalAmount [] = 0%float /\
  (forall (expenses : list Expense) (e : Expense),
     ExpenseList.totalAmount (expenses ++ [e])
     = (ExpenseList.totalAmount expenses + amount e)%float) /\
  (forall (expenses : list Expense) (e : Expense),
     (forall x, x ∈ expenses ++ [e] -> (0 <=? amount x)%float = true) ->
     unitsOf (Prim2SF (ExpenseList.totalAmount (expenses ++ [e])))
     = roundUnits (unitsOf (Prim2SF (ExpenseList.totalAmount expenses))
                   + unitsOf (Prim2SF (amount e)))) /\
  (forall (expenses : list Expense),
     ExpenseListAnyMatch.totalAmount expenses = ExpenseList.totalAmount expenses).
Proof.
  assert (Hsnoc : forall (expenses : list Expense) (e : Expense),
             ExpenseList.totalAmount (expenses ++ [e])
             = (ExpenseList.totalAmount expenses + amount e)%float).
  { intros expenses e. unfold ExpenseList.totalAmount, Array_reduce.
    rewrite fold_left_app. reflexivity. }
  split; [reflexivity|]. split; [exact Hsnoc|]. split; [|reflexivity].
  intros expenses e Hpos. rewrite Hsnoc.
  apply float_add_units.
  - apply totalAmount_nonneg. intros x Hx. apply Hpos, elem_of_app. left. exact Hx.
  - apply Hpos, elem_of_app. right. apply list_elem_of_singleton. reflexivity.
Qed.

Lemma totalAmount_left_to_right_witness :
  (forall x, x ∈ [tenthExpense] ++ [fifthExpense] -> (0 <=? amount x)%float = true) /\
  unitsOf (Prim2SF (ExpenseList.totalAmount ([tenthExpense] ++ [fifthExpense])))
  = roundUnits (unitsOf (Prim2SF (ExpenseList.totalAmount [tenthExpense]))
                + unitsOf (Prim2SF (amount fifthExpense))).
Proof.
  assert (Hpos : forall x, x ∈ [tenthExpense] ++ [fifthExpense] ->
                           (0 <=? amount x)%float = true).
  { intros x Hx. apply elem_of_cons in Hx as [->|Hx]; [reflexivity|].
    apply list_elem_of_singleton in Hx as ->. reflexivity. }
  split; [exact Hpos|].
  apply (proj1 (proj2 (proj2 totalAmount_left_to_right)) [tenthExpense] fifthExpense Hpos).
Defined.

(** ** The filter and the active-filter flag *)

Lemma Normal_inj {A : Type} (a b : A) : Normal a = Normal b -> a = b.
Proof. intros H. injection H as H. exact H. Qed.

Lemma filter_implies_sublist {A : Type} (f g : A -> bool) (l : list A) :
  (forall x, f x = true -> g x = true) -> List.filter f l `sublist_of` List.filter g l.
Proof.
  intros Hfg. induction l as [|x l IH]; cbn; [constructor|].
  destruct (f x) eqn:Hf.
  - rewrite (Hfg x Hf). constructor. exact IH.
  - destruct (g x); [constructor|]; exact IH.
Qed.

Lemma filter_none {A : Type} (f : A -> bool) (l : list A) :
  (forall x, x ∈ l -> f x = false) -> List.filter f l = [].
Proof.
  intros Hf. induction l as [|x l IH]; cbn; [reflexivity|].
  rewrite (Hf x) by left. apply IH. intros y Hy. apply Hf. right. exact Hy.
Qed.

Lemma filter_length_le {A : Type} (f : A -> bool) (l : list A) :
  (length (List.filter f l) <= length l)%nat.
Proof.
  induction l as [|x l IH]; cbn; [lia|]. destruct (f x); cbn; lia.
Qed.

Lemma filter_full_length {A : Type} (f : A -> bool) (l : list A) :
  length (List.filter f l) = length l -> List.filter f l = l.
Proof.
  induction l as [|x l IH]; cbn; [reflexivity|].
  pose proof (filter_length_le f l) as Hle.
  destruct (f x); cbn; intros Hlen; [f_equal; apply IH; lia|lia].
Qed.

Lemma hasLabel_elem_of (e : Expense) (c : string) :
  hasLabel e c = true <-> c ∈ categoriesOrEmpty e.
Proof. apply existsb_eqb_elem_of. Qed.

Lemma allMatch_spec (st : FilterState) (e : Expense) :
  allMatch st e = true <->
  forall c, c ∈ selectedFilterCategories st -> c ∈ categoriesOrEmpty e.
Proof.
  unfold allMatch. rewrite forallb_forall. split.
  - intros H c Hc. apply hasLabel_elem_of, H, list_elem_of_In, Hc.
  - intros H c Hc. apply hasLabel_elem_of, H, list_elem_of_In, Hc.
Qed.

Lemma anyMatch_spec (st : FilterState) (e : Expense) :
  anyMatch st e = true <->
  selectedFilterCategories st = [] \/
  exists c, c ∈ selectedFilterCategories st /\ c ∈ categoriesOrEmpty e.
Proof.
  unfold anyMatch. destruct (selectedFilterCategories st) as [|c0 cs] eqn:Hsel.
  - split; [left; reflexivity|reflexivity].
  - rewrite existsb_exists. split.
    + intros (c & Hc & Hl). right. exists c. split; [apply list_elem_of_In, Hc|].
      apply hasLabel_elem_of, Hl.
    + intros [H|(c & Hc & Hl)]; [discriminate|].
      exists c. split; [apply list_elem_of_In, Hc|apply hasLabel_elem_of, Hl].
Qed.

Lemma availableCategories_spec (expenses : list Expense) (c : string) :
  c ∈ ExpenseList.availableCategories expenses <->
  exists e, e ∈ expenses /\ c ∈ categoriesOrEmpty e.
Proof.
  unfold ExpenseList.availableCategories.
  destruct (new_Set_spec (Array_flatMap categoriesOrEmpty expenses)) as (_ & Hin & _).
  rewrite Hin, flatMap_allLabels, elem_of_allLabels. split.
  - intros (e & cs & He & Hcs & Hc). exists e. split; [exact He|].
    unfold categoriesOrEmpty. rewrite Hcs. exact Hc.
  - intros (e & He & Hc). unfold categoriesOrEmpty in Hc.
    destruct (categories e) as [cs|] eqn:Hcs; [|inversion Hc].
    exists e, cs. auto.
Qed.

(** X1: when [hasActiveFilters] is falsy, both copies of the component
    list every expense, in the order of the input: the summary
    "(n total)" is never shown beside a shortened list. *)
Theorem filteredExpenses_without_active_filters
  (st : FilterState) (expenses : list Expense) :
  hasActiveFilters st = false ->
  ExpenseList.filteredExpenses st expenses = Normal expenses /\
  ExpenseListAnyMatch.filteredExpenses st expenses = Normal expenses.
Proof.
  unfold hasActiveFilters. intros H.
  repeat (apply orb_false_iff in H; destruct H as [H ?]).
  destruct st as [sel s e lo hi]; cbn in *.
  destruct sel; [|discriminate]. destruct s, e, lo, hi; try discriminate.
  rewrite filteredExpenses_normal, filteredExpenses_anyMatch_normal.
  split; f_equal; apply filter_all; intros x; reflexivity.
Qed.

Lemma filteredExpenses_without_active_filters_witness :
  ExpenseList.filteredExpenses noFilter [foodExpense; travelExpense]
  = Normal [foodExpense; travelExpense] /\
  ExpenseListAnyMatch.filteredExpenses noFilter [foodExpense; travelExpense]
  = Normal [foodExpense; travelExpense].
Proof.
  apply filteredExpenses_without_active_filters. reflexivity.
Defined.

(** X2: the counts of the summary "(Filtered: n of m)": in both copies
    n is at most m, and n = m only when the list shows every expense. *)
Theorem filteredExpenses_count (st : FilterState) (expenses : list Expense) :
  (exists result,
     ExpenseList.filteredExpenses st expenses = Normal result /\
     (length result <= length expenses)%nat /\
     (length result = length expenses -> result = expenses)) /\
  (exists result,
     ExpenseListAnyMatch.filteredExpenses st expenses = Normal result /\
     (length result <= length expenses)%nat /\
     (length result = length expenses -> result = expenses)).
Proof.
  split; eexists;
    (split; [first [apply filteredExpenses_normal|apply filteredExpenses_anyMatch_normal]|]);
    (split; [apply filter_length_le|apply filter_full_length]).
Qed.

(** X3: whatever is selected, every expense that the all-match
    component lists is listed by the any-match component, in the same
    order. *)
Theorem all_match_within_any_match (st : FilterState) (expenses : list Expense) :
  exists strict loose,
    ExpenseList.filteredExpenses st expenses = Normal strict /\
    ExpenseListAnyMatch.filteredExpenses st expenses = Normal loose /\
    strict `sublist_of` loose.
Proof.
  do 2 eexists. split; [apply filteredExpenses_normal|].
  split; [apply filteredExpenses_anyMatch_normal|].
  apply filter_implies_sublist. intros e He.
  apply andb_true_iff in He. destruct He as [Hall Hr]. rewrite Hr, andb_true_r.
  apply anyMatch_spec. destruct (selectedFilterCategories st) as [|c cs] eqn:Hsel;
    [left; reflexivity|right].
  exists c. split; [left|].
  apply (proj1 (allMatch_spec st e) Hall). rewrite Hsel. left.
Qed.

(** The date and amount fields of two filter states are the same. *)
Lemma rangeFilters_same (st st' : FilterState) (e : Expense) :
  filterStartDate st' = filterStartDate st -> filterEndDate st' = filterEndDate st ->
  filterAmountMin st' = filterAmountMin st -> filterAmountMax st' = filterAmountMax st ->
  rangeFilters st' e = rangeFilters st e.
Proof. unfold rangeFilters. intros -> -> -> ->. reflexivity. Qed.

(** X4: selecting further categories narrows the list of the all-match
    component: with the same date and amount fields, a selection that
    contains another one lists a subsequence of what the other lists.
    The order and the repetitions of the selection play no part. *)
Theorem all_match_narrows (st st' : FilterState) (expenses : list Expense) :
  selectedFilterCategories st ⊆ selectedFilterCategories st' ->
  filterStartDate st' = filterStartDate st -> filterEndDate st' = filterEndDate st ->
  filterAmountMin st' = filterAmountMin st -> filterAmountMax st' = filterAmountMax st ->
  exists fewer more,
    ExpenseList.filteredExpenses st' expenses = Normal fewer /\
    ExpenseList.filteredExpenses st expenses = Normal more /\
    fewer `sublist_of` more.
Proof.
  intros Hsub Hs He Hlo Hhi.
  do 2 eexists. split; [apply filteredExpenses_normal|].
  split; [apply filteredExpenses_normal|].
  apply filter_implies_sublist. intros e H.
  apply andb_true_iff in H. destruct H as [Hall Hr].
  rewrite <- (rangeFilters_same st st' e Hs He Hlo Hhi), Hr, andb_true_r.
  apply allMatch_spec. intros c Hc.
  apply (proj1 (allMatch_spec st' e) Hall), Hsub, Hc.
Qed.

Lemma all_match_narrows_witness :
  exists fewer more,
    ExpenseList.filteredExpenses foodOrTravel [foodExpense; travelExpense] = Normal fewer /\
    ExpenseList.filteredExpenses noFilter [foodExpense; travelExpense] = Normal more /\
    fewer `sublist_of` more.
Proof.
  apply all_match_narrows; try reflexivity.
  cbn. apply list_subseteq_nil.
Defined.

(** X5: in the any-match component it is the other way round: once a
    category is selected, selecting further ones widens the list. *)
Theorem any_match_widens (st st' : FilterState) (expenses : list Expense) :
  selectedFilterCategories st <> [] ->
  selectedFilterCategories st ⊆ selectedFilterCategories st' ->
  filterStartDate st' = filterStartDate st -> filterEndDate st' = filterEndDate st ->
  filterAmountMin st' = filterAmountMin st -> filterAmountMax st' = filterAmountMax st ->
  exists fewer more,
    ExpenseListAnyMatch.filteredExpenses st expenses = Normal fewer /\
    ExpenseListAnyMatch.filteredExpenses st' expenses = Normal more /\
    fewer `sublist_of` more.
Proof.
  intros Hne Hsub Hs He Hlo Hhi.
  do 2 eexists. split; [apply filteredExpenses_anyMatch_normal|].
  split; [apply filteredExpenses_anyMatch_normal|].
  apply filter_implies_sublist. intros e H.
  apply andb_true_iff in H. destruct H as [Hany Hr].
  rewrite (rangeFilters_same st st' e Hs He Hlo Hhi), Hr, andb_true_r.
  apply anyMatch_spec. right.
  apply anyMatch_spec in Hany. destruct Hany as [Hnil|(c & Hc & Hl)]; [contradiction|].
  exists c. split; [apply Hsub, Hc|exact Hl].
Qed.

Lemma any_match_widens_witness :
  exists fewer more,
    ExpenseListAnyMatch.filteredExpenses januaryFood [foodExpense; travelExpense]
    = Normal fewer /\
    ExpenseListAnyMatch.filteredExpenses
      (setSelectedFilterCategories ["food"%string; "travel"%string] januaryFood)
      [foodExpense; travelExpense] = Normal more /\
    fewer `sublist_of` more.
Proof.
  apply any_match_widens; try reflexivity.
  - cbn. discriminate.
  - cbn. intros c Hc. apply list_elem_of_singleton in Hc. subst c. left.
Defined.

(** X6: the options of the category filter are the labels that can
    match: a label is among [availableCategories] exactly when
    selecting it alone, with the date and amount fields empty, lists at
    least one expense; and a selection that holds a label outside
    [availableCategories] empties the list of the all-match component. *)
Theorem availableCategories_select (expenses : list Expense) (c : string) :
  (c ∈ ExpenseList.availableCategories expenses <->
   exists e result,
     ExpenseList.filteredExpenses (mkFilterState [c] None None None None) expenses
     = Normal result /\ e ∈ result) /\
  (c ∉ ExpenseList.availableCategories expenses ->
   forall st, c ∈ selectedFilterCategories st ->
     ExpenseList.filteredExpenses st expenses = Normal []).
Proof.
  split; [split|].
  - intros Hin. apply availableCategories_spec in Hin. destruct Hin as (e & He & Hc).
    exists e. eexists. split; [apply filteredExpenses_normal|].
    apply elem_of_List_filter. split; [exact He|].
    apply andb_true_iff. split; [|reflexivity].
    apply allMatch_spec. cbn. intros c' Hc'.
    apply list_elem_of_singleton in Hc'. subst c'. exact Hc.
  - intros (e & result & Hres & He). rewrite filteredExpenses_normal in Hres.
    apply Normal_inj in Hres. subst result.
    apply elem_of_List_filter in He. destruct He as [He Hkeep].
    apply andb_true_iff in Hkeep. destruct Hkeep as [Hall _].
    apply availableCategories_spec. exists e. split; [exact He|].
    apply (proj1 (allMatch_spec _ e) Hall). cbn. left.
  - intros Hnot st Hc. rewrite filteredExpenses_normal. f_equal.
    apply filter_none. intros e He.
    apply andb_false_iff. left. apply not_true_is_false. intros Hall.
    apply Hnot, availableCategories_spec. exists e. split; [exact He|].
    apply (proj1 (allMatch_spec st e) Hall), Hc.
Qed.

(** X7: the filter of either copy treats each expense on its own: the
    list of a concatenation is the concatenation of the lists. *)
Theorem filteredExpenses_app (st : FilterState) (older newer : list Expense) :
  (exists r1 r2,
     ExpenseList.filteredExpenses st older = Normal r1 /\
     ExpenseList.filteredExpenses st newer = Normal r2 /\
     ExpenseList.filteredExpenses st (older ++ newer) = Normal (r1 ++ r2)) /\
  (exists r1 r2,
     ExpenseListAnyMatch.filteredExpenses st older = Normal r1 /\
     ExpenseListAnyMatch.filteredExpenses st newer = Normal r2 /\
     ExpenseListAnyMatch.filteredExpenses st (older ++ newer) = Normal (r1 ++ r2)).
Proof.
  split; do 2 eexists.
  - rewrite !filteredExpenses_normal, List.filter_app. auto.
  - rewrite !filteredExpenses_anyMatch_normal, List.filter_app. auto.
Qed.

(** ** The calendar day of an instant *)

Lemma MonthFromTime_within (t : Z) :
  monthStart (InLeapYear t) (MonthFromTime t) <= DayWithinYear t
  < monthStart (InLeapYear t) (MonthFromTime t + 1).
Proof.
  pose proof (DayWithinYear_bounds t) as Hdwy.
  pose proof (DaysInYear_cases (YearFromTime t)) as [Hdays Hleap].
  unfold MonthFromTime, MonthFromDayWithinYear, InLeapYear in *.
  repeat match goal with
         | |- context [ ?a <? ?b ] => destruct (Z.ltb_spec a b)
         end; month_table; lia.
Qed.

Lemma MakeDay_of_fields (t : Z) :
  MakeDay (YearFromTime t) (MonthFromTime t) (DateFromTime t) = Day t.
Proof.
  pose proof (MonthFromTime_bounds t) as Hm.
  unfold MakeDay. cbv zeta.
  rewrite Z.div_small, Z.mod_small by lia.
  replace (YearFromTime t + 0) with (YearFromTime t) by lia.
  unfold DateFromTime, DayWithinYear, InLeapYear. lia.
Qed.

Lemma localDay_dayNumber (tza t : Z) : dayNumber (localDay tza t) = Day (t + tza).
Proof.
  unfold dayNumber, localDay, LocalTime. cbn [ymd_year ymd_month ymd_day].
  replace (MonthFromTime (t + tza) + 1 - 1) with (MonthFromTime (t + tza)) by lia.
  apply MakeDay_of_fields.
Qed.

Lemma localDay_legal (tza t : Z) : legal_ymd (localDay tza t) = true.
Proof.
  unfold legal_ymd, localDay, LocalTime, DaysInMonth. cbn [ymd_year ymd_month ymd_day].
  set (u := t + tza).
  pose proof (MonthFromTime_bounds u) as Hm.
  pose proof (MonthFromTime_within u) as Hw.
  replace (MonthFromTime u + 1 - 1) with (MonthFromTime u) by lia.
  unfold DateFromTime. unfold InLeapYear in *.
  repeat (apply andb_true_iff; split); apply Z.leb_le; lia.
Qed.

(** The calendar day of an instant depends on its day number only. *)
Lemma localDay_of_Day (tza tza' t t' : Z) :
  Day (t + tza) = Day (t' + tza') -> localDay tza t = localDay tza' t'.
Proof.
  intros H. unfold localDay, LocalTime, DateFromTime, MonthFromTime, InLeapYear,
    DayWithinYear, YearFromTime. rewrite H. reflexivity.
Qed.

Lemma toISOString_localDay (tv : Z) :
  toISOString_split_T_0 (Some tv) = Normal (localDay 0 tv).
Proof.
  unfold toISOString_split_T_0, localDay, LocalTime. rewrite Z.add_0_r. reflexivity.
Qed.

Lemma TimeClip_in_range (time : Z) :
  - 8640000000000000 <= time <= 8640000000000000 -> TimeClip time = Some time.
Proof.
  intros H. unfold TimeClip. replace (Z.abs time <=? _) with true; [reflexivity|].
  symmetry. apply Z.leb_le. lia.
Qed.

Lemma DaysInMonth_range (y m : Z) : 0 <= m <= 11 -> 28 <= DaysInMonth y (m + 1) <= 31.
Proof.
  intros Hm. unfold DaysInMonth. replace (m + 1 - 1) with m by lia.
  pose proof (proj2 (DaysInYear_cases y)) as Hl. revert Hl.
  generalize (InLeapYear_of y). intros leap Hl.
  assert (H : m = 0 \/ m = 1 \/ m = 2 \/ m = 3 \/ m = 4 \/ m = 5 \/
              m = 6 \/ m = 7 \/ m = 8 \/ m = 9 \/ m = 10 \/ m = 11) by lia.
  repeat (destruct H as [H|H]; [subst m|]); [..|subst m]; month_table; lia.
Qed.

(** Day 0 of the next month is the last day of the month. *)
Lemma MakeDay_day_0 (y m : Z) :
  0 <= m <= 11 -> MakeDay y (m + 1) 0 = MakeDay y m (DaysInMonth y (m + 1)).
Proof.
  intros Hm. unfold MakeDay, DaysInMonth. cbv zeta.
  replace (m + 1 - 1) with m by lia.
  rewrite (Z.div_small m 12), (Z.mod_small m 12) by lia.
  replace (y + 0) with y by lia.
  destruct (Z.eq_dec m 11) as [->|Hne].
  - change ((11 + 1) / 12) with 1. change ((11 + 1) mod 12) with 0.
    change (11 + 1) with 12.
    rewrite DayFromYear_succ. destruct (DaysInYear_cases y) as [-> _].
    cbv [monthStart]. lia.
  - rewrite (Z.div_small (m + 1) 12), (Z.mod_small (m + 1) 12) by lia.
    replace (y + 0) with y by lia. lia.
Qed.

Lemma year_not_legacy (t : Z) :
  0 <= t -> (0 <=? YearFromTime t) && (YearFromTime t <=? 99) = false.
Proof.
  intros Ht.
  assert (Hy : 1970 <= YearFromTime t).
  { apply YearFromTime_largest. unfold TimeFromYear. change (DayFromYear 1970) with 0. lia. }
  apply andb_false_iff. right. apply Z.leb_gt. lia.
Qed.

Lemma Day_nonneg (t : Z) : 0 <= t -> 0 <= Day t /\ Day t * msPerDay <= t.
Proof. unfold Day, msPerDay. intros Ht. Z.div_mod_to_equations. lia. Qed.

Lemma DayFromYear_nonneg (y : Z) : 1970 <= y -> 0 <= DayFromYear y.
Proof.
  intros Hy. pose proof (DayFromYear_add 1970 (y - 1970) ltac:(lia)) as H.
  replace (1970 + (y - 1970)) with y in H by lia.
  change (DayFromYear 1970) with 0 in H. lia.
Qed.

Lemma MakeDay_shift (y m d k : Z) : MakeDay y m (d + k) = MakeDay y m d + k.
Proof. unfold MakeDay. cbv zeta. lia. Qed.

(** The day numbers of the first and of the last day of the month of an
    instant after 1969. *)
Lemma month_days (t : Z) :
  0 <= t ->
  let first := MakeDay (YearFromTime t) (MonthFromTime t) 1 in
  let last := MakeDay (YearFromTime t) (MonthFromTime t)
                (DaysInMonth (YearFromTime t) (MonthFromTime t + 1)) in
  0 <= first <= Day t /\ first + 27 <= last <= first + 30.
Proof.
  intros Ht first last.
  pose proof (MonthFromTime_bounds t) as Hm.
  pose proof (MakeDay_first_le t) as Hfirst.
  pose proof (DaysInMonth_range (YearFromTime t) _ Hm) as Hrange.
  assert (Hy : 1970 <= YearFromTime t).
  { apply YearFromTime_largest. unfold TimeFromYear. change (DayFromYear 1970) with 0. lia. }
  pose proof (DayFromYear_nonneg _ Hy) as Hy0.
  subst first last.
  set (D := DaysInMonth (YearFromTime t) (MonthFromTime t + 1)) in *.
  replace D with (1 + (D - 1)) by lia. rewrite MakeDay_shift. lia.
Qed.

Lemma dayNumber_firstOfMonth (tza now : Z) :
  dayNumber (firstOfMonth (localDay tza now))
  = MakeDay (YearFromTime (now + tza)) (MonthFromTime (now + tza)) 1.
Proof.
  unfold dayNumber, firstOfMonth, localDay, LocalTime. cbn [ymd_year ymd_month ymd_day].
  replace (MonthFromTime (now + tza) + 1 - 1) with (MonthFromTime (now + tza)) by lia.
  reflexivity.
Qed.

Lemma dayNumber_lastOfMonth (tza now : Z) :
  dayNumber (lastOfMonth (localDay tza now))
  = MakeDay (YearFromTime (now + tza)) (MonthFromTime (now + tza))
      (DaysInMonth (YearFromTime (now + tza)) (MonthFromTime (now + tza) + 1)).
Proof.
  unfold dayNumber, lastOfMonth, localDay, LocalTime. cbn [ymd_year ymd_month ymd_day].
  replace (MonthFromTime (now + tza) + 1 - 1) with (MonthFromTime (now + tza)) by lia.
  reflexivity.
Qed.

(** Two date texts that name the same day are the same text. *)
Lemma dayNumber_inj (a b : YMD) :
  legal_ymd a = true -> legal_ymd b = true -> dayNumber a = dayNumber b -> a = b.
Proof.
  intros Ha Hb Heq.
  pose proof (MakeDay_order a b Ha Hb) as Hab.
  pose proof (MakeDay_order b a Hb Ha) as Hba.
  fold (dayNumber a) in Hab, Hba. fold (dayNumber b) in Hab, Hba.
  unfold ymd_lt in *. destruct a as [ya ma da], b as [yb mb db].
  cbn [ymd_year ymd_month ymd_day] in *.
  assert (ya = yb /\ ma = mb /\ da = db) as (-> & -> & ->) by lia.
  reflexivity.
Qed.

Lemma firstOfMonth_legal (tza now : Z) : legal_ymd (firstOfMonth (localDay tza now)) = true.
Proof.
  pose proof (MonthFromTime_bounds (now + tza)) as Hm.
  pose proof (DaysInMonth_range (YearFromTime (now + tza)) _ Hm) as Hrange.
  unfold legal_ymd, firstOfMonth, localDay, LocalTime. cbn [ymd_year ymd_month ymd_day].
  repeat (apply andb_true_iff; split); apply Z.leb_le; lia.
Qed.

Lemma lastOfMonth_legal (tza now : Z) : legal_ymd (lastOfMonth (localDay tza now)) = true.
Proof.
  pose proof (MonthFromTime_bounds (now + tza)) as Hm.
  pose proof (DaysInMonth_range (YearFromTime (now + tza)) _ Hm) as Hrange.
  unfold legal_ymd, lastOfMonth, localDay, LocalTime. cbn [ymd_year ymd_month ymd_day].
  repeat (apply andb_true_iff; split); apply Z.leb_le; lia.
Qed.

(** The day numbers of the first and the last day of the month that a
    clock shows after 1969. *)
Lemma month_dayNumbers (tza now : Z) :
  0 <= now + tza ->
  0 <= dayNumber (firstOfMonth (localDay tza now)) /\
  dayNumber (firstOfMonth (localDay tza now)) * msPerDay <= now + tza /\
  dayNumber (firstOfMonth (localDay tza now)) + 27
  <= dayNumber (lastOfMonth (localDay tza now))
  <= dayNumber (firstOfMonth (localDay tza now)) + 30.
Proof.
  intros Hlocal. rewrite dayNumber_firstOfMonth, dayNumber_lastOfMonth.
  destruct (month_days _ Hlocal) as [Hfirst Hlast].
  destruct (Day_nonneg _ Hlocal) as [_ HDay].
  unfold msPerDay in *. lia.
Qed.

(** ** The UTC day of a local midnight *)

(** Where the offset in force at local midnight of a day is zero or
    west of Greenwich, the instant of that midnight lies in the same
    day of UTC. *)
Lemma midnight_west (o : Z) (day : YMD) :
  legal_ymd day = true -> - msPerDay < o <= 0 -> 0 <= dayNumber day ->
  dayNumber day * msPerDay - o <= 8640000000000000 ->
  toISOString_split_T_0 (TimeClip (UTC o (localMidnight day))) = Normal day.
Proof.
  intros Hlegal Ho Hday Hmax. unfold UTC, localMidnight.
  replace (MakeDate (dayNumber day) 0 - o) with (MakeDate (dayNumber day) (- o))
    by (unfold MakeDate; lia).
  rewrite TimeClip_in_range by (unfold MakeDate, msPerDay in *; lia).
  rewrite toISOString_localDay. f_equal.
  apply dayNumber_inj; [apply localDay_legal|exact Hlegal|].
  rewrite localDay_dayNumber, Z.add_0_r. apply Day_MakeDate. lia.
Qed.

(** Where that offset is east of Greenwich, the instant lies in the
    day before. *)
Lemma midnight_east (o : Z) (day : YMD) :
  0 < o < msPerDay -> 0 <= dayNumber day ->
  dayNumber day * msPerDay <= 8640000000000000 ->
  exists before,
    toISOString_split_T_0 (TimeClip (UTC o (localMidnight day))) = Normal before /\
    legal_ymd before = true /\
    dayNumber before = dayNumber day - 1.
Proof.
  intros Ho Hday Hmax. unfold UTC, localMidnight.
  replace (MakeDate (dayNumber day) 0 - o)
    with (MakeDate (dayNumber day - 1) (msPerDay - o))
    by (unfold MakeDate; lia).
  rewrite TimeClip_in_range by (unfold MakeDate, msPerDay in *; lia).
  rewrite toISOString_localDay. eexists. split; [reflexivity|].
  split; [apply localDay_legal|].
  rewrite localDay_dayNumber, Z.add_0_r. apply Day_MakeDate. lia.
Qed.

(** ** The two dates that the component builds *)

Lemma firstDayOfMonth_unfold (tz : TimeZone) (now : Z) :
  0 <= now + tz now true ->
  new_Date_components tz (getFullYear tz now) (getMonth tz now) 1
  = TimeClip (UTC (offsetAtMidnight tz (firstOfMonth (clockDay tz now)))
                (localMidnight (firstOfMonth (clockDay tz now)))).
Proof.
  intros Hlocal.
  unfold offsetAtMidnight, clockDay, localMidnight. rewrite dayNumber_firstOfMonth.
  unfold new_Date_components, getFullYear, getMonth, LocalTime.
  rewrite (year_not_legacy _ Hlocal). reflexivity.
Qed.

Lemma lastDayOfMonth_unfold (tz : TimeZone) (now : Z) :
  0 <= now + tz now true ->
  new_Date_components tz (getFullYear tz now) (getMonth tz now + 1) 0
  = TimeClip (UTC (offsetAtMidnight tz (lastOfMonth (clockDay tz now)))
                (localMidnight (lastOfMonth (clockDay tz now)))).
Proof.
  intros Hlocal.
  unfold offsetAtMidnight, clockDay, localMidnight. rewrite dayNumber_lastOfMonth.
  rewrite <- (MakeDay_day_0 _ _ (MonthFromTime_bounds (now + tz now true))).
  unfold new_Date_components, getFullYear, getMonth, LocalTime.
  rewrite (year_not_legacy _ Hlocal). reflexivity.
Qed.

Lemma filterStartDate_init_unfold (tz : TimeZone) (now : Z) :
  ExpenseList.filterStartDate_init tz now
  = toISOString_split_T_0
      (new_Date_components tz (getFullYear tz now) (getMonth tz now) 1).
Proof. reflexivity. Qed.

Lemma getCurrentMonthRange_unfold (tz : TimeZone) (now : Z) :
  getCurrentMonthRange tz now
  = let* first := toISOString_split_T_0
                    (new_Date_components tz (getFullYear tz now) (getMonth tz now) 1) in
    let* last := toISOString_split_T_0
                   (new_Date_components tz (getFullYear tz now) (getMonth tz now + 1) 0) in
    Normal (mkMonthRange first last).
Proof. reflexivity. Qed.

(** ** The initial start date *)

(** Where the offset in force at local midnight of the first day of
    the month is zero or west of Greenwich by less than a day, on a
    clock that shows a year after 1969, the initial start date is the
    first day of the month that the clock shows. *)
Lemma filterStartDate_init_west (tz : TimeZone) (now : Z) :
  - msPerDay < offsetAtMidnight tz (firstOfMonth (clockDay tz now)) <= 0 ->
  0 <= now + tz now true ->
  now + tz now true - offsetAtMidnight tz (firstOfMonth (clockDay tz now))
  <= 8640000000000000 ->
  ExpenseList.filterStartDate_init tz now = Normal (firstOfMonth (clockDay tz now)).
Proof.
  intros Ho Hlocal Hmax.
  rewrite filterStartDate_init_unfold, (firstDayOfMonth_unfold tz now Hlocal).
  destruct (month_dayNumbers (tz now true) now Hlocal) as (H0 & Hle & _).
  apply midnight_west; [apply firstOfMonth_legal|exact Ho|exact H0|].
  unfold clockDay in *. lia.
Qed.

(** In the zone of Greenwich the initial date range runs from the
    first day of the current month to the current day. *)
Lemma initialFilterState_UTC (now : Z) :
  0 <= now <= 8640000000000000 -> startsMonthEndsToday 0 now.
Proof.
  intros Hnow. unfold startsMonthEndsToday, ExpenseList.initialFilterState.
  rewrite filterStartDate_init_west
    by (unfold offsetAtMidnight, fixedOffset, msPerDay; lia).
  unfold ExpenseList.filterEndDate_init. rewrite toISOString_localDay.
  reflexivity.
Qed.

(** ** The range of the button "Current Month" *)

(** X8: where the offsets in force at local midnight of the first and
    of the last day of the month are zero or west of Greenwich by less
    than a day, on a clock that shows a year after 1969,
    [getCurrentMonthRange] returns the first and the last day of the
    month that the clock shows. *)
Theorem getCurrentMonthRange_west (tz : TimeZone) (now : Z) :
  - msPerDay < offsetAtMidnight tz (firstOfMonth (clockDay tz now)) <= 0 ->
  - msPerDay < offsetAtMidnight tz (lastOfMonth (clockDay tz now)) <= 0 ->
  0 <= LocalTime (tz now true) now ->
  LocalTime (tz now true) now + 32 * msPerDay <= 8640000000000000 ->
  getCurrentMonthRange tz now
  = Normal (mkMonthRange (firstOfMonth (clockDay tz now)) (lastOfMonth (clockDay tz now))).
Proof.
  unfold LocalTime. intros Ho1 Ho2 Hlocal Hmax.
  rewrite getCurrentMonthRange_unfold, (firstDayOfMonth_unfold tz now Hlocal),
    (lastDayOfMonth_unfold tz now Hlocal).
  destruct (month_dayNumbers (tz now true) now Hlocal) as (H0 & Hle & Hlast).
  unfold clockDay in *.
  rewrite (midnight_west _ _ (firstOfMonth_legal _ _) Ho1 H0)
    by (unfold msPerDay in *; lia).
  rewrite (midnight_west _ _ (lastOfMonth_legal _ _) Ho2)
    by (unfold msPerDay in *; lia).
  reflexivity.
Qed.

(** London, 15 January 2024, 12:00. *)
Lemma getCurrentMonthRange_west_witness :
  getCurrentMonthRange europeLondon2024 1705320000000
  = Normal (mkMonthRange (firstOfMonth (clockDay europeLondon2024 1705320000000))
              (lastOfMonth (clockDay europeLondon2024 1705320000000))).
Proof.
  apply getCurrentMonthRange_west; vm_compute; intuition congruence.
Defined.

(** X9: where the offsets in force at local midnight of the first and
    of the last day of the month are east of Greenwich by less than a
    day, on a clock that shows a year after 1969, the whole range is a
    day early: [getCurrentMonthRange] starts on the day before the
    first day of the month that the clock shows, the last day of the
    month before, and ends on the day before the last day of the
    month. *)
Theorem getCurrentMonthRange_east (tz : TimeZone) (now : Z) :
  0 < offsetAtMidnight tz (firstOfMonth (clockDay tz now)) < msPerDay ->
  0 < offsetAtMidnight tz (lastOfMonth (clockDay tz now)) < msPerDay ->
  0 <= LocalTime (tz now true) now ->
  LocalTime (tz now true) now + 32 * msPerDay <= 8640000000000000 ->
  exists first last,
    getCurrentMonthRange tz now = Normal (mkMonthRange first last) /\
    legal_ymd first = true /\
    dayNumber first = dayNumber (firstOfMonth (clockDay tz now)) - 1 /\
    last = mkYMD (ymd_year (clockDay tz now)) (ymd_month (clockDay tz now))
             (ymd_day (lastOfMonth (clockDay tz now)) - 1).
Proof.
  unfold LocalTime. intros Ho1 Ho2 Hlocal Hmax.
  rewrite getCurrentMonthRange_unfold, (firstDayOfMonth_unfold tz now Hlocal),
    (lastDayOfMonth_unfold tz now Hlocal).
  destruct (month_dayNumbers (tz now true) now Hlocal) as (H0 & Hle & Hlast).
  unfold clockDay in *.
  destruct (midnight_east _ (firstOfMonth (localDay (tz now true) now)) Ho1 H0
              ltac:(unfold msPerDay in *; lia)) as (first & Hfirst & Hl1 & Hn1).
  destruct (midnight_east _ (lastOfMonth (localDay (tz now true) now)) Ho2 ltac:(lia)
              ltac:(unfold msPerDay in *; lia)) as (last & Hlast' & Hl2 & Hn2).
  rewrite Hfirst, Hlast'. cbn [andThen].
  exists first, last. split; [reflexivity|]. split; [exact Hl1|]. split; [exact Hn1|].
  pose proof (MonthFromTime_bounds (now + tz now true)) as Hm.
  pose proof (DaysInMonth_range (YearFromTime (now + tz now true)) _ Hm) as Hdays.
  apply dayNumber_inj; [exact Hl2| |].
  - unfold legal_ymd, lastOfMonth, localDay, LocalTime. cbn [ymd_year ymd_month ymd_day].
    repeat (apply andb_true_iff; split); apply Z.leb_le; lia.
  - rewrite Hn2. unfold dayNumber, lastOfMonth, localDay, LocalTime.
    cbn [ymd_year ymd_month ymd_day].
    match goal with
    | |- MakeDay ?y ?m ?d - 1 = _ =>
        pose proof (MakeDay_shift y m (d - 1) 1) as Hprev;
        rewrite Z.sub_add in Hprev; rewrite Hprev; lia
    end.
Qed.

(** Kolkata, 15 March 2024, 12:00 local time. *)
Lemma getCurrentMonthRange_east_witness :
  exists first last,
    getCurrentMonthRange (fixedOffset 19800000) 1710484200000
    = Normal (mkMonthRange first last) /\
    legal_ymd first = true /\
    dayNumber first
    = dayNumber (firstOfMonth (clockDay (fixedOffset 19800000) 1710484200000)) - 1 /\
    last = mkYMD (ymd_year (clockDay (fixedOffset 19800000) 1710484200000))
             (ymd_month (clockDay (fixedOffset 19800000) 1710484200000))
             (ymd_day (lastOfMonth (clockDay (fixedOffset 19800000) 1710484200000)) - 1).
Proof.
  apply getCurrentMonthRange_east; vm_compute; intuition congruence.
Defined.

(** In London on 27 October 2024, the day on which summer time ends,
    the first day of the month still lies in summer time: at 12:00 the
    range starts on 30 September and ends on 31 October. *)
Lemma getCurrentMonthRange_London_October :
  clockDay europeLondon2024 1730030400000 = mkYMD 2024 10 27 /\
  getCurrentMonthRange europeLondon2024 1730030400000
  = Normal (mkMonthRange (mkYMD 2024 9 30) (mkYMD 2024 10 31)).
Proof. split; vm_compute; reflexivity. Qed.

(** On 31 March 2024, the day on which summer time begins there, both
    midnights lie in winter time: at 12:00 the range is the month of
    March, although the clock is an hour ahead of UTC. *)
Lemma getCurrentMonthRange_London_March :
  clockDay europeLondon2024 1711882800000 = mkYMD 2024 3 31 /\
  europeLondon2024 1711882800000 true = 3600000 /\
  getCurrentMonthRange europeLondon2024 1711882800000
  = Normal (mkMonthRange (mkYMD 2024 3 1) (mkYMD 2024 3 31)).
Proof. repeat split; vm_compute; reflexivity. Qed.

(** X10: where the offset in force at local midnight of the first day
    of the month is east of Greenwich by less than a day, on a clock
    that shows a year after 1969, the initial start date is not the
    first day of the month that the clock shows: it is the day before,
    the last day of the month before. [clearFilters] computes its start
    date by the same expression. *)
Theorem filterStartDate_init_east (tz : TimeZone) (now : Z) :
  0 < offsetAtMidnight tz (firstOfMonth (clockDay tz now)) < msPerDay ->
  0 <= LocalTime (tz now true) now ->
  LocalTime (tz now true) now <= 8640000000000000 ->
  exists first,
    ExpenseList.filterStartDate_init tz now = Normal first /\
    legal_ymd first = true /\
    dayNumber first = dayNumber (firstOfMonth (clockDay tz now)) - 1 /\
    first <> firstOfMonth (clockDay tz now).
Proof.
  unfold LocalTime. intros Ho Hlocal Hmax.
  rewrite filterStartDate_init_unfold, (firstDayOfMonth_unfold tz now Hlocal).
  destruct (month_dayNumbers (tz now true) now Hlocal) as (H0 & Hle & _).
  unfold clockDay in *.
  destruct (midnight_east _ (firstOfMonth (localDay (tz now true) now)) Ho H0
              ltac:(lia)) as (first & Hfirst & Hlegal & Hnum).
  exists first. split; [exact Hfirst|]. split; [exact Hlegal|]. split; [exact Hnum|].
  intros Heq. rewrite Heq in Hnum. lia.
Qed.

(** London, 27 October 2024, 12:00: summer time ended that morning and
    was in force on 1 October. *)
Lemma filterStartDate_init_east_witness :
  exists first,
    ExpenseList.filterStartDate_init europeLondon2024 1730030400000 = Normal first /\
    legal_ymd first = true /\
    dayNumber first
    = dayNumber (firstOfMonth (clockDay europeLondon2024 1730030400000)) - 1 /\
    first <> firstOfMonth (clockDay europeLondon2024 1730030400000).
Proof.
  apply filterStartDate_init_east; vm_compute; intuition congruence.
Defined.

(** X11: the initial end date, the UTC day of [now], is the day that
    the clock of the user shows exactly when the local time of day is
    at least the offset of the zone (east of Greenwich) or is more than
    the offset before midnight (west of it). *)
Theorem filterEndDate_init_local_day (tza now : Z) :
  - msPerDay < tza < msPerDay ->
  (ExpenseList.filterEndDate_init now = Normal (localDay tza now)
   <-> tza <= TimeWithinDay (now + tza) < msPerDay + tza).
Proof.
  intros Htza. unfold ExpenseList.filterEndDate_init. rewrite toISOString_localDay.
  assert (Hday : Day (now + 0) = Day (now + tza)
                 <-> tza <= TimeWithinDay (now + tza) < msPerDay + tza).
  { unfold Day, TimeWithinDay, msPerDay in *. rewrite Z.add_0_r.
    Z.div_mod_to_equations. lia. }
  rewrite <- Hday. split.
  - intros H. apply Normal_inj in H.
    rewrite <- !localDay_dayNumber. rewrite H. reflexivity.
  - intros H. f_equal. apply localDay_of_Day. exact H.
Qed.

(** Kolkata, 15 March 2024: at 12:00 local time the end date is the
    local day. *)
Lemma filterEndDate_init_local_day_witness :
  ExpenseList.filterEndDate_init 1710484200000 = Normal (localDay 19800000 1710484200000)
  <-> 19800000 <= TimeWithinDay (1710484200000 + 19800000) < msPerDay + 19800000.
Proof.
  apply filterEndDate_init_local_day. unfold msPerDay. lia.
Defined.

(** ** Reset and the button "Current Month" *)

Lemma initialFilterState_unfold (tz : TimeZone) (now : Z) :
  ExpenseList.initialFilterState tz now
  = let* startDate := toISOString_split_T_0
                        (new_Date_components tz (getFullYear tz now) (getMonth tz now) 1) in
    Normal (dateRangeOnly startDate (localDay 0 now)).
Proof.
  unfold ExpenseList.initialFilterState, ExpenseList.filterEndDate_init.
  rewrite filterStartDate_init_unfold, toISOString_localDay. reflexivity.
Qed.

Lemma clearFilters_unfold (tz : TimeZone) (now : Z) (st : FilterState) :
  clearFilters tz now st
  = match toISOString_split_T_0
            (new_Date_components tz (getFullYear tz now) (getMonth tz now) 1) with
    | Throw err => (setSelectedFilterCategories [] st, Throw err)
    | Normal startText => (dateRangeOnly startText (localDay 0 now), Normal tt)
    end.
Proof.
  unfold clearFilters. cbv zeta. rewrite toISOString_localDay. reflexivity.
Qed.

(** X12: "Reset to Current Month" restores the filter fields of the
    mount: whatever the fields hold and whatever the time zone,
    [clearFilters] completes normally with the fields that [useState]
    computes at the same instant. In that state [hasActiveFilters] is
    truthy, so the reset button and the summary "(Filtered: n of m)"
    stay on the page. *)
Theorem clearFilters_restores_initial (tz : TimeZone) (now : Z) (st st0 : FilterState) :
  ExpenseList.initialFilterState tz now = Normal st0 ->
  clearFilters tz now st = (st0, Normal tt) /\ hasActiveFilters st0 = true.
Proof.
  rewrite initialFilterState_unfold, clearFilters_unfold.
  destruct (toISOString_split_T_0 _) as [startText|err]; cbn [andThen]; [|discriminate].
  intros H. apply Normal_inj in H. subst st0. split; reflexivity.
Qed.

Lemma clearFilters_restores_initial_witness :
  clearFilters (fixedOffset 0) 1710504000000 januaryFood
  = (dateRangeOnly (mkYMD 2024 3 1) (mkYMD 2024 3 15), Normal tt) /\
  hasActiveFilters (dateRangeOnly (mkYMD 2024 3 1) (mkYMD 2024 3 15)) = true.
Proof.
  apply clearFilters_restores_initial. vm_compute. reflexivity.
Defined.

Lemma validDateText_intro (txt : YMD) :
  legal_ymd txt = true ->
  - 8640000000000000 <= dayNumber txt * msPerDay <= 8640000000000000 ->
  validDateText txt.
Proof.
  intros Hlegal Hrange. split; [exact Hlegal|]. unfold Date_parse.
  rewrite (legal_inDateFormat txt Hlegal).
  fold (dayNumber txt). rewrite TimeClip_in_range by (unfold MakeDate; lia).
  discriminate.
Qed.

(** A calendar day lies between the first and the last day of a month
    when it is a day of that month. *)
Lemma within_month (day month : YMD) :
  legal_ymd day = true ->
  (ymd_le (firstOfMonth month) day /\ ymd_le day (lastOfMonth month)
   <-> ymd_year day = ymd_year month /\ ymd_month day = ymd_month month).
Proof.
  intros Hlegal. apply legal_ymd_cases in Hlegal. destruct Hlegal as [Hm Hd].
  unfold ymd_le, firstOfMonth, lastOfMonth. cbn [ymd_year ymd_month ymd_day]. split.
  - lia.
  - intros [Hy Hmo]. rewrite <- Hy, <- Hmo. lia.
Qed.

Lemma ymd_le_dayNumber (a b : YMD) :
  legal_ymd a = true -> legal_ymd b = true ->
  (ymd_le a b <-> dayNumber a <= dayNumber b).
Proof.
  intros Ha Hb. rewrite ymd_le_not_lt, <- (MakeDay_order b a Hb Ha).
  unfold dayNumber. lia.
Qed.


(** The filter fields after the click on "Current Month", with no
    category selected and the amount fields empty: what the filter
    lists of the expenses dated by the date input. *)
Lemma date_range_view (st : FilterState) (first last : YMD)
  (expenses : list Expense) (e : Expense) (day : YMD) :
  selectedFilterCategories st = [] ->
  filterAmountMin st = None -> filterAmountMax st = None ->
  validDateText first -> validDateText last ->
  calendarDated e day ->
  ((exists result,
      ExpenseList.filteredExpenses
        (setFilterEndDate (Some last) (setFilterStartDate (Some first) st)) expenses
      = Normal result /\ e ∈ result)
   <-> e ∈ expenses /\ ymd_le first day /\ ymd_le day last).
Proof.
  intros Hsel Hlo Hhi Hv1 Hv2 Hdated.
  set (st' := setFilterEndDate _ _).
  assert (Hwf : wellFormedFilter st').
  { subst st'. unfold wellFormedFilter, setFilterEndDate, setFilterStartDate. cbn.
    rewrite Hlo, Hhi. split; [|split; [|split]]; intros x Hx; try discriminate;
      injection Hx as <-; assumption. }
  pose proof (rangeFilters_bounds st' e day Hdated Hwf) as Hb.
  assert (Hall : allMatch st' e = true).
  { subst st'. unfold allMatch, setFilterEndDate, setFilterStartDate. cbn.
    rewrite Hsel. reflexivity. }
  rewrite filteredExpenses_normal. split.
  - intros (result & Hres & Hin). apply Normal_inj in Hres. subst result.
    apply elem_of_List_filter in Hin. destruct Hin as [Hin Hkeep].
    split; [exact Hin|]. rewrite Hall in Hkeep. cbn [andb] in Hkeep.
    apply Hb in Hkeep. destruct Hkeep as (Hs & He & _).
    split; [apply Hs|apply He]; reflexivity.
  - intros (Hin & Hs & He). eexists. split; [reflexivity|].
    apply elem_of_List_filter. split; [exact Hin|]. rewrite Hall. cbn [andb].
    apply Hb. subst st'. unfold setFilterEndDate, setFilterStartDate. cbn.
    rewrite Hlo, Hhi. split; [|split; [|split]]; intros x Hx; try discriminate;
      injection Hx as <-; assumption.
Qed.

(** X13: where the offsets in force at local midnight of the first and
    of the last day of the month are zero or west of Greenwich by less
    than a day, on a clock that shows a year after 1969: after a click
    on "Current Month" with no category selected and the amount fields
    empty, the component lists an expense dated by the date input
    exactly when that date is a day of the month that the clock of the
    user shows. *)
Theorem current_month_view (tz : TimeZone) (now : Z) (st : FilterState)
  (expenses : list Expense) (e : Expense) (day : YMD) :
  - msPerDay < offsetAtMidnight tz (firstOfMonth (clockDay tz now)) <= 0 ->
  - msPerDay < offsetAtMidnight tz (lastOfMonth (clockDay tz now)) <= 0 ->
  0 <= LocalTime (tz now true) now ->
  LocalTime (tz now true) now + 32 * msPerDay <= 8640000000000000 ->
  selectedFilterCategories st = [] ->
  filterAmountMin st = None -> filterAmountMax st = None ->
  calendarDated e day ->
  ((exists result,
      ExpenseList.filteredExpenses (fst (onClick_CurrentMonth tz now st)) expenses
      = Normal result /\ e ∈ result)
   <-> e ∈ expenses /\
       ymd_year day = ymd_year (clockDay tz now) /\
       ymd_month day = ymd_month (clockDay tz now)).
Proof.
  unfold LocalTime. intros Ho1 Ho2 Hlocal Hmax Hsel Hlo Hhi Hdated.
  unfold onClick_CurrentMonth.
  rewrite getCurrentMonthRange_unfold, (firstDayOfMonth_unfold tz now Hlocal),
    (lastDayOfMonth_unfold tz now Hlocal).
  destruct (month_dayNumbers (tz now true) now Hlocal) as (H0 & Hle & Hlast).
  unfold clockDay in *.
  rewrite (midnight_west _ _ (firstOfMonth_legal _ _) Ho1 H0)
    by (unfold msPerDay in *; lia).
  rewrite (midnight_west _ _ (lastOfMonth_legal _ _) Ho2)
    by (unfold msPerDay in *; lia).
  cbn [andThen fst range_start range_end].
  assert (Hv1 : validDateText (firstOfMonth (localDay (tz now true) now)))
    by (apply validDateText_intro;
        [apply firstOfMonth_legal|unfold msPerDay in *; lia]).
  assert (Hv2 : validDateText (lastOfMonth (localDay (tz now true) now)))
    by (apply validDateText_intro;
        [apply lastOfMonth_legal|unfold msPerDay in *; lia]).
  rewrite (date_range_view st _ _ expenses e day Hsel Hlo Hhi Hv1 Hv2 Hdated).
  destruct Hdated as (_ & [Hlegal _] & _).
  rewrite <- (within_month day (localDay (tz now true) now) Hlegal). tauto.
Qed.

(** London, 15 January 2024, 12:00; an expense of 5 January, which
    the component lists. *)
Lemma current_month_view_witness :
  (exists result,
     ExpenseList.filteredExpenses
       (fst (onClick_CurrentMonth europeLondon2024 1705320000000 noFilter))
       [foodExpense; travelExpense] = Normal result /\ foodExpense ∈ result)
  <-> foodExpense ∈ [foodExpense; travelExpense] /\
      ymd_year (mkYMD 2024 1 5) = ymd_year (clockDay europeLondon2024 1705320000000) /\
      ymd_month (mkYMD 2024 1 5) = ymd_month (clockDay europeLondon2024 1705320000000).
Proof.
  apply current_month_view; try reflexivity; vm_compute; intuition congruence.
Defined.

(** The expense of 5 January is listed in that witness. *)
Lemma current_month_view_lists :
  foodExpense ∈ [foodExpense; travelExpense] /\
  ymd_year (mkYMD 2024 1 5) = ymd_year (clockDay europeLondon2024 1705320000000) /\
  ymd_month (mkYMD 2024 1 5) = ymd_month (clockDay europeLondon2024 1705320000000).
Proof. split; [left|split; vm_compute; reflexivity]. Qed.

(** X14: where those two offsets are east of Greenwich by less than a
    day, on a clock that shows a year after 1969, the same click lists
    the expenses dated from the last day of the month before to the day
    before the last day of the month that the clock shows: an expense
    of the last day of the current month is not listed, one of the last
    day of the month before is. *)
Theorem current_month_view_east (tz : TimeZone) (now : Z) (st : FilterState)
  (expenses : list Expense) (e : Expense) (day : YMD) :
  0 < offsetAtMidnight tz (firstOfMonth (clockDay tz now)) < msPerDay ->
  0 < offsetAtMidnight tz (lastOfMonth (clockDay tz now)) < msPerDay ->
  0 <= LocalTime (tz now true) now ->
  LocalTime (tz now true) now + 32 * msPerDay <= 8640000000000000 ->
  selectedFilterCategories st = [] ->
  filterAmountMin st = None -> filterAmountMax st = None ->
  calendarDated e day ->
  ((exists result,
      ExpenseList.filteredExpenses (fst (onClick_CurrentMonth tz now st)) expenses
      = Normal result /\ e ∈ result)
   <-> e ∈ expenses /\
       dayNumber (firstOfMonth (clockDay tz now)) - 1 <= dayNumber day
       <= dayNumber (lastOfMonth (clockDay tz now)) - 1).
Proof.
  unfold LocalTime. intros Ho1 Ho2 Hlocal Hmax Hsel Hlo Hhi Hdated.
  unfold onClick_CurrentMonth.
  rewrite getCurrentMonthRange_unfold, (firstDayOfMonth_unfold tz now Hlocal),
    (lastDayOfMonth_unfold tz now Hlocal).
  destruct (month_dayNumbers (tz now true) now Hlocal) as (H0 & Hle & Hlast).
  unfold clockDay in *.
  destruct (midnight_east _ (firstOfMonth (localDay (tz now true) now)) Ho1 H0
              ltac:(unfold msPerDay in *; lia)) as (first & Hfirst & Hl1 & Hn1).
  destruct (midnight_east _ (lastOfMonth (localDay (tz now true) now)) Ho2 ltac:(lia)
              ltac:(unfold msPerDay in *; lia)) as (last & Hlast' & Hl2 & Hn2).
  rewrite Hfirst, Hlast'. cbn [andThen fst range_start range_end].
  assert (Hv1 : validDateText first)
    by (apply validDateText_intro; [exact Hl1|rewrite Hn1; unfold msPerDay in *; lia]).
  assert (Hv2 : validDateText last)
    by (apply validDateText_intro; [exact Hl2|rewrite Hn2; unfold msPerDay in *; lia]).
  rewrite (date_range_view st _ _ expenses e day Hsel Hlo Hhi Hv1 Hv2 Hdated).
  destruct Hdated as (_ & [Hlegal _] & _).
  rewrite (ymd_le_dayNumber first day Hl1 Hlegal), (ymd_le_dayNumber day last Hlegal Hl2).
  rewrite Hn1, Hn2. tauto.
Qed.

(** Kolkata, 15 January 2024, 12:00 local time; an expense of
    5 January, which the component lists. *)
Lemma current_month_view_east_witness :
  (exists result,
     ExpenseList.filteredExpenses
       (fst (onClick_CurrentMonth (fixedOffset 19800000) 1705300200000 noFilter))
       [foodExpense; travelExpense] = Normal result /\ foodExpense ∈ result)
  <-> foodExpense ∈ [foodExpense; travelExpense] /\
      dayNumber (firstOfMonth (clockDay (fixedOffset 19800000) 1705300200000)) - 1
      <= dayNumber (mkYMD 2024 1 5)
      <= dayNumber (lastOfMonth (clockDay (fixedOffset 19800000) 1705300200000)) - 1.
Proof.
  apply current_month_view_east; try reflexivity; vm_compute; intuition congruence.
Defined.

(** The expense of 5 January is listed in that witness. *)
Lemma current_month_view_east_lists :
  foodExpense ∈ [foodExpense; travelExpense] /\
  dayNumber (firstOfMonth (clockDay (fixedOffset 19800000) 1705300200000)) - 1
  <= dayNumber (mkYMD 2024 1 5)
  <= dayNumber (lastOfMonth (clockDay (fixedOffset 19800000) 1705300200000)) - 1.
Proof. split; [left|vm_compute; intuition congruence]. Qed.

(** ** The delete dialog *)

Lemma dialogRun_snoc (events : list DialogEvent) (ev : DialogEvent) :
  dialogRun (events ++ [ev]) = dialogStep (dialogRun events) ev.
Proof. unfold dialogRun. rewrite fold_left_app. reflexivity. Qed.

Lemma dialogRun_app (events more : list DialogEvent) :
  dialogRun (events ++ more) = fold_left dialogStep more (dialogRun events).
Proof. unfold dialogRun. apply fold_left_app. Qed.

(** X15: whatever the user does with the bin icons and the two
    buttons of the dialog, the dialog is open exactly when an expense
    is pending, [onDelete] is only ever called with the id of an
    expense whose bin icon was clicked, at most once per click on
    "Delete" and at most once per click on a bin icon. *)
Theorem deleteDialog_invariant (events : list DialogEvent) :
  (deleteDialogOpen (fst (dialogRun events)) = true
   <-> exists e, expenseToDelete (fst (dialogRun events)) = Some e) /\
  (forall i, i ∈ snd (dialogRun events) ->
     exists e, ClickDelete e ∈ events /\ id e = i) /\
  (length (snd (dialogRun events)) <= length (List.filter isClickConfirm events))%nat /\
  (length (snd (dialogRun events))
   + (if deleteDialogOpen (fst (dialogRun events)) then 1 else 0)
   <= length (List.filter isClickDelete events))%nat.
Proof.
  assert (Hpending : forall events e,
            expenseToDelete (fst (dialogRun events)) = Some e -> ClickDelete e ∈ events).
  { clear events. intros events. induction events as [|ev events IH] using rev_ind;
      intros e; [discriminate|].
    rewrite dialogRun_snoc. destruct (dialogRun events) as [st calls].
    destruct ev as [e'| |]; cbn [dialogStep fst handleDeleteClick cancelDelete expenseToDelete].
    - intros H. injection H as <-. apply elem_of_app. right. left.
    - unfold confirmDelete. cbn [fst] in IH.
      destruct (expenseToDelete st) eqn:Hst; cbn [fst expenseToDelete]; [discriminate|].
      rewrite Hst. discriminate.
    - discriminate. }
  induction events as [|ev events IH] using rev_ind.
  - cbn. split; [split; [discriminate|intros [e He]; discriminate]|].
    split; [intros i Hi; inversion Hi|lia].
  - specialize (Hpending events).
    rewrite dialogRun_snoc, !List.filter_app, !length_app.
    destruct IH as (Hopen & Hcalls & Hconfirm & Hclick).
    destruct (dialogRun events) as [st calls]. cbn [fst snd] in *.
    destruct ev as [e'| |];
      cbn [dialogStep fst snd handleDeleteClick cancelDelete deleteDialogOpen
             expenseToDelete List.filter isClickDelete isClickConfirm length].
    + split; [split; [eauto|reflexivity]|]. split.
      * intros i Hi. destruct (Hcalls i Hi) as (e & He & Hid).
        exists e. split; [apply elem_of_app; left; exact He|exact Hid].
      * destruct (deleteDialogOpen st); lia.
    + unfold confirmDelete. destruct (expenseToDelete st) as [e|] eqn:Hst;
        cbn [fst snd deleteDialogOpen expenseToDelete].
      * split; [split; [discriminate|intros [x Hx]; discriminate]|]. split.
        -- intros i Hi. apply elem_of_app in Hi. destruct Hi as [Hi|Hi].
           ++ destruct (Hcalls i Hi) as (x & Hx & Hid).
              exists x. split; [apply elem_of_app; left; exact Hx|exact Hid].
           ++ apply list_elem_of_singleton in Hi. subst i.
              exists e. split; [apply elem_of_app; left; apply Hpending; reflexivity|].
              reflexivity.
        -- rewrite length_app. cbn [length].
           assert (Ho : deleteDialogOpen st = true) by (apply Hopen; eauto).
           rewrite Ho in Hclick. lia.
      * rewrite Hst, app_nil_r. split; [exact Hopen|]. split.
        -- intros i Hi. destruct (Hcalls i Hi) as (x & Hx & Hid).
           exists x. split; [apply elem_of_app; left; exact Hx|exact Hid].
        -- lia.
    + split; [split; [discriminate|intros [x Hx]; discriminate]|]. split.
      * intros i Hi. destruct (Hcalls i Hi) as (x & Hx & Hid).
        exists x. split; [apply elem_of_app; left; exact Hx|exact Hid].
      * lia.
Qed.

(** X16: "Delete" deletes the expense whose bin icon was clicked last
    and closes the dialog; after "Cancel", and on a second click on
    "Delete", nothing is deleted. *)
Theorem confirmDelete_last_clicked (events : list DialogEvent) (e : Expense) :
  dialogRun (events ++ [ClickDelete e; ClickConfirm])
  = ({| deleteDialogOpen := false; expenseToDelete := None |},
     snd (dialogRun events) ++ [id e]) /\
  dialogRun (events ++ [ClickDelete e; ClickConfirm; ClickConfirm])
  = dialogRun (events ++ [ClickDelete e; ClickConfirm]) /\
  dialogRun (events ++ [ClickDelete e; ClickCancel; ClickConfirm])
  = ({| deleteDialogOpen := false; expenseToDelete := None |}, snd (dialogRun events)).
Proof.
  rewrite !dialogRun_app. destruct (dialogRun events) as [st calls].
  cbn. rewrite !app_nil_r. auto.
Qed.

(** ** The categories of the form *)

Lemma Array_filter_index_sublist {A : Type} (callbackfn : A -> nat -> bool) (k : nat)
  (arr : list A) :
  App.Array_filter_index callbackfn k arr `sublist_of` arr.
Proof.
  revert k. induction arr as [|x arr IH]; intros k; cbn; [constructor|].
  destruct (callbackfn x k); constructor; apply IH.
Qed.

Lemma Array_filter_index_above {A : Type} (index k : nat) (arr : list A) :
  (index < k)%nat ->
  App.Array_filter_index (fun _ i => negb (i =? index)%nat) k arr = arr.
Proof.
  revert k. induction arr as [|x arr IH]; intros k Hk; cbn; [reflexivity|].
  destruct (Nat.eqb_spec k index); [lia|]. cbn. f_equal. apply IH. lia.
Qed.

Lemma Array_filter_index_delete {A : Type} (index k : nat) (arr : list A) :
  App.Array_filter_index (fun _ i => negb (i =? k + index)%nat) k arr
  = take index arr ++ drop (S index) arr.
Proof.
  revert index k. induction arr as [|x arr IH]; intros index k; cbn.
  - rewrite take_nil. reflexivity.
  - destruct index as [|index].
    + rewrite Nat.add_0_r, Nat.eqb_refl. cbn. rewrite drop_0.
      apply Array_filter_index_above. lia.
    + destruct (Nat.eqb_spec k (k + S index)); [lia|]. cbn. f_equal.
      replace (k + S index)%nat with (S k + index)%nat by lia. apply IH.
Qed.

Lemma onClick_existingCategory_NoDup (category : string) (st : App.CategoryFields) :
  NoDup (App.selectedCategories st) ->
  NoDup (App.selectedCategories (App.onClick_existingCategory category st)).
Proof.
  intros Hnd. unfold App.onClick_existingCategory.
  destruct (existsb _ _) eqn:Hin; cbn; [exact Hnd|].
  apply NoDup_app. split; [exact Hnd|]. split; [|apply NoDup_singleton].
  intros x Hx Hx'. apply list_elem_of_singleton in Hx'. subst x.
  apply existsb_eqb_elem_of in Hx. congruence.
Qed.

Lemma onClick_addCategory_NoDup (String_trim : string -> string)
  (st : App.CategoryFields) :
  NoDup (App.selectedCategories st) ->
  NoDup (App.selectedCategories (App.onClick_addCategory String_trim st)).
Proof.
  intros Hnd. unfold App.onClick_addCategory.
  destruct (String.eqb _ ""); cbn; [exact Hnd|].
  destruct (existsb _ _) eqn:Hin; cbn; [exact Hnd|].
  apply NoDup_app. split; [exact Hnd|]. split; [|apply NoDup_singleton].
  intros x Hx Hx'. apply list_elem_of_singleton in Hx'. subst x.
  apply existsb_eqb_elem_of in Hx. congruence.
Qed.

(** X17: the selected categories of the form never hold a label
    twice: each handler (click on an existing category, "Add", delete
    of a chip, typing) keeps a duplicate-free selection duplicate-free,
    so the selection is duplicate-free after any sequence of them. *)
Theorem selectedCategories_NoDup (String_trim : string -> string)
  (events : list CategoryEvent) (st : App.CategoryFields) :
  NoDup (App.selectedCategories st) ->
  NoDup (App.selectedCategories (fold_left (categoryStep String_trim) events st)).
Proof.
  revert st. induction events as [|ev events IH]; intros st Hnd; [exact Hnd|].
  cbn [fold_left]. apply IH. destruct ev as [category|text| |index]; cbn [categoryStep].
  - apply onClick_existingCategory_NoDup, Hnd.
  - exact Hnd.
  - apply onClick_addCategory_NoDup, Hnd.
  - cbn. eapply sublist_NoDup; [exact Hnd|apply Array_filter_index_sublist].
Qed.

Lemma selectedCategories_NoDup_witness :
  NoDup (App.selectedCategories
           (fold_left (categoryStep (fun s => s))
              [TypeCategory "food"; ClickAdd; ClickExisting "food"; ClickExisting "travel";
               DeleteChip 0]
              (App.mkCategoryFields [] ""))).
Proof.
  apply selectedCategories_NoDup. cbn. apply NoDup_nil_2.
Defined.

(** X18: the delete icon of a chip removes the label at the position
    of the chip and no other: the labels before and after it stay, in
    their order, also when the same label occurs at another position. *)
Theorem onDelete_selectedCategory_position (index : nat) (st : App.CategoryFields) :
  App.selectedCategories (App.onDelete_selectedCategory index st)
  = take index (App.selectedCategories st) ++ drop (S index) (App.selectedCategories st) /\
  App.categoryInput (App.onDelete_selectedCategory index st) = App.categoryInput st.
Proof.
  split; [|reflexivity]. cbn. apply (Array_filter_index_delete index 0).
Qed.

(** X19: "Add" never selects an empty label, and it clears the input
    whenever the input holds more than what [trim] removes. *)
Theorem onClick_addCategory_label (String_trim : string -> string)
  (st : App.CategoryFields) :
  (String_trim (App.categoryInput st) = ""%string ->
   App.onClick_addCategory String_trim st = st) /\
  (String_trim (App.categoryInput st) <> ""%string ->
   App.categoryInput (App.onClick_addCategory String_trim st) = ""%string /\
   String_trim (App.categoryInput st)
   ∈ App.selectedCategories (App.onClick_addCategory String_trim st) /\
   forall c, c ∈ App.selectedCategories (App.onClick_addCategory String_trim st) ->
     c ∈ App.selectedCategories st \/ (c = String_trim (App.categoryInput st) /\ c <> ""%string)).
Proof.
  unfold App.onClick_addCategory. split.
  - intros ->. reflexivity.
  - intros Hne. apply String.eqb_neq in Hne. rewrite Hne. cbn.
    split; [reflexivity|].
    destruct (existsb _ _) eqn:Hin; cbn.
    + split; [apply existsb_eqb_elem_of, Hin|]. auto.
    + split; [apply elem_of_app; right; left|].
      intros c Hc. apply elem_of_app in Hc. destruct Hc as [Hc|Hc]; [left; exact Hc|].
      apply list_elem_of_singleton in Hc. subst c. right. split; [reflexivity|].
      apply String.eqb_neq, Hne.
Qed.

(** ** Number formatting *)

Lemma isDigit_isWordChar (c : ascii) : isDigit c = true -> isWordChar c = true.
Proof. intros H. unfold isWordChar. rewrite H. reflexivity. Qed.

(** After a digit string that is followed by exactly three more digits
    the lookahead sees what it sees without them. *)
Lemma digitTriples_app (n : nat) (r : list ascii) (a b c : ascii) :
  (length r <= n)%nat -> r <> [] -> allDigits r = true ->
  isDigit a = true -> isDigit b = true -> isDigit c = true ->
  digitTriples (r ++ [a; b; c]) = digitTriples r.
Proof.
  intros Hlen Hne Hr Ha Hb Hc. revert r Hlen Hne Hr.
  induction n as [|n IH]; intros r Hlen Hne Hr.
  - destruct r; [contradiction|cbn in Hlen; lia].
  - destruct r as [|d1 [|d2 [|d3 r']]]; [contradiction| | |].
    + cbn in *. rewrite Hc, !andb_false_r. reflexivity.
    + cbn in *. rewrite Hb, !andb_false_r. reflexivity.
    + cbn [allDigits forallb] in Hr.
      apply andb_true_iff in Hr. destruct Hr as [H1 Hr].
      apply andb_true_iff in Hr. destruct Hr as [H2 Hr].
      apply andb_true_iff in Hr. destruct Hr as [H3 Hr].
      cbn [app digitTriples]. rewrite H1, H2, H3. cbn [andb].
      destruct r' as [|d4 r''].
      * cbn. rewrite Ha, Hb, Hc. reflexivity.
      * cbn [app notBeforeDigit]. f_equal.
        apply (IH (d4 :: r'')); [cbn in *; lia|discriminate|exact Hr].
Qed.

Lemma groupingPattern_app (prev : option ascii) (r : list ascii) (a b c : ascii) :
  r <> [] -> allDigits r = true ->
  isDigit a = true -> isDigit b = true -> isDigit c = true ->
  groupingPattern prev (r ++ [a; b; c]) = groupingPattern prev r.
Proof.
  intros Hne Hr Ha Hb Hc. unfold groupingPattern.
  rewrite (digitTriples_app (length r) r a b c) by auto.
  destruct r; [contradiction|reflexivity].
Qed.

(** No comma is put among fewer than three characters. *)
Lemma replaceGrouping_short (prev : option ascii) (rest : list ascii) :
  (length rest < 3)%nat -> replaceGrouping prev rest = rest.
Proof.
  revert prev. induction rest as [|c rest IH]; intros prev Hlen.
  - cbn [replaceGrouping]. unfold groupingPattern. cbn [digitTriples].
    rewrite andb_false_r. reflexivity.
  - cbn [replaceGrouping]. rewrite IH by (cbn in Hlen; lia).
    unfold groupingPattern.
    replace (digitTriples (c :: rest)) with false; [rewrite andb_false_r; reflexivity|].
    destruct rest as [|c2 [|c3 rest]]; [reflexivity|reflexivity|cbn in Hlen; lia].
Qed.

Lemma replaceGrouping_cons (prev : option ascii) (c : ascii) (rest : list ascii) :
  replaceGrouping prev (c :: rest)
  = (if groupingPattern prev (c :: rest) then [","%char] else [])
    ++ c :: replaceGrouping (Some c) rest.
Proof. reflexivity. Qed.

Lemma replaceGrouping_app (prev : option ascii) (x : list ascii) (a b c : ascii) :
  x <> [] -> allDigits x = true ->
  isDigit a = true -> isDigit b = true -> isDigit c = true ->
  replaceGrouping prev (x ++ [a; b; c])
  = replaceGrouping prev x ++ ","%char :: [a; b; c].
Proof.
  intros Hne Hx Ha Hb Hc. revert prev Hne Hx.
  induction x as [|d x IH]; intros prev Hne Hx; [contradiction|].
  cbn [allDigits forallb] in Hx. apply andb_true_iff in Hx. destruct Hx as [Hd Hx].
  change ((d :: x) ++ [a; b; c]) with (d :: (x ++ [a; b; c])).
  cbn [replaceGrouping].
  change (d :: (x ++ [a; b; c])) with ((d :: x) ++ [a; b; c]).
  rewrite (groupingPattern_app prev (d :: x) a b c)
    by (try discriminate; try assumption; cbn; rewrite Hd; exact Hx).
  rewrite <- !app_assoc. f_equal. cbn [app]. f_equal.
  destruct x as [|d' x'].
  - change ([] ++ [a; b; c]) with [a; b; c].
    rewrite (replaceGrouping_short (Some d) []) by (cbn; lia).
    rewrite replaceGrouping_cons, (replaceGrouping_short (Some a) [b; c]) by (cbn; lia).
    unfold groupingPattern, nonWordBoundary. cbn [digitTriples notBeforeDigit].
    rewrite (isDigit_isWordChar d Hd), (isDigit_isWordChar a Ha), Ha, Hb, Hc.
    reflexivity.
  - apply IH; [discriminate|exact Hx].
Qed.

(** At the start of the string a digit is at a word boundary. *)
Lemma replaceGrouping_start (d : ascii) (rest : list ascii) :
  isDigit d = true ->
  replaceGrouping None (d :: rest) = d :: replaceGrouping (Some d) rest.
Proof.
  intros Hd. rewrite replaceGrouping_cons. unfold groupingPattern, nonWordBoundary.
  rewrite (isDigit_isWordChar d Hd). reflexivity.
Qed.

Lemma String_split_none (separator : ascii) (s : list ascii) :
  separator ∉ s -> String_split separator s = [s].
Proof.
  induction s as [|c s IH]; intros Hs; [reflexivity|].
  cbn. destruct (Ascii.eqb_spec c separator) as [->|Hne].
  - exfalso. apply Hs. left.
  - rewrite IH; [reflexivity|]. intros H. apply Hs. right. exact H.
Qed.

Lemma String_split_once (separator : ascii) (s1 s2 : list ascii) :
  separator ∉ s1 -> separator ∉ s2 ->
  String_split separator (s1 ++ separator :: s2) = [s1; s2].
Proof.
  intros H1 H2. induction s1 as [|c s1 IH]; cbn.
  - rewrite Ascii.eqb_refl, (String_split_none separator s2 H2). reflexivity.
  - destruct (Ascii.eqb_spec c separator) as [->|Hne].
    + exfalso. apply H1. left.
    + rewrite IH; [reflexivity|]. intros H. apply H1. right. exact H.
Qed.

Lemma isDigit_not_dot (s : list ascii) : allDigits s = true -> "."%char ∉ s.
Proof.
  intros Hs Hin. unfold allDigits in Hs. rewrite forallb_forall in Hs.
  specialize (Hs _ (proj1 (list_elem_of_In _ _) Hin)). discriminate.
Qed.

Lemma removeCommas_replaceGrouping (prev : option ascii) (s : list ascii) :
  removeCommas (replaceGrouping prev s) = removeCommas s.
Proof.
  revert prev. induction s as [|c s IH]; intros prev; cbn [replaceGrouping].
  - destruct (groupingPattern prev []); reflexivity.
  - unfold removeCommas in *. rewrite List.filter_app. cbn [List.filter].
    rewrite IH. destruct (groupingPattern prev (c :: s)); reflexivity.
Qed.

Lemma removeCommas_none (s : list ascii) : ","%char ∉ s -> removeCommas s = s.
Proof.
  intros Hs. unfold removeCommas. induction s as [|c s IH]; [reflexivity|].
  cbn. destruct (Ascii.eqb_spec c ","%char) as [->|Hne].
  - exfalso. apply Hs. left.
  - cbn. f_equal. apply IH. intros H. apply Hs. right. exact H.
Qed.

Section FormatProperties.
Variable Number_toString : float -> list ascii.

(** X20: [formatIndianNumber] groups the digits of a whole number by
    three from the right, the grouping of thousands and millions and
    not the lakh and crore grouping of the Indian system: a text of up
    to three digits is returned as it is, and the text of more digits
    is the grouping of all but the last three, a comma, and the last
    three digits. *)
Theorem formatIndianNumber_groups_of_three (number : float) :
  is_nan number = false ->
  allDigits (Number_toString number) = true ->
  ((length (Number_toString number) <= 3)%nat ->
   formatIndianNumber Number_toString (Some number) = Number_toString number) /\
  (forall x a b c, x <> [] -> Number_toString number = x ++ [a; b; c] ->
     formatIndianNumber Number_toString (Some number)
     = replaceGrouping None x ++ ","%char :: [a; b; c]).
Proof.
  intros Hnan Hdigits. unfold formatIndianNumber. rewrite Hnan.
  rewrite (String_split_none _ _ (isDigit_not_dot _ Hdigits)).
  cbn [nth nth_error]. split.
  - intros Hlen. destruct (Number_toString number) as [|d rest]; [reflexivity|].
    cbn [allDigits forallb] in Hdigits. apply andb_true_iff in Hdigits.
    rewrite replaceGrouping_start by apply Hdigits.
    rewrite replaceGrouping_short by (cbn in Hlen; lia). reflexivity.
  - intros x a b c Hne Heq. rewrite Heq in *.
    unfold allDigits in Hdigits. rewrite forallb_app in Hdigits.
    apply andb_true_iff in Hdigits. destruct Hdigits as [Hx Habc].
    cbn in Habc. rewrite andb_true_r in Habc.
    apply andb_true_iff in Habc. destruct Habc as [Ha Hbc].
    apply andb_true_iff in Hbc. destruct Hbc as [Hb Hc].
    apply replaceGrouping_app; assumption.
Qed.

(** X21: the fraction is never grouped and the only characters that
    [formatIndianNumber] adds are commas: for a number whose text is a
    whole part, or a whole part, a point and a non-empty fraction, the
    result is the grouped whole part followed by the point and the
    fraction, and without its commas it is the text of the number. *)
Theorem formatIndianNumber_fraction (number : float) (whole fraction : list ascii) :
  is_nan number = false ->
  "."%char ∉ whole -> "."%char ∉ fraction ->
  ","%char ∉ whole -> ","%char ∉ fraction ->
  Number_toString number
  = whole ++ match fraction with [] => [] | _ :: _ => "."%char :: fraction end ->
  formatIndianNumber Number_toString (Some number)
  = replaceGrouping None whole
    ++ match fraction with [] => [] | _ :: _ => "."%char :: fraction end /\
  removeCommas (formatIndianNumber Number_toString (Some number))
  = Number_toString number.
Proof.
  intros Hnan Hw Hf Hcw Hcf Htext.
  assert (Hformat : formatIndianNumber Number_toString (Some number)
                    = replaceGrouping None whole
                      ++ match fraction with [] => [] | _ :: _ => "."%char :: fraction end).
  { unfold formatIndianNumber. rewrite Hnan, Htext. destruct fraction as [|f fs].
    - rewrite !app_nil_r, (String_split_none _ _ Hw). reflexivity.
    - rewrite (String_split_once _ _ _ Hw Hf). reflexivity. }
  split; [exact Hformat|]. rewrite Hformat, Htext.
  unfold removeCommas. rewrite !List.filter_app.
  fold (removeCommas (replaceGrouping None whole)).
  rewrite removeCommas_replaceGrouping, (removeCommas_none whole Hcw). f_equal.
  destruct fraction as [|f fs]; [reflexivity|].
  apply (removeCommas_none ("."%char :: f :: fs)).
  intros H. apply elem_of_cons in H. destruct H as [H|H]; [discriminate|]. exact (Hcf H).
Qed.

End FormatProperties.

(** One million two hundred and thirty-four thousand five hundred and
    sixty-seven, for a [toString] that prints it so. *)
Lemma formatIndianNumber_groups_of_three_witness :
  formatIndianNumber (fun _ => ["1"; "2"; "3"; "4"; "5"; "6"; "7"]%char) (Some 1234567%float)
  = ["1"; ","; "2"; "3"; "4"; ","; "5"; "6"; "7"]%char.
Proof.
  apply (proj2 (formatIndianNumber_groups_of_three
                  (fun _ => ["1"; "2"; "3"; "4"; "5"; "6"; "7"]%char) 1234567%float
                  eq_refl eq_refl)
           ["1"; "2"; "3"; "4"]%char "5"%char "6"%char "7"%char);
    [discriminate|reflexivity].
Defined.

Lemma formatIndianNumber_fraction_witness :
  formatIndianNumber (fun _ => ["1"; "2"; "3"; "4"; "."; "5"]%char) (Some 1234.5%float)
  = replaceGrouping None ["1"; "2"; "3"; "4"]%char ++ ["."; "5"]%char /\
  removeCommas
    (formatIndianNumber (fun _ => ["1"; "2"; "3"; "4"; "."; "5"]%char) (Some 1234.5%float))
  = ["1"; "2"; "3"; "4"; "."; "5"]%char.
Proof.
  apply (formatIndianNumber_fraction (fun _ => ["1"; "2"; "3"; "4"; "."; "5"]%char)
           1234.5%float ["1"; "2"; "3"; "4"]%char ["5"]%char);
    try reflexivity;
    intros H; repeat (apply elem_of_cons in H; destruct H as [H|H]; [discriminate|]);
    inversion H.
Defined.

(** ** A total that is not a number *)

Lemma SFcompare_refl (x : spec_float) : x <> S754_nan -> SFcompare x x = Some Eq.
Proof.
  destruct x as [s|s| |s m e]; intros Hx; cbn.
  - reflexivity.
  - destruct s; reflexivity.
  - contradiction.
  - destruct s; rewrite Z.compare_refl;
      change (Pos.compare_cont Eq) with Pos.compare; rewrite Pos.compare_refl;
      reflexivity.
Qed.

Lemma is_nan_Prim2SF (x : float) : is_nan x = true <-> Prim2SF x = S754_nan.
Proof.
  unfold is_nan. rewrite FloatAxioms.eqb_spec. unfold SFeqb. split.
  - intros H. destruct (Prim2SF x) as [s|s| |s m e] eqn:Hx; [exfalso|exfalso|reflexivity|exfalso];
      rewrite SFcompare_refl in H by discriminate; discriminate.
  - intros ->. reflexivity.
Qed.

Lemma add_nan (a b : float) :
  is_nan a = true \/ is_nan b = true -> is_nan (a + b) = true.
Proof.
  rewrite !is_nan_Prim2SF, add_spec. unfold SF64add, SFadd.
  intros [->| ->]; [reflexivity|]. destruct (Prim2SF a); reflexivity.
Qed.

Lemma fold_add_nan (l : list Expense) (sum : float) :
  is_nan sum = true \/ (exists e, e ∈ l /\ is_nan (amount e) = true) ->
  is_nan (fold_left (fun sum exp => (sum + amount exp)%float) l sum) = true.
Proof.
  revert sum. induction l as [|x l IH]; intros sum H; cbn [fold_left].
  - destruct H as [H|(e & He & _)]; [exact H|inversion He].
  - apply IH. destruct H as [H|(e & He & Hnan)].
    + left. apply add_nan. left. exact H.
    + apply elem_of_cons in He. destruct He as [->|He].
      * left. apply add_nan. right. exact Hnan.
      * right. exists e. auto.
Qed.

(** X22: one listed expense whose amount is not a number (the amount
    field of the form is free text, and [parseFloat] of a text that
    starts with no number is NaN) makes the total NaN in both copies,
    and the all-match component then shows the total as "0". *)
Theorem total_not_a_number (Number_toString : float -> list ascii)
  (listed : list Expense) (e : Expense) :
  e ∈ listed -> is_nan (amount e) = true ->
  is_nan (ExpenseList.totalAmount listed) = true /\
  is_nan (ExpenseListAnyMatch.totalAmount listed) = true /\
  formatIndianNumber Number_toString (Some (ExpenseList.totalAmount listed)) = ["0"%char].
Proof.
  intros He Hnan.
  assert (H : is_nan (ExpenseList.totalAmount listed) = true).
  { unfold ExpenseList.totalAmount, Array_reduce. apply fold_add_nan. right. eauto. }
  split; [exact H|]. split; [exact H|].
  unfold formatIndianNumber. rewrite H. reflexivity.
Qed.

Lemma total_not_a_number_witness :
  is_nan (ExpenseList.totalAmount [foodExpense; nanExpense]) = true /\
  is_nan (ExpenseListAnyMatch.totalAmount [foodExpense; nanExpense]) = true /\
  formatIndianNumber (fun _ => []) (Some (ExpenseList.totalAmount [foodExpense; nanExpense]))
  = ["0"%char].
Proof.
  apply (total_not_a_number (fun _ => []) [foodExpense; nanExpense] nanExpense).
  - right. left.
  - reflexivity.
Defined.

(** ** What the date and amount fields let through *)

Lemma SFcompare_nan_r (x : spec_float) : SFcompare x S754_nan = None.
Proof. destruct x; reflexivity. Qed.

Lemma ltb_nan (a b : float) :
  is_nan a = true -> (a <? b)%float = false /\ (b <? a)%float = false.
Proof.
  intros Ha. apply is_nan_Prim2SF in Ha.
  rewrite !FloatAxioms.ltb_spec. unfold SFltb. rewrite Ha, SFcompare_nan_r. auto.
Qed.

Lemma filteredExpenses_ext (st st' : FilterState) (expenses : list Expense) :
  selectedFilterCategories st' = selectedFilterCategories st ->
  (forall e, e ∈ expenses -> rangeFilters st' e = rangeFilters st e) ->
  ExpenseList.filteredExpenses st' expenses = ExpenseList.filteredExpenses st expenses /\
  ExpenseListAnyMatch.filteredExpenses st' expenses
  = ExpenseListAnyMatch.filteredExpenses st expenses.
Proof.
  intros Hsel Hrange.
  rewrite !filteredExpenses_normal, !filteredExpenses_anyMatch_normal.
  split; f_equal; apply filter_ext_in; intros e He;
    apply list_elem_of_In in He; rewrite (Hrange e He);
    unfold allMatch, anyMatch; rewrite Hsel; reflexivity.
Qed.

(** X23: an expense whose stored date [new Date] cannot read, as the
    timestamp of an expense submitted with the date input left empty,
    is not touched by the date range: for expenses with such dates
    both copies list the same with any "From" and "To" dates as with
    none. *)
Theorem invalid_date_passes_date_range (st : FilterState) (expenses : list Expense) :
  (forall e, e ∈ expenses -> new_Date (date e) = None) ->
  ExpenseList.filteredExpenses st expenses
  = ExpenseList.filteredExpenses (setFilterEndDate None (setFilterStartDate None st)) expenses /\
  ExpenseListAnyMatch.filteredExpenses st expenses
  = ExpenseListAnyMatch.filteredExpenses
      (setFilterEndDate None (setFilterStartDate None st)) expenses.
Proof.
  intros Hdate. apply filteredExpenses_ext; [reflexivity|].
  intros e He. unfold rangeFilters, Date_gt. cbn. rewrite (Hdate e He).
  destruct (filterStartDate st), (filterEndDate st); cbn;
    repeat match goal with |- context [Date_parse ?t] => destruct (Date_parse t) end;
    reflexivity.
Qed.

Lemma invalid_date_passes_date_range_witness :
  ExpenseList.filteredExpenses januaryFood [undatedExpense]
  = ExpenseList.filteredExpenses
      (setFilterEndDate None (setFilterStartDate None januaryFood)) [undatedExpense] /\
  ExpenseListAnyMatch.filteredExpenses januaryFood [undatedExpense]
  = ExpenseListAnyMatch.filteredExpenses
      (setFilterEndDate None (setFilterStartDate None januaryFood)) [undatedExpense].
Proof.
  apply invalid_date_passes_date_range.
  intros e He. apply list_elem_of_singleton in He. subst e. reflexivity.
Defined.

(** X24: an expense whose amount is NaN is not touched by the amount
    range: for expenses with such amounts both copies list the same
    with any minimum and maximum as with none. *)
Theorem nan_amount_passes_amount_range (st : FilterState) (expenses : list Expense) :
  (forall e, e ∈ expenses -> is_nan (amount e) = true) ->
  ExpenseList.filteredExpenses st expenses
  = ExpenseList.filteredExpenses (setFilterAmountMax None (setFilterAmountMin None st))
      expenses /\
  ExpenseListAnyMatch.filteredExpenses st expenses
  = ExpenseListAnyMatch.filteredExpenses
      (setFilterAmountMax None (setFilterAmountMin None st)) expenses.
Proof.
  intros Hnan. apply filteredExpenses_ext; [reflexivity|].
  intros e He. unfold rangeFilters. cbn.
  destruct (filterAmountMin st) as [lo|], (filterAmountMax st) as [hi|];
    try rewrite (proj1 (ltb_nan (amount e) lo (Hnan e He)));
    try rewrite (proj2 (ltb_nan (amount e) hi (Hnan e He)));
    reflexivity.
Qed.

Lemma nan_amount_passes_amount_range_witness :
  ExpenseList.filteredExpenses atLeastSixty [nanExpense]
  = ExpenseList.filteredExpenses
      (setFilterAmountMax None (setFilterAmountMin None atLeastSixty)) [nanExpense] /\
  ExpenseListAnyMatch.filteredExpenses atLeastSixty [nanExpense]
  = ExpenseListAnyMatch.filteredExpenses
      (setFilterAmountMax None (setFilterAmountMin None atLeastSixty)) [nanExpense].
Proof.
  apply nan_amount_passes_amount_range.
  intros e He. apply list_elem_of_singleton in He. subst e. reflexivity.
Defined.

Lemma Date_lt_mono (tv : TimeValue) (a b : Z) :
  a <= b -> Date_lt tv (Some b) = false -> Date_lt tv (Some a) = false.
Proof.
  destruct tv as [t|]; [|reflexivity]. cbn. intros Hab H.
  apply Z.ltb_ge in H. apply Z.ltb_ge. lia.
Qed.

Lemma Date_gt_mono (tv : TimeValue) (a b : Z) :
  a <= b -> Date_gt tv (Some a) = false -> Date_gt tv (Some b) = false.
Proof.
  unfold Date_gt. destruct tv as [t|]; [|reflexivity]. cbn. intros Hab H.
  apply Z.ltb_ge in H. apply Z.ltb_ge. lia.
Qed.

(** X25: moving the "From" date later and the "To" date earlier narrows
    the list: with the other fields unchanged, both copies list a
    subsequence of what they listed before, whatever the stored dates
    and amounts are. *)
Theorem narrower_dates_narrow (st : FilterState) (expenses : list Expense)
  (from from' to to' : YMD) :
  filterStartDate st = Some from -> filterEndDate st = Some to ->
  validDateText from -> validDateText from' -> validDateText to -> validDateText to' ->
  ymd_le from from' -> ymd_le to' to ->
  (exists fewer more,
     ExpenseList.filteredExpenses
       (setFilterEndDate (Some to') (setFilterStartDate (Some from') st)) expenses
     = Normal fewer /\
     ExpenseList.filteredExpenses st expenses = Normal more /\
     fewer `sublist_of` more) /\
  (exists fewer more,
     ExpenseListAnyMatch.filteredExpenses
       (setFilterEndDate (Some to') (setFilterStartDate (Some from') st)) expenses
     = Normal fewer /\
     ExpenseListAnyMatch.filteredExpenses st expenses = Normal more /\
     fewer `sublist_of` more).
Proof.
  intros Hfrom Hto Hv1 Hv1' Hv2 Hv2' Hle1 Hle2.
  assert (Hrange : forall e,
            rangeFilters (setFilterEndDate (Some to') (setFilterStartDate (Some from') st)) e
            = true -> rangeFilters st e = true).
  { intros e H. apply rangeFilters_guards in H. destruct H as (Hs & He & Hlo & Hhi).
    specialize (Hs from' eq_refl). specialize (He to' eq_refl). cbn in Hlo, Hhi.
    apply rangeFilters_guards. rewrite Hfrom, Hto.
    destruct (Date_parse_valid from Hv1) as [Hl1 Hp1].
    destruct (Date_parse_valid from' Hv1') as [Hl1' Hp1'].
    destruct (Date_parse_valid to Hv2) as [Hl2 Hp2].
    destruct (Date_parse_valid to' Hv2') as [Hl2' Hp2'].
    apply (ymd_le_dayNumber from from' Hl1 Hl1') in Hle1.
    apply (ymd_le_dayNumber to' to Hl2' Hl2) in Hle2.
    unfold dayNumber in Hle1, Hle2.
    rewrite Hp1' in Hs. rewrite Hp2' in He.
    repeat split; try assumption.
    - intros s Heq. injection Heq as <-. rewrite Hp1.
      eapply Date_lt_mono; [|exact Hs]. unfold msPerDay. lia.
    - intros s Heq. injection Heq as <-. rewrite Hp2.
      eapply Date_gt_mono; [|exact He]. unfold msPerDay. lia. }
  split; do 2 eexists.
  - split; [apply filteredExpenses_normal|]. split; [apply filteredExpenses_normal|].
    apply filter_implies_sublist. intros e H. apply andb_true_iff in H.
    destruct H as [Hall H]. apply andb_true_iff. split; [exact Hall|apply Hrange, H].
  - split; [apply filteredExpenses_anyMatch_normal|].
    split; [apply filteredExpenses_anyMatch_normal|].
    apply filter_implies_sublist. intros e H. apply andb_true_iff in H.
    destruct H as [Hany H]. apply andb_true_iff. split; [exact Hany|apply Hrange, H].
Qed.

Lemma narrower_dates_narrow_witness :
  (exists fewer more,
     ExpenseList.filteredExpenses
       (setFilterEndDate (Some (mkYMD 2024 1 15))
          (setFilterStartDate (Some (mkYMD 2024 1 10)) januaryFood))
       [foodExpense; travelExpense] = Normal fewer /\
     ExpenseList.filteredExpenses januaryFood [foodExpense; travelExpense] = Normal more /\
     fewer `sublist_of` more) /\
  (exists fewer more,
     ExpenseListAnyMatch.filteredExpenses
       (setFilterEndDate (Some (mkYMD 2024 1 15))
          (setFilterStartDate (Some (mkYMD 2024 1 10)) januaryFood))
       [foodExpense; travelExpense] = Normal fewer /\
     ExpenseListAnyMatch.filteredExpenses januaryFood [foodExpense; travelExpense]
     = Normal more /\
     fewer `sublist_of` more).
Proof.
  apply (narrower_dates_narrow januaryFood [foodExpense; travelExpense]
           (mkYMD 2024 1 1) (mkYMD 2024 1 10) (mkYMD 2024 1 31) (mkYMD 2024 1 15));
    try reflexivity;
    try (split; [reflexivity|vm_compute; discriminate]);
    unfold ymd_le; cbn; lia.
Defined.

(** ** The totals of the two copies *)

Lemma filter_filter_implies {A : Type} (f g : A -> bool) (l : list A) :
  (forall x, f x = true -> g x = true) ->
  List.filter f (List.filter g l) = List.filter f l.
Proof.
  intros Hfg. induction l as [|x l IH]; cbn; [reflexivity|].
  destruct (g x) eqn:Hg; cbn.
  - rewrite IH. reflexivity.
  - rewrite IH. destruct (f x) eqn:Hf; [|reflexivity].
    rewrite (Hfg x Hf) in Hg. discriminate.
Qed.

(** X26: when every amount is non-negative, the total of what the
    all-match component lists is at most the total of what the
    any-match component lists for the same filter fields, which is at
    most the total of all expenses, as numbers of the program compare. *)
Theorem totals_ordered (st : FilterState) (expenses : list Expense) :
  (forall e, e ∈ expenses -> (0 <=? amount e)%float = true) ->
  exists strict loose,
    ExpenseList.filteredExpenses st expenses = Normal strict /\
    ExpenseListAnyMatch.filteredExpenses st expenses = Normal loose /\
    (ExpenseList.totalAmount strict <=? ExpenseListAnyMatch.totalAmount loose)%float = true /\
    (ExpenseListAnyMatch.totalAmount loose
     <=? ExpenseListAnyMatch.totalAmount expenses)%float = true.
Proof.
  intros Hpos. do 2 eexists.
  split; [apply filteredExpenses_normal|].
  split; [apply filteredExpenses_anyMatch_normal|].
  unfold ExpenseList.totalAmount, ExpenseListAnyMatch.totalAmount, Array_reduce. split.
  - rewrite <- (filter_filter_implies (fun e => allMatch st e && rangeFilters st e)
                  (fun e => anyMatch st e && rangeFilters st e)).
    + apply fold_add_selection; try reflexivity.
      apply Forall_forall. intros e He. apply elem_of_List_filter in He. apply Hpos, He.
    + intros e He. apply andb_true_iff in He. destruct He as [Hall Hr].
      rewrite Hr, andb_true_r. apply anyMatch_spec.
      destruct (selectedFilterCategories st) as [|c cs] eqn:Hsel; [left; reflexivity|right].
      exists c. split; [left|].
      apply (proj1 (allMatch_spec st e) Hall). rewrite Hsel. left.
  - apply fold_add_selection; try reflexivity.
    apply Forall_forall. exact Hpos.
Qed.

Lemma totals_ordered_witness :
  exists strict loose,
    ExpenseList.filteredExpenses foodOrTravel [foodExpense; travelExpense] = Normal strict /\
    ExpenseListAnyMatch.filteredExpenses foodOrTravel [foodExpense; travelExpense]
    = Normal loose /\
    (ExpenseList.totalAmount strict <=? ExpenseListAnyMatch.totalAmount loose)%float = true /\
    (ExpenseListAnyMatch.totalAmount loose
     <=? ExpenseListAnyMatch.totalAmount [foodExpense; travelExpense])%float = true.
Proof.
  apply totals_ordered.
  intros e He. apply elem_of_cons in He as [->|He]; [reflexivity|].
  apply list_elem_of_singleton in He as ->. reflexivity.
Defined.
